(** * Interop stub helpers of the CoreCLR VM (src/coreclr/vm/stubhelpers.cpp)

    A shallow embedding of the two subsystems of the file that carry logic:
    the deferred by-reference heap validation (VERIFY_HEAP) and the
    RCW interface-pointer cache with its slow-path fallback
    (FEATURE_COMINTEROP).

    Pointers and SIZE_T values are integers ([Z]); NULL is [0].  Code that
    reads or writes process state is written in a small state-and-exception
    monad [M] over a [World]; every externally visible action (a call into
    the GC heap, a validation, a store through an out parameter, a fatal
    error) is also appended to the world's [trace], so that "how often" and
    "in which order" can be stated. *)

From Stdlib Require Import ZArith Lia String Ascii List Bool.
From stdpp Require Import base numbers list functions strings.

Local Open Scope Z_scope.

(** ** Values *)

Definition NULL : Z := 0.

(** HRESULTs used by the file (corerror.h, winerror.h). *)
Definition COR_E_EXECUTIONENGINE : Z := 0x80131506.
Definition COR_E_OVERFLOW : Z := 0x80131516.
Definition E_OUTOFMEMORY : Z := 0x8007000E.

(** What can travel up to an EX_CATCH: a thrown HRESULT, or the exception or
    access violation raised by a failing [Object::Validate]. *)
Inductive Exception : Type :=
| HRException (hr : Z)
| ValidationFault (obj : Z).

(** struct ByrefValidationEntry { void *pByref; MethodDesc *pMD; } *)
Record ByrefValidationEntry : Type := mkEntry {
  pByref : Z;
  pMD : Z
}.

(** InterfaceEntry of an RCW: { m_pMT; m_pUnknown } *)
Record InterfaceEntry : Type := mkInterfaceEntry {
  m_pMT : Z;
  m_pUnknown : Z
}.

(** SOleTlsData, of which only pCurrentCtx is read. *)
Record SOleTlsData : Type := mkOleTls {
  pCurrentCtx : Z
}.

(** CQuickArray<T>: a buffer and its element count.  Slots at or beyond
    [qa_size] are memory the array does not own. *)
Record CQuickArray (T : Type) : Type := mkQuickArray {
  qa_size : Z;
  qa_data : Z -> T
}.
Arguments mkQuickArray {T} _ _.
Arguments qa_size {T} _.
Arguments qa_data {T} _ _.

(** ** Observable actions *)

Inductive Event : Type :=
| EvGetContainingObject (p : Z)
| EvValidate (obj : Z) (bDeep bVerifyNextHeader bVerifySyncBlock : bool)
| EvNextObj (obj : Z)
| EvLoadMethodTable (obj : Z) (mt : Z)
| EvGarbageCollect (gen : Z)
| EvFatalError (code : Z) (msg : option string)
| EvCacheRead (rcw : Z) (i : nat)
| EvStoreNeedsRelease (b : bool)
| EvStoreTarget (t : Z)
| EvGetComIPFromRCWThrowing (obj itf : Z)
| EvClearFP.

(** ** Process state *)

Record World : Type := mkWorld {
  s_ByrefValidationEntries : CQuickArray ByrefValidationEntry;
  s_ByrefValidationIndex : Z;
  (* IGCHeap::IsConcurrentGCInProgress *)
  concurrentGC : bool;
  (* number of volatile loads performed so far: a location that another
     thread may change is read as a function of this clock *)
  loads : nat;
  (* TEB.ReservedForOle *)
  ReservedForOle : option SOleTlsData;
  (* RCW::m_aInterfaceEntries, per RCW address *)
  m_aInterfaceEntries : Z -> nat -> InterfaceEntry;
  (* the caller's locals behind the out parameters ppTarget and
     pfNeedsRelease of GetCOMIPFromRCW *)
  out_ppTarget : Z;
  out_pfNeedsRelease : bool;
  trace : list Event
}.

Definition set_entries (q : CQuickArray ByrefValidationEntry) (w : World) : World :=
  mkWorld q (s_ByrefValidationIndex w) (concurrentGC w)
          (loads w) (ReservedForOle w) (m_aInterfaceEntries w)
          (out_ppTarget w) (out_pfNeedsRelease w) (trace w).

Definition set_index (i : Z) (w : World) : World :=
  mkWorld (s_ByrefValidationEntries w) i (concurrentGC w)
          (loads w) (ReservedForOle w) (m_aInterfaceEntries w)
          (out_ppTarget w) (out_pfNeedsRelease w) (trace w).

Definition set_loads (n : nat) (w : World) : World :=
  mkWorld (s_ByrefValidationEntries w) (s_ByrefValidationIndex w) (concurrentGC w)
          n (ReservedForOle w) (m_aInterfaceEntries w)
          (out_ppTarget w) (out_pfNeedsRelease w) (trace w).

Definition set_ole (d : option SOleTlsData) (w : World) : World :=
  mkWorld (s_ByrefValidationEntries w) (s_ByrefValidationIndex w) (concurrentGC w)
          (loads w) d (m_aInterfaceEntries w)
          (out_ppTarget w) (out_pfNeedsRelease w) (trace w).

Definition set_cache (c : Z -> nat -> InterfaceEntry) (w : World) : World :=
  mkWorld (s_ByrefValidationEntries w) (s_ByrefValidationIndex w) (concurrentGC w)
          (loads w) (ReservedForOle w) c
          (out_ppTarget w) (out_pfNeedsRelease w) (trace w).

Definition set_ppTarget (t : Z) (w : World) : World :=
  mkWorld (s_ByrefValidationEntries w) (s_ByrefValidationIndex w) (concurrentGC w)
          (loads w) (ReservedForOle w) (m_aInterfaceEntries w)
          t (out_pfNeedsRelease w) (trace w).

Definition set_pfNeedsRelease (b : bool) (w : World) : World :=
  mkWorld (s_ByrefValidationEntries w) (s_ByrefValidationIndex w) (concurrentGC w)
          (loads w) (ReservedForOle w) (m_aInterfaceEntries w)
          (out_ppTarget w) b (trace w).

Definition set_trace (t : list Event) (w : World) : World :=
  mkWorld (s_ByrefValidationEntries w) (s_ByrefValidationIndex w) (concurrentGC w)
          (loads w) (ReservedForOle w) (m_aInterfaceEntries w)
          (out_ppTarget w) (out_pfNeedsRelease w) t.

(** ** The monad *)

(** A computation returns, throws, or ends the process (a fatal error does
    not return to its caller). *)
Inductive Outcome (A : Type) : Type :=
| Ret (a : A)
| Throw (e : Exception)
| Fatal.
Arguments Ret {A} _.
Arguments Throw {A} _.
Arguments Fatal {A}.

Definition M (A : Type) : Type := World -> Outcome A * World.

Definition ret {A} (a : A) : M A := fun w => (Ret a, w).

Definition bind {A B} (m : M A) (k : A -> M B) : M B :=
  fun w =>
    match m w with
    | (Ret a, w1) => k a w1
    | (Throw e, w1) => (Throw e, w1)
    | (Fatal, w1) => (Fatal, w1)
    end.

Notation "x <- m ;; k" := (bind m (fun x => k))
  (at level 100, m at next level, right associativity).
Notation "m ;;; k" := (bind m (fun _ => k))
  (at level 100, right associativity).

Definition throw {A} (e : Exception) : M A := fun w => (Throw e, w).

Definition emit (e : Event) : M unit :=
  fun w => (Ret tt, set_trace (trace w ++ [e]) w).

Definition get_world : M World := fun w => (Ret w, w).

Definition modify (f : World -> World) : M unit := fun w => (Ret tt, f w).

(** EX_TRY { body } EX_CATCH { handler } EX_END_CATCH_UNREACHABLE: the
    handler has no normal exit, hence its type. *)
Definition try_catch_unreachable {A} (body : M A) (handler : M Empty_set) : M A :=
  fun w =>
    match body w with
    | (Ret a, w1) => (Ret a, w1)
    | (Throw _, w1) =>
        match handler w1 with
        | (Ret x, _) => match x with end
        | (Throw e, w2) => (Throw e, w2)
        | (Fatal, w2) => (Fatal, w2)
        end
    | (Fatal, w1) => (Fatal, w1)
    end.

(** The same, for a try block that assigns a local the handler reads:
    the body hands back the local's value at the point it stopped. *)
Definition try_catch_unreachable_with {A L}
    (body : World -> Outcome A * L * World) (handler : L -> M Empty_set) : M A :=
  fun w =>
    match body w with
    | (Ret a, _, w1) => (Ret a, w1)
    | (Throw _, l, w1) =>
        match handler l w1 with
        | (Ret x, _) => match x with end
        | (Throw e, w2) => (Throw e, w2)
        | (Fatal, w2) => (Fatal, w2)
        end
    | (Fatal, _, w1) => (Fatal, w1)
    end.

(** EEPOLICY_HANDLE_FATAL_ERROR_WITH_MESSAGE / EEPOLICY_HANDLE_FATAL_ERROR *)
Definition EEPOLICY_HANDLE_FATAL_ERROR_WITH_MESSAGE {A} (code : Z) (msg : string) : M A :=
  fun w => (Fatal, set_trace (trace w ++ [EvFatalError code (Some msg)]) w).

Definition EEPOLICY_HANDLE_FATAL_ERROR {A} (code : Z) : M A :=
  fun w => (Fatal, set_trace (trace w ++ [EvFatalError code None]) w).

(** The events a computation adds: [w'] continues the trace of [w] by [evs]. *)
Definition emitted (w w' : World) (evs : list Event) : Prop :=
  trace w' = trace w ++ evs.

(** ** What the file consumes for heap validation

    Everything below is declared outside stubhelpers.cpp and enters as a
    parameter: the GC heap interface, [Object::Validate], the metadata
    names of a MethodDesc, the allocator behind SString and CQuickArray,
    and the two constants. *)
Class HeapServices : Type := {
  (* largest SIZE_T of the host *)
  SIZE_T_MAX : Z;
  (* IGCHeap::IsHeapPointer *)
  isPointerInManagedHeap : Z -> bool;
  (* IGCHeap::GetContainingObject(p, false) *)
  containingObjectAt : Z -> Z;
  (* IGCHeap::NextObj *)
  nextObjectAfter : Z -> Z;
  (* Object::Validate(bDeep, bVerifyNextHeader, bVerifySyncBlock) returns
     normally; otherwise it raises into the enclosing EX_TRY *)
  validates : Z -> bool -> bool -> bool -> bool;
  (* the word at offset 0 of an object as seen by the n-th volatile load;
     a background GC may change it between two loads *)
  methodTableAt : nat -> Z -> Z;
  g_pFreeObjectMethodTable : Z;
  BYREF_VALIDATION_LIST_MAX_SIZE : Z;
  (* ((DelegateEEClass* )pMT->GetClass())->GetInvokeMethod() of a delegate *)
  GetInvokeMethod : Z -> Z;
  (* pMD->GetMethodTable()->_GetFullyQualifiedNameForClass *)
  GetFullyQualifiedNameForClass : Z -> string;
  (* pMD->GetName() *)
  GetName : Z -> string;
  NAMESPACE_SEPARATOR_CHAR : ascii;
  (* SString::Append of a piece to the current contents finds memory *)
  appendSucceeds : string -> string -> bool;
  (* the allocation of a CQuickArray of that many elements succeeds *)
  allocSucceeds : Z -> bool
}.

Section VerifyHeap.
Context `{HeapServices}.

(** *** GC heap and object calls *)

Definition GetContainingObject (p : Z) : M Z :=
  emit (EvGetContainingObject p) ;;; ret (containingObjectAt p).

Definition NextObj (obj : Z) : M Z :=
  emit (EvNextObj obj) ;;; ret (nextObjectAfter obj).

(** IGCHeap::GarbageCollect.  The collector's code is not part of
    stubhelpers.cpp: a call is recorded as a request and nothing of the
    collection itself is run by this definition.  In the runtime the
    collection suspends the EE and runs ProcessByrefValidationList (see the
    comments in ProcessByrefValidationList and ValidateByref), which resets
    the live-count or ends the process.  The world a ValidateByref returns
    after [EvGarbageCollect] is therefore the world at the call into the
    collector, not the queue its caller finds: what relates an enqueue to
    the entries live after it, or to a later drain, is stated for runs that
    make no request. *)
Definition GarbageCollect (gen : Z) : M unit :=
  emit (EvGarbageCollect gen).

Definition Object_Validate (obj : Z) (bDeep bVerifyNextHeader bVerifySyncBlock : bool) : M unit :=
  emit (EvValidate obj bDeep bVerifyNextHeader bVerifySyncBlock) ;;;
  if validates obj bDeep bVerifyNextHeader bVerifySyncBlock
  then ret tt
  else throw (ValidationFault obj).

(** VolatileLoad(obj->GetMethodTablePtr()) *)
Definition VolatileLoad_MethodTablePtr (obj : Z) : M Z :=
  fun w =>
    let mt := methodTableAt (loads w) obj in
    (Ret mt, set_trace (trace w ++ [EvLoadMethodTable obj mt]) (set_loads (S (loads w)) w)).

(** *** StubHelpers::ValidateObjectInternal

    The object is validated deeply with its sync block, then, on request,
    the object the heap places after it, without the sync block.  The
    _ASSERTE on the runtime structures is a debug check and left out. *)
Definition ValidateObjectInternal (pObjUNSAFE : Z) (fValidateNextObj : bool) : M unit :=
  (if negb (pObjUNSAFE =? NULL)
   then Object_Validate pObjUNSAFE true false true
   else ret tt) ;;;
  if fValidateNextObj then
    nextObj <- NextObj pObjUNSAFE ;;
    if negb (nextObj =? NULL) then
      pMT <- VolatileLoad_MethodTablePtr nextObj ;;
      if negb (pMT =? NULL) && negb (pMT =? g_pFreeObjectMethodTable)
      then Object_Validate nextObj true false false
      else ret tt
    else ret tt
  else ret tt.

(** *** StubHelpers::ResolveInteropMethod *)
Definition ResolveInteropMethod (pThisUNSAFE pMD : Z) : Z :=
  if (pMD =? NULL) && negb (pThisUNSAFE =? NULL)
  then GetInvokeMethod pThisUNSAFE
  else pMD.

(** *** StubHelpers::FormatValidationMessage *)

Definition SString_Append (s piece : string) : M string :=
  if appendSucceeds s piece then ret (s +:+ piece) else throw (HRException E_OUTOFMEMORY).

Definition FormatValidationMessage (pMD : Z) (ssErrorString : string) : M string :=
  s <- SString_Append ssErrorString
         "Detected managed heap corruption, likely culprit is interop call through " ;;
  if pMD =? NULL then
    SString_Append s "CALLI."
  else
    s <- SString_Append s "method '" ;;
    let ssClassName := GetFullyQualifiedNameForClass pMD in
    s <- SString_Append s ssClassName ;;
    s <- SString_Append s (String NAMESPACE_SEPARATOR_CHAR EmptyString) ;;
    s <- SString_Append s (GetName pMD) ;;
    SString_Append s "'.".

(** *** StubHelpers::ProcessByrefValidationList *)

(** The for loop, [n] iterations from index [i]; [entry] is the local the
    catch block reads. *)
Fixpoint ProcessByrefValidationList_loop (n : nat) (i : Z) (entry : ByrefValidationEntry)
    (w : World) : Outcome unit * ByrefValidationEntry * World :=
  match n with
  | O => (Ret tt, entry, w)
  | S n' =>
      let entry := qa_data (s_ByrefValidationEntries w) i in
      match (pObjUNSAFE <- GetContainingObject (pByref entry) ;;
             ValidateObjectInternal pObjUNSAFE true) w with
      | (Ret _, w1) => ProcessByrefValidationList_loop n' (i + 1) entry w1
      | (Throw e, w1) => (Throw e, entry, w1)
      | (Fatal, w1) => (Fatal, entry, w1)
      end
  end.

Definition ProcessByrefValidationList : M unit :=
  let errorString := EmptyString in
  let entry := mkEntry NULL NULL in
  try_catch_unreachable_with
    (fun w => ProcessByrefValidationList_loop
                (Z.to_nat (s_ByrefValidationIndex w)) 0 entry w)
    (fun entry =>
       try_catch_unreachable
         (msg <- FormatValidationMessage (pMD entry) errorString ;;
          EEPOLICY_HANDLE_FATAL_ERROR_WITH_MESSAGE COR_E_EXECUTIONENGINE msg)
         (EEPOLICY_HANDLE_FATAL_ERROR COR_E_EXECUTIONENGINE)) ;;;
  modify (set_index 0).

(** *** StubHelpers::ValidateObject *)
Definition ValidateObject (pObjUNSAFE pMD pThisUNSAFE : Z) : M unit :=
  let errorString := EmptyString in
  try_catch_unreachable
    (w <- get_world ;;
     ValidateObjectInternal pObjUNSAFE (negb (concurrentGC w)))
    (msg <- FormatValidationMessage (ResolveInteropMethod pThisUNSAFE pMD) errorString ;;
     EEPOLICY_HANDLE_FATAL_ERROR_WITH_MESSAGE COR_E_EXECUTIONENGINE msg).

(** *** StubHelpers::ValidateByref

    The helper method frame and the lock around the append have no
    counterpart in a sequential model; the CrstHolder's scope is the three
    steps from the capacity check to the increment. *)

(** ClrSafeInt<SIZE_T>::multiply / addition: [None] on overflow. *)
Definition ClrSafeInt_multiply (a b : Z) : option Z :=
  if a * b <=? SIZE_T_MAX then Some (a * b) else None.

Definition ClrSafeInt_addition (a b : Z) : option Z :=
  if a + b <=? SIZE_T_MAX then Some (a + b) else None.

(** Modelled from the spec: CQuickArray<T>::ReSizeThrows is declared outside
    stubhelpers.cpp.  "Resizing the queue from capacity C to >C preserves
    all previously stored entries"; by its name the call throws when it
    cannot get the memory. *)
Definition CQuickArray_ReSizeThrows (newSize : Z) : M unit :=
  if allocSucceeds newSize then
    modify (fun w =>
      set_entries (mkQuickArray newSize (qa_data (s_ByrefValidationEntries w))) w)
  else throw (HRException E_OUTOFMEMORY).

Definition ThrowHR {A} (hr : Z) : M A := throw (HRException hr).

Definition ValidateByref (pByref pMD pThisUNSAFE : Z) : M unit :=
  if negb (isPointerInManagedHeap pByref) then ret tt
  else
    let entry := mkEntry pByref (ResolveInteropMethod pThisUNSAFE pMD) in
    (* CrstHolder ch(&s_ByrefValidationLock) *)
    w <- get_world ;;
    (if s_ByrefValidationIndex w >=? qa_size (s_ByrefValidationEntries w) then
       match ClrSafeInt_multiply (s_ByrefValidationIndex w) 2 with
       | None => ThrowHR COR_E_OVERFLOW
       | Some newSize =>
           match ClrSafeInt_addition newSize 1 with
           | None => ThrowHR COR_E_OVERFLOW
           | Some newSize => CQuickArray_ReSizeThrows newSize
           end
       end
     else ret tt) ;;;
    modify (fun w =>
      set_entries (mkQuickArray (qa_size (s_ByrefValidationEntries w))
                     (<[s_ByrefValidationIndex w := entry]>
                        (qa_data (s_ByrefValidationEntries w)))) w) ;;;
    modify (fun w =>
      set_index ((s_ByrefValidationIndex w + 1) mod (SIZE_T_MAX + 1)) w) ;;;
    w <- get_world ;;
    let NumOfEntries := s_ByrefValidationIndex w in
    if NumOfEntries >? BYREF_VALIDATION_LIST_MAX_SIZE
    then GarbageCollect 0
    else ret tt.

End VerifyHeap.

(** ** What the file consumes for COM interop

    Declared outside stubhelpers.cpp: the RCW of an object and its apartment
    data, the per-call-site [CLRToCOMCallInfo], the dispatch tables of
    foreign objects, and the interface query behind the slow path. *)
Class ComServices : Type := {
  TARGET_X86 : bool;
  INTERFACE_ENTRY_CACHE_SIZE : nat;
  (* pSrc->PassiveGetSyncBlock()->GetInteropInfoNoCreate()->GetRawRCW() *)
  GetRawRCW : Z -> Z;
  (* RCW::GetWrapperCtxCookie, RCW::IsFreeThreaded *)
  GetWrapperCtxCookie : Z -> Z;
  IsFreeThreaded : Z -> bool;
  (* CLRToCOMCallInfo::FromMethodDesc(pMD)->m_pInterfaceMT, ->m_cachedComSlot *)
  m_pInterfaceMT : Z -> Z;
  m_cachedComSlot : Z -> Z;
  (* slot of the dispatch table a foreign interface pointer starts with *)
  vtableSlot : Z -> Z -> Z;
  (* the OLE TLS data SetupOleContext creates for a thread without one *)
  SetupOleContext : SOleTlsData;
  (* the interface query of the foreign object model: an owned pointer, or
     the HRESULT of a catchable failure *)
  resolveInterface : Z -> Z -> Z + Z;
  (* the cache slot the resolver stores a fresh result in *)
  cacheSlotFor : Z -> Z -> nat
}.

Section ComInterop.
Context `{ComServices}.

Definition GetCOMIPFromRCW_ClearFP : M unit :=
  if TARGET_X86 then emit EvClearFP else ret tt.

(** The OLE TLS data of the thread; SetupOleContext is taken to install
    what it returns in the TEB. *)
Definition GetOrCreateOleTlsData : M SOleTlsData :=
  fun w =>
    match ReservedForOle w with
    | Some pOleTlsData => (Ret pOleTlsData, w)
    | None => (Ret SetupOleContext, set_ole (Some SetupOleContext) w)
    end.

(** pRCW->m_aInterfaceEntries[i] *)
Definition read_InterfaceEntry (pRCW : Z) (i : nat) : M InterfaceEntry :=
  emit (EvCacheRead pRCW i) ;;;
  w <- get_world ;;
  ret (m_aInterfaceEntries w pRCW i).

(** The for loop of the cache scan: [n] slots from slot [i] on. *)
Fixpoint GetIUnknownFromRCWCache_loop (pRCW pItfMT : Z) (n i : nat) : M Z :=
  match n with
  | O => ret NULL
  | S n' =>
      e <- read_InterfaceEntry pRCW i ;;
      if m_pMT e =? pItfMT
      then ret (m_pUnknown e)
      else GetIUnknownFromRCWCache_loop pRCW pItfMT n' (S i)
  end.

Definition GetCOMIPFromRCW_GetIUnknownFromRCWCache (pRCW pItfMT : Z) : M Z :=
  pOleTlsData <- GetOrCreateOleTlsData ;;
  if (pCurrentCtx pOleTlsData =? GetWrapperCtxCookie pRCW) || IsFreeThreaded pRCW
  then GetIUnknownFromRCWCache_loop pRCW pItfMT INTERFACE_ENTRY_CACHE_SIZE 0
  else ret NULL.

(** lpVtbl[pComInfo->m_cachedComSlot] *)
Definition GetCOMIPFromRCW_GetTarget (pUnk pMD : Z) : Z :=
  vtableSlot pUnk (m_cachedComSlot pMD).

Definition store_ppTarget (t : Z) : M unit :=
  emit (EvStoreTarget t) ;;; modify (set_ppTarget t).

Definition store_pfNeedsRelease (b : bool) : M unit :=
  emit (EvStoreNeedsRelease b) ;;; modify (set_pfNeedsRelease b).

(** Modelled from the spec: ComObject::GetComIPFromRCWThrowing is defined
    outside stubhelpers.cpp.  The slow path "performs a full interface query
    against the foreign object, refreshes the wrapper's cache" and hands the
    caller an owned pointer; its failure is "an ordinary catchable error". *)
Definition GetComIPFromRCWThrowing (pSrc pItfMT : Z) : M Z :=
  emit (EvGetComIPFromRCWThrowing pSrc pItfMT) ;;;
  match resolveInterface pSrc pItfMT with
  | inl pUnk =>
      let pRCW := GetRawRCW pSrc in
      (if negb (pRCW =? NULL) then
         modify (fun w =>
           set_cache (<[pRCW := <[cacheSlotFor pRCW pItfMT := mkInterfaceEntry pItfMT pUnk]>
                                   (m_aInterfaceEntries w pRCW)]>
                        (m_aInterfaceEntries w)) w)
       else ret tt) ;;;
      ret pUnk
  | inr hr => throw (HRException hr)
  end.

(** *** GetCOMIPFromRCWHelper *)
Definition GetCOMIPFromRCWHelper (pSrc pMD : Z) : M Z :=
  pRetUnk <- GetComIPFromRCWThrowing pSrc (m_pInterfaceMT pMD) ;;
  store_ppTarget (GetCOMIPFromRCW_GetTarget pRetUnk pMD) ;;;
  GetCOMIPFromRCW_ClearFP ;;;
  ret pRetUnk.

(** *** StubHelpers::GetCOMIPFromRCW

    The early [return pUnk] of the fast path is the [Some] of
    [GetCOMIPFromRCW_fast]; [None] falls through to the helper. *)
Definition GetCOMIPFromRCW_fast (pSrc pMD : Z) : M (option Z) :=
  let pRCW := GetRawRCW pSrc in
  if negb (pRCW =? NULL) then
    pUnk <- GetCOMIPFromRCW_GetIUnknownFromRCWCache pRCW (m_pInterfaceMT pMD) ;;
    if negb (pUnk =? NULL) then
      store_ppTarget (GetCOMIPFromRCW_GetTarget pUnk pMD) ;;;
      w <- get_world ;;
      if negb (out_ppTarget w =? NULL) then
        GetCOMIPFromRCW_ClearFP ;;; ret (Some pUnk)
      else ret None
    else ret None
  else ret None.

Definition GetCOMIPFromRCW (pSrcUNSAFE pMD : Z) : M Z :=
  let pSrc := pSrcUNSAFE in
  store_pfNeedsRelease false ;;;
  hit <- GetCOMIPFromRCW_fast pSrc pMD ;;
  match hit with
  | Some pUnk => ret pUnk
  | None =>
      store_pfNeedsRelease true ;;;
      GetCOMIPFromRCWHelper pSrc pMD
  end.

End ComInterop.

(** ** Reading a trace *)

(** The pointers handed to GetContainingObject, in order. *)
Fixpoint resolved_pointers (evs : list Event) : list Z :=
  match evs with
  | [] => []
  | EvGetContainingObject p :: evs' => p :: resolved_pointers evs'
  | _ :: evs' => resolved_pointers evs'
  end.

Definition is_fatal_error (e : Event) : bool :=
  match e with EvFatalError _ _ => true | _ => false end.

Definition is_method_table_load (e : Event) : bool :=
  match e with EvLoadMethodTable _ _ => true | _ => false end.

Definition is_resolver_call (e : Event) : bool :=
  match e with EvGetComIPFromRCWThrowing _ _ => true | _ => false end.

Definition is_flag_store (e : Event) : bool :=
  match e with EvStoreNeedsRelease _ => true | _ => false end.

(** A store to the ownership flag or a call of the resolver. *)
Definition flag_or_resolver (e : Event) : bool := is_flag_store e || is_resolver_call e.

Definition count_events (f : Event -> bool) (evs : list Event) : nat :=
  length (List.filter f evs).

(** A validation that did not pass. *)
Definition failed_validation `{HeapServices} (e : Event) : bool :=
  match e with
  | EvValidate obj d h s => negb (validates obj d h s)
  | _ => false
  end.

(** The [n] queue entries from slot [i] on, and the entries below the
    live-count, in index order. *)
Definition entries_from (w : World) (i : Z) (n : nat) : list ByrefValidationEntry :=
  map (fun j => qa_data (s_ByrefValidationEntries w) (i + Z.of_nat j)) (seq 0 n).

Definition live_entries (w : World) : list ByrefValidationEntry :=
  entries_from w 0 (Z.to_nat (s_ByrefValidationIndex w)).

(** The object an entry points into was handed to Validate (there is
    nothing to hand over when the heap finds no containing object). *)
Definition entry_validated `{HeapServices} (evs : list Event) (e : ByrefValidationEntry) : Prop :=
  containingObjectAt (pByref e) <> NULL ->
  In (EvValidate (containingObjectAt (pByref e)) true false true) evs.

(** Whether a type descriptor read from a neighbour denotes an object to
    validate (the condition of the inner [if] of ValidateObjectInternal). *)
Definition legal_method_table `{HeapServices} (pMT : Z) : bool :=
  negb (pMT =? NULL) && negb (pMT =? g_pFreeObjectMethodTable).

(** The execution context the fast path compares with: the thread's OLE TLS
    data, created on demand. *)
Definition current_context `{ComServices} (w : World) : Z :=
  match ReservedForOle w with
  | Some d => pCurrentCtx d
  | None => pCurrentCtx SetupOleContext
  end.

(** The world once the thread has OLE TLS data. *)
Definition with_ole_tls `{ComServices} (w : World) : World :=
  match ReservedForOle w with
  | Some _ => w
  | None => set_ole (Some SetupOleContext) w
  end.

(** The wrapper's cache answers for [pItfMT] with [pUnk]: slot [i] is the
    first of the cache whose interface type is [pItfMT], and it holds
    [pUnk]. *)
Definition cache_entry_for (w : World) `{ComServices} (pRCW pItfMT pUnk : Z) : Prop :=
  exists i : nat,
    (i < INTERFACE_ENTRY_CACHE_SIZE)%nat /\
    (forall j : nat, (j < i)%nat -> m_pMT (m_aInterfaceEntries w pRCW j) <> pItfMT) /\
    m_pMT (m_aInterfaceEntries w pRCW i) = pItfMT /\
    m_pUnknown (m_aInterfaceEntries w pRCW i) = pUnk.

(** A fast-path hit: the object has a wrapper, the caller may use it from
    its context, the cache answers with a non-null pointer, and that
    pointer's dispatch slot is non-null. *)
Definition fast_path_hit (w : World) `{ComServices} (pSrc pMD pUnk : Z) : Prop :=
  GetRawRCW pSrc <> NULL /\
  (IsFreeThreaded (GetRawRCW pSrc) = true \/
   current_context w = GetWrapperCtxCookie (GetRawRCW pSrc)) /\
  cache_entry_for w (GetRawRCW pSrc) (m_pInterfaceMT pMD) pUnk /\
  pUnk <> NULL /\
  GetCOMIPFromRCW_GetTarget pUnk pMD <> NULL.

(** ** A concrete host, for examples

    A heap of 0x100-byte objects between 0x1000 and 0x2000.  The object at
    0x1300 is corrupt; the word at offset 0 of the object at 0x1500 flips
    between the free-object marker and NULL from one load to the next. *)
Definition demoHeap (appendOk : string -> string -> bool) : HeapServices := {|
  SIZE_T_MAX := 2 ^ 64 - 1;
  isPointerInManagedHeap := fun p => (0x1000 <=? p) && (p <? 0x2000);
  containingObjectAt := fun p => p / 0x100 * 0x100;
  nextObjectAfter := fun obj => if obj + 0x100 <? 0x2000 then obj + 0x100 else NULL;
  validates := fun obj _ _ _ => negb (obj =? 0x1300);
  methodTableAt := fun n obj =>
    if obj =? 0x1500 then (if Nat.even n then 0x7F00 else NULL) else 0x7000 + obj;
  g_pFreeObjectMethodTable := 0x7F00;
  BYREF_VALIDATION_LIST_MAX_SIZE := 2;
  GetInvokeMethod := fun this => this + 8;
  GetFullyQualifiedNameForClass := fun _ => "Interop.Native";
  GetName := fun pMD => if pMD =? 0x9000 then "Fill" else "Invoke";
  NAMESPACE_SEPARATOR_CHAR := "."%char;
  appendSucceeds := appendOk;
  allocSucceeds := fun n => n <=? 2 ^ 40
|}.

Definition demoCom : ComServices := {|
  TARGET_X86 := false;
  INTERFACE_ENTRY_CACHE_SIZE := 8;
  GetRawRCW := fun pSrc => if pSrc =? 0x3000 then NULL else pSrc + 0x10000;
  GetWrapperCtxCookie := fun _ => 0xC1;
  IsFreeThreaded := fun pRCW => pRCW =? 0x13200;
  m_pInterfaceMT := fun pMD => pMD + 1;
  m_cachedComSlot := fun _ => 3;
  vtableSlot := fun pUnk slot => if pUnk =? 0x5500 then NULL else pUnk + 8 * slot;
  SetupOleContext := mkOleTls 0xC2;
  resolveInterface := fun pSrc pItfMT =>
    if pItfMT =? 0x9101 then inr 0x80004002 else inl (pSrc + pItfMT);
  cacheSlotFor := fun _ _ => 0%nat
|}.

Definition emptyWorld : World := {|
  s_ByrefValidationEntries := mkQuickArray 0 (fun _ => mkEntry NULL NULL);
  s_ByrefValidationIndex := 0;
  concurrentGC := false;
  loads := 0;
  ReservedForOle := Some (mkOleTls 0xC1);
  m_aInterfaceEntries := fun _ _ => mkInterfaceEntry NULL NULL;
  out_ppTarget := 0xDEAD;
  out_pfNeedsRelease := true;
  trace := []
|}.

(** A queue holding the given entries in a buffer of [cap] slots. *)
Definition queueWorld (cap : Z) (es : list ByrefValidationEntry) : World :=
  set_index (Z.of_nat (length es))
    (set_entries
       (mkQuickArray cap (fun i => nth (Z.to_nat i) es (mkEntry NULL NULL)))
       emptyWorld).


(** *** Sample inputs *)

Definition alwaysAppend : string -> string -> bool := fun _ _ => true.
Definition neverAppend : string -> string -> bool := fun _ _ => false.

(** Two entries whose objects (at 0x1400 and 0x1600) are sound. *)
Definition soundEntries : list ByrefValidationEntry :=
  [mkEntry 0x1420 0x9000; mkEntry 0x1610 NULL].

(** The first entry points into the corrupt object at 0x1300. *)
Definition corruptEntries : list ByrefValidationEntry :=
  [mkEntry 0x1310 0x9000; mkEntry 0x1610 NULL].

(** The second entry, recorded for an indirect call, points into it. *)
Definition corruptCalliEntries : list ByrefValidationEntry :=
  [mkEntry 0x1420 0x9000; mkEntry 0x1310 NULL].

(** A queue filled to its capacity of two. *)
Definition fullQueue : World := queueWorld 2 soundEntries.

(** A queue whose live-count and capacity are 2^63. *)
Definition hugeQueue : World :=
  set_index (2 ^ 63)
    (set_entries (mkQuickArray (2 ^ 63) (fun _ => mkEntry 0x1420 0x9000)) emptyWorld).

(** A wrapper (of the object at 0x3100) whose third cache slot answers for
    the interface 0x9201, called from the wrapper's own context. *)
Definition cachedWorld : World :=
  set_cache (fun pRCW i =>
               if (pRCW =? 0x13100) && Nat.eqb i 2
               then mkInterfaceEntry 0x9201 0x5000
               else mkInterfaceEntry NULL NULL)
            emptyWorld.

(** The same thread in another context. *)
Definition otherContextWorld : World := set_ole (Some (mkOleTls 0xC7)) cachedWorld.

Definition demoH : HeapServices := demoHeap alwaysAppend.

(** Sample runs. *)
Definition enqueueOnFull : Outcome unit * World :=
  ValidateByref (H := demoH) 0x1810 0x9000 NULL fullQueue.

Definition validateSound : Outcome unit * World :=
  ValidateObjectInternal (H := demoH) 0x1600 true emptyWorld.

Definition validateNow : Outcome unit * World :=
  ValidateObject (H := demoH) 0x1600 0x9000 NULL emptyWorld.

Definition drainSound : Outcome unit * World :=
  ProcessByrefValidationList (H := demoH) (queueWorld 4 soundEntries).

Definition drainCorrupt : Outcome unit * World :=
  ProcessByrefValidationList (H := demoH) (queueWorld 4 corruptEntries).

Definition drainCorruptCalli : Outcome unit * World :=
  ProcessByrefValidationList (H := demoH) (queueWorld 4 corruptCalliEntries).


Definition callCached : Outcome Z * World :=
  GetCOMIPFromRCW (H := demoCom) 0x3100 0x9200 cachedWorld.

Definition callFailing : Outcome Z * World :=
  GetCOMIPFromRCW (H := demoCom) 0x3100 0x9100 cachedWorld.

(** ** The queue as callers see it *)

(** The live-count lies within the capacity, and both are SIZE_T values. *)
Definition queue_wf `{HeapServices} (w : World) : Prop :=
  0 <= s_ByrefValidationIndex w /\
  s_ByrefValidationIndex w <= qa_size (s_ByrefValidationEntries w) /\
  qa_size (s_ByrefValidationEntries w) <= SIZE_T_MAX.

Definition is_clear_fp (e : Event) : bool :=
  match e with EvClearFP => true | _ => false end.

Definition is_validation (e : Event) : bool :=
  match e with EvValidate _ _ _ _ => true | _ => false end.

Definition is_ret {A} (o : Outcome A) : bool :=
  match o with Ret _ => true | _ => false end.

(** The entry ValidateByref records for a call (pByref, pMD, pThisUNSAFE). *)
Definition recorded_entry `{HeapServices} (c : Z * Z * Z) : ByrefValidationEntry :=
  let '(p, md, this) := c in mkEntry p (ResolveInteropMethod this md).

(** A stub's calls of ValidateByref, one per by-reference argument, in
    order; an exception of one call ends the sequence. *)
Fixpoint ValidateByref_calls `{HeapServices} (calls : list (Z * Z * Z)) : M unit :=
  match calls with
  | [] => ret tt
  | (p, md, this) :: rest =>
      ValidateByref p md this ;;; ValidateByref_calls rest
  end.

(** ** ObjectMarshaler_ConvertToNative

    The QCall picks one of two OleVariant marshalers by the VT_BYREF bit of
    the destination VARIANT's vt field (a 16-bit VARTYPE; VT_BYREF is 0x4000
    in the platform headers).  What the marshalers then do lies outside
    stubhelpers.cpp. *)
Definition VT_BYREF : Z := 0x4000.

Inductive VariantMarshaler : Type :=
| MarshalOleRefVariantForObject
| MarshalOleVariantForObject.

Definition ObjectMarshaler_ConvertToNative (vt : Z) : VariantMarshaler :=
  if negb (Z.land vt VT_BYREF =? 0)
  then MarshalOleRefVariantForObject
  else MarshalOleVariantForObject.

(** *** More sample runs *)

Definition singleQueue : World := queueWorld 1 [mkEntry 0x1420 0x9000].

Definition spareQueue : World := queueWorld 4 [mkEntry 0x1420 0x9000].

Definition enqueueOnEmpty : Outcome unit * World :=
  ValidateByref (H := demoH) 0x1610 0x9000 NULL emptyWorld.

Definition drainAfterEnqueue : Outcome unit * World :=
  ProcessByrefValidationList (H := demoH) (snd enqueueOnEmpty).

Definition enqueueCorrupt : Outcome unit * World :=
  ValidateByref (H := demoH) 0x1310 NULL 0x20 emptyWorld.

Definition drainAfterCorrupt : Outcome unit * World :=
  ProcessByrefValidationList (H := demoH) (snd enqueueCorrupt).

Definition enqueueOnSingle : Outcome unit * World :=
  ValidateByref (H := demoH) 0x1610 NULL NULL singleQueue.

Definition twoCalls : list (Z * Z * Z) := [(0x1420, 0x9000, NULL); (0x1610, NULL, NULL)].

Definition enqueueTwo : Outcome unit * World :=
  ValidateByref_calls (H := demoH) twoCalls emptyWorld.

Definition drainAfterTwo : Outcome unit * World :=
  ProcessByrefValidationList (H := demoH) (snd enqueueTwo).

Definition validateCorruptNow : Outcome unit * World :=
  ValidateObject (H := demoH) 0x1300 0x9000 NULL emptyWorld.

Definition scanCached : Outcome Z * World :=
  GetCOMIPFromRCW_GetIUnknownFromRCWCache (H := demoCom) 0x13100 0x9201 cachedWorld.

Definition callCachedAgain : Outcome Z * World :=
  GetCOMIPFromRCW (H := demoCom) 0x3100 0x9200 (snd callCached).

Definition callWithoutRCW : Outcome Z * World :=
  GetCOMIPFromRCW (H := demoCom) 0x3000 0x9200 emptyWorld.
(** * Properties *)

(** ** Traces *)

Lemma emitted_refl (w : World) : emitted w w [].
Proof. unfold emitted. now rewrite app_nil_r. Qed.

Lemma emitted_trans (w w1 w2 : World) (e1 e2 : list Event) :
  emitted w w1 e1 -> emitted w1 w2 e2 -> emitted w w2 (e1 ++ e2).
Proof. unfold emitted. intros -> ->. now rewrite app_assoc. Qed.

Lemma emitted_inj (w w' : World) (e1 e2 : list Event) :
  emitted w w' e1 -> emitted w w' e2 -> e1 = e2.
Proof. unfold emitted. intros -> E. now apply app_inv_head in E. Qed.

Lemma emitted_one (w : World) (e : Event) : emitted w (set_trace (trace w ++ [e]) w) [e].
Proof. reflexivity. Qed.

Ltac solve_emitted :=
  unfold emitted; cbn; rewrite <- ?app_assoc, ?app_nil_r; cbn; reflexivity.

Ltac unfold_monad :=
  unfold bind, ret, throw, ThrowHR, emit, modify, get_world,
    EEPOLICY_HANDLE_FATAL_ERROR_WITH_MESSAGE, EEPOLICY_HANDLE_FATAL_ERROR in *.

Section EnqueueProperties.
Context `{HeapServices}.

(** *** Enqueue *)

(** C7.  A pointer outside the managed heap makes ValidateByref return at
    once: the world it returns is the world it was given, so the entries, the
    live-count, the capacity and the trace (hence the collections requested)
    are all unchanged. *)
Theorem ValidateByref_outside_heap_noop (pByref pMD pThisUNSAFE : Z) (w : World) :
  isPointerInManagedHeap pByref = false ->
  ValidateByref pByref pMD pThisUNSAFE w = (Ret tt, w).
Proof.
  intros Hout. unfold ValidateByref. rewrite Hout. reflexivity.
Qed.

(** C9.  ValidateByref requests a generation-0 collection exactly when it
    appended an entry and the live-count it reached is above
    BYREF_VALIDATION_LIST_MAX_SIZE; at or below the mark, or without an
    append, it requests nothing. *)
Theorem ValidateByref_high_water_mark (pByref pMD pThisUNSAFE : Z) (w w' : World)
    (o : Outcome unit) :
  ValidateByref pByref pMD pThisUNSAFE w = (o, w') ->
  (isPointerInManagedHeap pByref = true -> o = Ret tt ->
     s_ByrefValidationIndex w' = (s_ByrefValidationIndex w + 1) mod (SIZE_T_MAX + 1) /\
     (BYREF_VALIDATION_LIST_MAX_SIZE < s_ByrefValidationIndex w' ->
      emitted w w' [EvGarbageCollect 0])) /\
  (s_ByrefValidationIndex w' <= BYREF_VALIDATION_LIST_MAX_SIZE -> emitted w w' []) /\
  (isPointerInManagedHeap pByref = false \/ o <> Ret tt -> emitted w w' []).
Proof.
  unfold ValidateByref, CQuickArray_ReSizeThrows, GarbageCollect.
  destruct (isPointerInManagedHeap pByref) eqn:Hheap; cbn [negb].
  2:{ intros [= <- <-]. repeat split; intros; try discriminate; apply emitted_refl. }
  unfold_monad.
  destruct (s_ByrefValidationIndex w >=? qa_size (s_ByrefValidationEntries w));
    [ destruct (ClrSafeInt_multiply _ _) as [n|];
      [ destruct (ClrSafeInt_addition _ _) as [n'|];
        [ destruct (allocSucceeds n') | ] | ] | ];
    cbn;
    try (intros [= <- <-]; repeat split; intros; try discriminate;
         try apply emitted_refl; try (exfalso; intuition congruence); fail).
  all: match goal with
       | |- context [ ?a >? ?b ] => destruct (Z.gtb_spec a b)
       end; cbn; intros [= <- <-]; cbn; repeat split; intros;
       try lia; try solve_emitted; try reflexivity;
       try (exfalso; intuition congruence).
Qed.

(** C6.  When the live-count has reached the capacity C, an in-heap enqueue
    resizes the queue to 2*C+1 slots, keeps every entry stored below C and
    stores the new one at slot C.  If 2*C+1 does not fit a SIZE_T the call
    throws COR_E_OVERFLOW and leaves the world as it was: an exception of
    that call, not a fatal error.  (A resize that finds no memory throws as
    well and changes nothing.) *)
Theorem ValidateByref_full_queue_grows (pByref pMD pThisUNSAFE : Z) (w w' : World)
    (o : Outcome unit) :
  isPointerInManagedHeap pByref = true ->
  s_ByrefValidationIndex w = qa_size (s_ByrefValidationEntries w) ->
  ValidateByref pByref pMD pThisUNSAFE w = (o, w') ->
  let C := qa_size (s_ByrefValidationEntries w) in
  (forall i, 0 <= i < C ->
     qa_data (s_ByrefValidationEntries w') i = qa_data (s_ByrefValidationEntries w) i) /\
  (SIZE_T_MAX < 2 * C + 1 ->
     o = Throw (HRException COR_E_OVERFLOW) /\ w' = w) /\
  (2 * C + 1 <= SIZE_T_MAX -> allocSucceeds (2 * C + 1) = true ->
     o = Ret tt /\
     qa_size (s_ByrefValidationEntries w') = 2 * C + 1 /\
     qa_data (s_ByrefValidationEntries w') C =
       mkEntry pByref (ResolveInteropMethod pThisUNSAFE pMD)) /\
  (2 * C + 1 <= SIZE_T_MAX -> allocSucceeds (2 * C + 1) = false ->
     o = Throw (HRException E_OUTOFMEMORY) /\ w' = w).
Proof.
  intros Hheap Hfull. unfold ValidateByref, CQuickArray_ReSizeThrows, GarbageCollect.
  rewrite Hheap; cbn [negb]. unfold_monad. rewrite Hfull.
  set (C := qa_size (s_ByrefValidationEntries w)).
  replace (C >=? C) with true by (symmetry; apply Z.geb_le; lia).
  unfold ClrSafeInt_multiply, ClrSafeInt_addition.
  destruct (Z.leb_spec (C * 2) SIZE_T_MAX) as [Hm|Hm].
  2:{ intros [= <- <-]. repeat split; intros; try lia; reflexivity. }
  destruct (Z.leb_spec (C * 2 + 1) SIZE_T_MAX) as [Ha|Ha].
  2:{ intros [= <- <-]. repeat split; intros; try lia; reflexivity. }
  replace (C * 2 + 1) with (2 * C + 1) by lia.
  destruct (allocSucceeds (2 * C + 1)) eqn:Halloc; cbn.
  2:{ intros [= <- <-]. repeat split; intros; try lia; try discriminate; reflexivity. }
  match goal with
  | |- context [ ?a >? ?b ] => destruct (a >? b)
  end; cbn; intros [= <- <-]; cbn; rewrite ?Hfull; fold C.
  all: repeat split; intros; try lia; try discriminate;
       try (rewrite fn_lookup_insert_ne by lia; reflexivity);
       try (apply fn_lookup_insert).
Qed.

End EnqueueProperties.

(** Closes [emitted w w' ?evs] once [w'] is explicit, choosing the events. *)
Ltac find_emitted :=
  unfold emitted; cbn;
  first [ symmetry; apply app_nil_r
        | rewrite <- ?app_assoc; cbn; reflexivity ].

Section ValidatorProperties.
Context `{HeapServices}.

(** *** The diagnostic *)

Lemma SString_Append_run (s piece : string) (w : World) :
  SString_Append s piece w =
    (if appendSucceeds s piece then Ret (s +:+ piece)
     else Throw (HRException E_OUTOFMEMORY), w).
Proof. unfold SString_Append. now destruct (appendSucceeds s piece). Qed.

(** Formatting touches no process state: it yields a message or throws. *)
Lemma FormatValidationMessage_run (pMD : Z) (s : string) :
  (exists msg, forall w, FormatValidationMessage pMD s w = (Ret msg, w)) \/
  (forall w, FormatValidationMessage pMD s w = (Throw (HRException E_OUTOFMEMORY), w)).
Proof.
  unfold FormatValidationMessage, bind.
  repeat first
    [ setoid_rewrite SString_Append_run
    | match goal with
      | |- context [ appendSucceeds ?a ?b ] =>
          lazymatch goal with
          | |- context [ if appendSucceeds a b then _ else _ ] =>
              destruct (appendSucceeds a b)
          end
      | |- context [ if ?c =? NULL then _ else _ ] => destruct (c =? NULL)
      end ];
    solve [ left; eexists; intros; reflexivity | right; intros; reflexivity ].
Qed.

(** *** ValidateObjectInternal *)

(** C5.  With neighbour validation requested, the object itself passing (or
    absent) and a next object present, ValidateObjectInternal loads the next
    object's method table pointer exactly once, and calls Validate on the
    next object if and only if the value of that one load is neither NULL
    nor g_pFreeObjectMethodTable. *)
Theorem ValidateObjectInternal_next_object_read_once (pObjUNSAFE : Z) (w w' : World)
    (o : Outcome unit) :
  pObjUNSAFE = NULL \/ validates pObjUNSAFE true false true = true ->
  nextObjectAfter pObjUNSAFE <> NULL ->
  ValidateObjectInternal pObjUNSAFE true w = (o, w') ->
  let nextObj := nextObjectAfter pObjUNSAFE in
  let pMT := methodTableAt (loads w) nextObj in
  exists evs,
    emitted w w' evs /\
    List.filter is_method_table_load evs = [EvLoadMethodTable nextObj pMT] /\
    loads w' = S (loads w) /\
    (In (EvValidate nextObj true false false) evs <->
     pMT <> NULL /\ pMT <> g_pFreeObjectMethodTable).
Proof.
  intros Hobj Hnext. cbn zeta.
  unfold ValidateObjectInternal, Object_Validate, NextObj, VolatileLoad_MethodTablePtr.
  unfold_monad.
  destruct (Z.eqb_spec (nextObjectAfter pObjUNSAFE) NULL) as [|_]; [contradiction|].
  destruct (Z.eqb_spec pObjUNSAFE NULL) as [Hnull|Hnn]; cbn.
  - destruct (Z.eqb_spec (methodTableAt (loads w) (nextObjectAfter pObjUNSAFE)) NULL) as [E0|E0];
      destruct (Z.eqb_spec (methodTableAt (loads w) (nextObjectAfter pObjUNSAFE))
                  g_pFreeObjectMethodTable) as [E1|E1]; cbn;
      try destruct (validates (nextObjectAfter pObjUNSAFE) true false false); cbn;
      intros [= <- <-]; eexists; (split; [find_emitted|]); cbn;
      (repeat split; try reflexivity; try tauto; try (intros; intuition congruence)).
  - destruct Hobj as [?|Hv]; [contradiction|]. rewrite Hv; cbn.
    destruct (Z.eqb_spec (methodTableAt (loads w) (nextObjectAfter pObjUNSAFE)) NULL) as [E0|E0];
      destruct (Z.eqb_spec (methodTableAt (loads w) (nextObjectAfter pObjUNSAFE))
                  g_pFreeObjectMethodTable) as [E1|E1]; cbn;
      try destruct (validates (nextObjectAfter pObjUNSAFE) true false false); cbn;
      intros [= <- <-]; eexists; (split; [find_emitted|]); cbn;
      (repeat split; try reflexivity; try tauto; try (intros; intuition congruence)).
Qed.

(** *** ValidateObject *)

(** C8.  ValidateObject passes the negation of IsConcurrentGCInProgress as
    fValidateNextObj: with the object itself passing (or absent), the heap is
    asked for the next object if and only if no concurrent collection is in
    progress.  During one, the call returns having looked at the object
    alone; otherwise a next object whose method table reads as legal gets
    validated. *)
Theorem ValidateObject_neighbor_iff_no_concurrent_gc (pObjUNSAFE pMD pThisUNSAFE : Z)
    (w w' : World) (o : Outcome unit) :
  pObjUNSAFE = NULL \/ validates pObjUNSAFE true false true = true ->
  ValidateObject pObjUNSAFE pMD pThisUNSAFE w = (o, w') ->
  exists evs,
    emitted w w' evs /\
    (In (EvNextObj pObjUNSAFE) evs <-> concurrentGC w = false) /\
    (concurrentGC w = true ->
       o = Ret tt /\
       evs = if pObjUNSAFE =? NULL then [] else [EvValidate pObjUNSAFE true false true]) /\
    (concurrentGC w = false ->
       nextObjectAfter pObjUNSAFE <> NULL ->
       legal_method_table (methodTableAt (loads w) (nextObjectAfter pObjUNSAFE)) = true ->
       In (EvValidate (nextObjectAfter pObjUNSAFE) true false false) evs).
Proof.
  intros Hobj.
  unfold ValidateObject, try_catch_unreachable, ValidateObjectInternal, Object_Validate,
    NextObj, VolatileLoad_MethodTablePtr, legal_method_table.
  unfold_monad.
  assert (Hprim : (if negb (pObjUNSAFE =? NULL)
                   then validates pObjUNSAFE true false true else true) = true).
  { destruct (Z.eqb_spec pObjUNSAFE NULL); cbn; [reflexivity|]. now destruct Hobj. }
  destruct (concurrentGC w) eqn:Hgc; cbn.
  - destruct (pObjUNSAFE =? NULL); cbn in *; [|rewrite Hprim; cbn];
      intros [= <- <-]; eexists; (split; [find_emitted|]); cbn;
      repeat split; intros; try discriminate; try tauto;
      try solve [exfalso; intuition discriminate].
  - destruct (FormatValidationMessage_run (ResolveInteropMethod pThisUNSAFE pMD) EmptyString)
      as [[msg Hfmt]|Hfmt].
    all: destruct (pObjUNSAFE =? NULL); cbn in *; [|rewrite Hprim; cbn].
    all: destruct (Z.eqb_spec (nextObjectAfter pObjUNSAFE) NULL) as [E|E]; cbn.
    all: try (destruct (negb (methodTableAt (loads w) (nextObjectAfter pObjUNSAFE) =? NULL)
                        && negb (methodTableAt (loads w) (nextObjectAfter pObjUNSAFE)
                                 =? g_pFreeObjectMethodTable)) eqn:Hlegal; cbn).
    all: try (destruct (validates (nextObjectAfter pObjUNSAFE) true false false); cbn).
    all: rewrite ?Hfmt; cbn.
    all: intros [= <- <-]; eexists; (split; [find_emitted|]); cbn.
    all: repeat split; intros; try discriminate; try tauto;
      try solve [exfalso; intuition discriminate]; try solve [cbn; auto 10].
Qed.

End ValidatorProperties.

Section DrainProperties.
Context `{HeapServices}.

Lemma resolved_pointers_app (a b : list Event) :
  resolved_pointers (a ++ b) = resolved_pointers a ++ resolved_pointers b.
Proof.
  induction a as [|e a IH]; [reflexivity|].
  destruct e; cbn; rewrite IH; reflexivity.
Qed.

Lemma entries_from_S (w : World) (i : Z) (n : nat) :
  entries_from w i (S n) =
    qa_data (s_ByrefValidationEntries w) i :: entries_from w (i + 1) n.
Proof.
  unfold entries_from. cbn [seq map]. rewrite Z.add_0_r. f_equal.
  rewrite <- seq_shift, map_map. apply map_ext. intros j. f_equal. lia.
Qed.

Lemma entries_from_frame (w w1 : World) (i : Z) (n : nat) :
  s_ByrefValidationEntries w1 = s_ByrefValidationEntries w ->
  entries_from w1 i n = entries_from w i n.
Proof. unfold entries_from. now intros ->. Qed.

(** One iteration: the heap is asked once for the containing object, first;
    the queue is not touched; nothing fatal happens; the iteration throws
    exactly when one of its validations fails, and that validation is then
    its last action and the only one that failed. *)
Lemma drain_iteration (e : ByrefValidationEntry) (w w1 : World) (o : Outcome unit) :
  (pObjUNSAFE <- GetContainingObject (pByref e) ;;
   ValidateObjectInternal pObjUNSAFE true) w = (o, w1) ->
  s_ByrefValidationEntries w1 = s_ByrefValidationEntries w /\
  s_ByrefValidationIndex w1 = s_ByrefValidationIndex w /\
  exists evs,
    emitted w w1 evs /\
    List.filter is_fatal_error evs = [] /\
    resolved_pointers evs = [pByref e] /\
    ((o = Ret tt /\ existsb failed_validation evs = false /\ entry_validated evs e) \/
     ((exists ex, o = Throw ex) /\ existsb failed_validation evs = true /\
      head evs = Some (EvGetContainingObject (pByref e)) /\
      existsb failed_validation (removelast evs) = false /\
      exists x d h s,
        last evs = Some (EvValidate x d h s) /\ validates x d h s = false /\
        (x = containingObjectAt (pByref e) \/
         x = nextObjectAfter (containingObjectAt (pByref e))))).
Proof.
  unfold GetContainingObject, ValidateObjectInternal, Object_Validate, NextObj,
    VolatileLoad_MethodTablePtr, entry_validated.
  unfold_monad. cbn.
  destruct (Z.eqb_spec (containingObjectAt (pByref e)) NULL) as [E|E]; cbn.
  2: destruct (validates (containingObjectAt (pByref e)) true false true) eqn:V1; cbn.
  all: try (destruct (nextObjectAfter (containingObjectAt (pByref e)) =? NULL); cbn).
  all: try (match goal with
            | |- context [ negb (?a =? NULL) && negb (?a =? ?b) ] =>
                destruct (negb (a =? NULL) && negb (a =? b)); cbn
            end).
  all: try (match goal with
            | |- context [ if validates ?a true false false then _ else _ ] =>
                destruct (validates a true false false) eqn:V2; cbn
            end).
  all: intros [= <- <-]; cbn; (split; [reflexivity|]); (split; [reflexivity|]).
  all: eexists; (split; [find_emitted|]); cbn; rewrite ?V1, ?V2; cbn.
  all: (split; [reflexivity|]); (split; [reflexivity|]).
  all: first [ left; repeat split; try reflexivity; intros; try contradiction; auto 10; fail
             | right; split; [eexists; reflexivity|]; split; [reflexivity|];
               split; [reflexivity|]; split; [reflexivity|];
               do 4 eexists; split; [reflexivity|]; split; [assumption|];
               first [left; reflexivity | right; reflexivity] ].
Qed.

(** The loop: it never ends the process by itself and leaves the queue
    alone.  Either every validation passed and the [n] entries from slot [i]
    were resolved in order and validated, or it stopped with an exception at
    the first entry with a failing validation, which is then the value of
    the local [entry]. *)
Lemma drain_loop_run (n : nat) :
  forall (i : Z) (entry entry' : ByrefValidationEntry) (w w' : World) (o : Outcome unit),
  ProcessByrefValidationList_loop n i entry w = (o, entry', w') ->
  s_ByrefValidationEntries w' = s_ByrefValidationEntries w /\
  s_ByrefValidationIndex w' = s_ByrefValidationIndex w /\
  exists evs,
    emitted w w' evs /\
    List.filter is_fatal_error evs = [] /\
    ((o = Ret tt /\ existsb failed_validation evs = false /\
      resolved_pointers evs = map pByref (entries_from w i n) /\
      Forall (entry_validated evs) (entries_from w i n)) \/
     (exists (ex : Exception) (k : nat) (evs_before evs_entry : list Event),
        o = Throw ex /\ (k < n)%nat /\
        entry' = qa_data (s_ByrefValidationEntries w) (i + Z.of_nat k) /\
        evs = evs_before ++ evs_entry /\
        existsb failed_validation evs_before = false /\
        resolved_pointers evs_before = map pByref (entries_from w i k) /\
        existsb failed_validation evs_entry = true /\
        resolved_pointers evs_entry = [pByref entry'] /\
        Forall (entry_validated evs_before) (entries_from w i k) /\
        head evs_entry = Some (EvGetContainingObject (pByref entry')) /\
        existsb failed_validation (removelast evs_entry) = false /\
        exists x d h s,
          last evs_entry = Some (EvValidate x d h s) /\ validates x d h s = false /\
          (x = containingObjectAt (pByref entry') \/
           x = nextObjectAfter (containingObjectAt (pByref entry'))))).
Proof.
  induction n as [|n IH]; intros i entry entry' w w' o.
  - cbn. intros [= <- <- <-]. repeat split.
    exists []. split; [apply emitted_refl|]. split; [reflexivity|].
    left. repeat split. constructor.
  - cbn [ProcessByrefValidationList_loop].
    set (e := qa_data (s_ByrefValidationEntries w) i).
    destruct ((pObjUNSAFE <- GetContainingObject (pByref e) ;;
               ValidateObjectInternal pObjUNSAFE true) w) as [o1 w1] eqn:Hbody.
    apply drain_iteration in Hbody
      as (Hq1 & Hi1 & evs1 & Hem1 & Hf1 & Hr1 &
          [(-> & Hv1 & Hval1)|([ex ->] & Hv1 & Htail1)]).
    + intros Hloop. apply IH in Hloop
        as (Hq2 & Hi2 & evs2 & Hem2 & Hf2 & Hcases).
      split; [congruence|]. split; [congruence|].
      exists (evs1 ++ evs2). split; [eapply emitted_trans; eassumption|].
      split; [rewrite List.filter_app, Hf1, Hf2; reflexivity|].
      rewrite entries_from_S. fold e.
      destruct Hcases as [(-> & Hv2 & Hr2 & Hval2)
                         |(ex & k & ea & eb & -> & Hk & -> & -> & Hva & Hra & Hvb & Hrb &
                           Hvala & Htail)];
        rewrite (entries_from_frame w w1) in * by assumption.
      * left. split; [reflexivity|]. split; [rewrite existsb_app, Hv1, Hv2; reflexivity|].
        split; [rewrite resolved_pointers_app, Hr1, Hr2; reflexivity|].
        constructor.
        -- intros Hnn. apply in_or_app. left. now apply Hval1.
        -- eapply Forall_impl; [exact Hval2|].
           intros x Hx Hnn. apply in_or_app. right. now apply Hx.
      * right. exists ex, (S k), (evs1 ++ ea), eb.
        assert (Hslot : i + 1 + Z.of_nat k = i + Z.of_nat (S k)) by lia.
        split; [reflexivity|]. split; [lia|].
        split; [rewrite Hq1; f_equal; exact Hslot|].
        split; [apply app_assoc|].
        split; [rewrite existsb_app, Hv1, Hva; reflexivity|].
        split; [rewrite resolved_pointers_app, Hr1, Hra, (entries_from_S w i k);
                reflexivity|].
        split; [exact Hvb|]. split; [exact Hrb|]. split; [|exact Htail].
        rewrite (entries_from_S w i k). fold e. constructor.
        -- intros Hnn. apply in_or_app. left. now apply Hval1.
        -- eapply Forall_impl; [exact Hvala|].
           intros x Hx Hnn. apply in_or_app. right. now apply Hx.
    + intros [= <- <- <-]. split; [assumption|]. split; [assumption|].
      exists evs1. split; [assumption|]. split; [assumption|].
      right. exists ex, 0%nat, [], evs1. split; [reflexivity|]. split; [lia|].
      split; [unfold e; f_equal; lia|]. split; [reflexivity|].
      split; [reflexivity|]. split; [reflexivity|]. split; [assumption|].
      split; [assumption|]. split; [apply Forall_nil_2|exact Htail1].
Qed.

Lemma string_app_assoc (a b c : string) : (a +:+ b) +:+ c = a +:+ (b +:+ c).
Proof.
  induction a as [|x a IH]; [reflexivity|].
  change (String x ((a +:+ b) +:+ c) = String x (a +:+ (b +:+ c))).
  now rewrite IH.
Qed.

(** The text of the diagnostic, when formatting succeeds. *)
Lemma FormatValidationMessage_message (pMD : Z) (w w' : World) (msg : string) :
  FormatValidationMessage pMD EmptyString w = (Ret msg, w') ->
  (pMD = NULL ->
   msg = "Detected managed heap corruption, likely culprit is interop call through CALLI.") /\
  (pMD <> NULL ->
   msg = "Detected managed heap corruption, likely culprit is interop call through method '"
         +:+ GetFullyQualifiedNameForClass pMD
         +:+ String NAMESPACE_SEPARATOR_CHAR EmptyString
         +:+ GetName pMD +:+ "'.").
Proof.
  unfold FormatValidationMessage, bind.
  repeat (rewrite SString_Append_run;
          match goal with
          | |- context [ if appendSucceeds ?a ?b then _ else _ ] =>
              destruct (appendSucceeds a b); [|discriminate]
          end).
  destruct (Z.eqb_spec pMD NULL) as [E|E].
  - rewrite SString_Append_run.
    match goal with
    | |- context [ if appendSucceeds ?a ?b then _ else _ ] =>
        destruct (appendSucceeds a b); [|discriminate]
    end.
    intros [= <- _]. split; [reflexivity|contradiction].
  - repeat (rewrite SString_Append_run;
            match goal with
            | |- context [ if appendSucceeds ?a ?b then _ else _ ] =>
                destruct (appendSucceeds a b); [|discriminate]
            end).
    intros [= <- _]. split; [contradiction|]. intros _.
    rewrite !string_app_assoc. reflexivity.
Qed.

Lemma entries_from_snoc (w : World) (i : Z) (k : nat) :
  entries_from w i (S k) =
    entries_from w i k ++ [qa_data (s_ByrefValidationEntries w) (i + Z.of_nat k)].
Proof. unfold entries_from. now rewrite seq_S, map_app. Qed.

(** What a run of ProcessByrefValidationList amounts to.  Either every
    validation passed: all live entries were resolved in index order and
    validated, nothing fatal happened, and the live-count is reset.  Or the
    entries below some [k] passed and a validation for entry [k] failed:
    that validation is the last thing done for entry [k] and the only one
    that failed; the run then ends in one fatal error, raised next and last,
    whose message is the formatted diagnostic for that entry's pMD if
    formatting succeeded and absent if not; the live-count is as it was. *)
Lemma drain_run (w w' : World) (o : Outcome unit) :
  ProcessByrefValidationList w = (o, w') ->
  exists evs,
    emitted w w' evs /\
    ((o = Ret tt /\ existsb failed_validation evs = false /\
      s_ByrefValidationIndex w' = 0 /\
      List.filter is_fatal_error evs = [] /\
      resolved_pointers evs = map pByref (live_entries w) /\
      Forall (entry_validated evs) (live_entries w)) \/
     (o = Fatal /\
      s_ByrefValidationIndex w' = s_ByrefValidationIndex w /\
      exists (k : nat) (evs_before evs_entry : list Event),
        (k < Z.to_nat (s_ByrefValidationIndex w))%nat /\
        existsb failed_validation evs_before = false /\
        resolved_pointers evs_before = map pByref (entries_from w 0 k) /\
        existsb failed_validation evs_entry = true /\
        resolved_pointers evs_entry
          = [pByref (qa_data (s_ByrefValidationEntries w) (Z.of_nat k))] /\
        List.filter is_fatal_error (evs_before ++ evs_entry) = [] /\
        evs = evs_before ++ evs_entry ++
          [EvFatalError COR_E_EXECUTIONENGINE
             match fst (FormatValidationMessage
                          (pMD (qa_data (s_ByrefValidationEntries w) (Z.of_nat k)))
                          EmptyString w) with
             | Ret msg => Some msg
             | _ => None
             end] /\
        Forall (entry_validated evs_before) (entries_from w 0 k) /\
        head evs_entry
          = Some (EvGetContainingObject
                    (pByref (qa_data (s_ByrefValidationEntries w) (Z.of_nat k)))) /\
        existsb failed_validation (removelast evs_entry) = false /\
        exists x d h s,
          last evs_entry = Some (EvValidate x d h s) /\ validates x d h s = false /\
          (x = containingObjectAt (pByref (qa_data (s_ByrefValidationEntries w) (Z.of_nat k))) \/
           x = nextObjectAfter (containingObjectAt (pByref (qa_data (s_ByrefValidationEntries w) (Z.of_nat k))))))).
Proof.
  unfold ProcessByrefValidationList, try_catch_unreachable_with, try_catch_unreachable.
  unfold bind at 1.
  destruct (ProcessByrefValidationList_loop _ 0 _ w) as [[o1 e1] w1] eqn:Hloop.
  apply drain_loop_run in Hloop
    as (Hq & Hi & evs & Hem & Hf &
        [(-> & Hv & Hr & Hval)
        |(ex & k & ea & eb & -> & Hk & -> & -> & Hva & Hra & Hvb & Hrb & Hvala & Htail)]).
  - unfold modify. intros [= <- <-]. exists evs. split; [exact Hem|]. left.
    repeat split; assumption.
  - cbn [Z.add] in *.
    destruct (FormatValidationMessage_run
                (pMD (qa_data (s_ByrefValidationEntries w) (Z.of_nat k))) EmptyString)
      as [[msg Hfmt]|Hfmt]; unfold bind; rewrite !Hfmt; cbn;
      unfold EEPOLICY_HANDLE_FATAL_ERROR_WITH_MESSAGE, EEPOLICY_HANDLE_FATAL_ERROR;
      intros [= <- <-].
    all: eexists; split;
      [eapply emitted_trans; [exact Hem|apply emitted_one]|].
    all: right; split; [reflexivity|]; split; [exact Hi|].
    all: exists k, ea, eb; repeat (split; [assumption|]).
    all: split; [rewrite Hfmt; symmetry; apply app_assoc|].
    all: split; [exact Hvala|exact Htail].
Qed.

(** The diagnostic in closed form: formatting into an empty string yields
    this text, or throws because an append was refused. *)
Lemma FormatValidationMessage_closed (pMD : Z) (w : World) :
  FormatValidationMessage pMD EmptyString w
  = (Ret ("Detected managed heap corruption, likely culprit is interop call through " +:+
          (if pMD =? NULL then "CALLI."
           else "method '" +:+ GetFullyQualifiedNameForClass pMD
                +:+ String NAMESPACE_SEPARATOR_CHAR EmptyString
                +:+ GetName pMD +:+ "'.")), w) \/
  (FormatValidationMessage pMD EmptyString w = (Throw (HRException E_OUTOFMEMORY), w) /\
   exists a b, appendSucceeds a b = false).
Proof.
  unfold FormatValidationMessage, bind.
  destruct (Z.eqb_spec pMD NULL) as [E|E].
  all: repeat (rewrite SString_Append_run;
               match goal with
               | |- context [ if appendSucceeds ?a ?b then _ else _ ] =>
                   destruct (appendSucceeds a b) eqn:?
               end).
  all: first [ right; split; [reflexivity|]; eauto
             | left; f_equal; f_equal; rewrite ?string_app_assoc; reflexivity ].
Qed.

(** *** ProcessByrefValidationList *)

(** C1 (amended).  If every validation passes, ProcessByrefValidationList
    resolves the containing object of every live entry, in index order,
    validates each, returns, and leaves the live-count at 0.  If a
    validation fails, the run ends in a fatal error at the first failing
    entry [k]: the entries before [k] were resolved in order and validated
    without a failure; entry [k] was resolved and the failing validation,
    the only one that failed, is the last thing done for it; the fatal
    error follows at once and ends the trace, so no later entry is visited;
    and the live-count is not reset. *)
Theorem ProcessByrefValidationList_visits_all_or_terminates (w w' : World)
    (o : Outcome unit) (evs : list Event) :
  ProcessByrefValidationList w = (o, w') ->
  emitted w w' evs ->
  (existsb failed_validation evs = false ->
     o = Ret tt /\
     s_ByrefValidationIndex w' = 0 /\
     resolved_pointers evs = map pByref (live_entries w) /\
     Forall (entry_validated evs) (live_entries w)) /\
  (existsb failed_validation evs = true ->
     o = Fatal /\
     s_ByrefValidationIndex w' = s_ByrefValidationIndex w /\
     exists (k : nat) (evs_before evs_entry : list Event) (msg : option string),
       (k < Z.to_nat (s_ByrefValidationIndex w))%nat /\
       evs = evs_before ++ evs_entry ++ [EvFatalError COR_E_EXECUTIONENGINE msg] /\
       resolved_pointers evs_before = map pByref (entries_from w 0 k) /\
       Forall (entry_validated evs_before) (entries_from w 0 k) /\
       existsb failed_validation evs_before = false /\
       head evs_entry
         = Some (EvGetContainingObject
                   (pByref (qa_data (s_ByrefValidationEntries w) (Z.of_nat k)))) /\
       resolved_pointers evs_entry
         = [pByref (qa_data (s_ByrefValidationEntries w) (Z.of_nat k))] /\
       existsb failed_validation (removelast evs_entry) = false /\
       (exists x d h s,
          last evs_entry = Some (EvValidate x d h s) /\ validates x d h s = false /\
          (x = containingObjectAt (pByref (qa_data (s_ByrefValidationEntries w) (Z.of_nat k))) \/
           x = nextObjectAfter (containingObjectAt (pByref (qa_data (s_ByrefValidationEntries w) (Z.of_nat k)))))) /\
       resolved_pointers evs = map pByref (entries_from w 0 (S k))).
Proof.
  intros Hrun Hem. apply drain_run in Hrun as (evs' & Hem' & Hcases).
  rewrite (emitted_inj _ _ _ _ Hem Hem').
  destruct Hcases as [(-> & Hv & Hi & _ & Hr & Hval)
                     |(-> & Hi & k & ea & eb & Hk & Hva & Hra & Hvb & Hrb & _ & -> &
                       Hvala & Hhead & Hrl & Hlast)].
  - split; [intros _; repeat split; assumption|]. rewrite Hv. discriminate.
  - split.
    + rewrite !existsb_app, Hvb, orb_true_r. cbn. discriminate.
    + intros _. split; [reflexivity|]. split; [exact Hi|].
      exists k, ea, eb. eexists. split; [exact Hk|]. split; [reflexivity|].
      repeat (split; [assumption|]).
      rewrite !resolved_pointers_app, Hra, Hrb, entries_from_snoc, map_app.
      reflexivity.
Qed.

(** C2.  If a validation performed by ProcessByrefValidationList fails, the
    run ends the process, never throws, and raises exactly one fatal error
    (COR_E_EXECUTIONENGINE), as its last action.  The entries before some
    entry [k] passed; entry [k] was resolved and a validation for it failed,
    immediately before the fatal error.  The error carries the diagnostic
    for that entry's pMD: the fixed prefix followed by "CALLI." when the pMD
    is NULL and by the quoted class and method name otherwise.  It carries
    that text whenever no append is refused; only when formatting throws,
    which takes a refused append, is the error raised without a message. *)
Theorem ProcessByrefValidationList_failure_is_fatal (w w' : World) (o : Outcome unit)
    (evs : list Event) :
  ProcessByrefValidationList w = (o, w') ->
  emitted w w' evs ->
  existsb failed_validation evs = true ->
  o = Fatal /\
  count_events is_fatal_error evs = 1%nat /\
  exists (k : nat) (evs_before evs_entry : list Event) (msg : option string),
    (k < Z.to_nat (s_ByrefValidationIndex w))%nat /\
    evs = evs_before ++ evs_entry ++ [EvFatalError COR_E_EXECUTIONENGINE msg] /\
    existsb failed_validation evs_before = false /\
    resolved_pointers evs_before = map pByref (entries_from w 0 k) /\
    existsb failed_validation evs_entry = true /\
    resolved_pointers evs_entry
      = [pByref (qa_data (s_ByrefValidationEntries w) (Z.of_nat k))] /\
    head evs_entry
      = Some (EvGetContainingObject
                (pByref (qa_data (s_ByrefValidationEntries w) (Z.of_nat k)))) /\
    (exists x d h s,
       last evs_entry = Some (EvValidate x d h s) /\ validates x d h s = false /\
       (x = containingObjectAt (pByref (qa_data (s_ByrefValidationEntries w) (Z.of_nat k))) \/
        x = nextObjectAfter (containingObjectAt (pByref (qa_data (s_ByrefValidationEntries w) (Z.of_nat k)))))) /\
    let pMD := pMD (qa_data (s_ByrefValidationEntries w) (Z.of_nat k)) in
    let text :=
      "Detected managed heap corruption, likely culprit is interop call through " +:+
      (if pMD =? NULL then "CALLI."
       else "method '" +:+ GetFullyQualifiedNameForClass pMD
            +:+ String NAMESPACE_SEPARATOR_CHAR EmptyString
            +:+ GetName pMD +:+ "'.") in
    (msg = Some text \/ (msg = None /\ exists a b, appendSucceeds a b = false)) /\
    ((forall a b, appendSucceeds a b = true) -> msg = Some text) /\
    match fst (FormatValidationMessage pMD EmptyString w) with
    | Ret formatted => msg = Some formatted
    | _ => msg = None
    end /\
    (pMD = NULL ->
     text = "Detected managed heap corruption, likely culprit is interop call through CALLI.") /\
    (pMD <> NULL ->
     text = "Detected managed heap corruption, likely culprit is interop call through method '"
            +:+ GetFullyQualifiedNameForClass pMD
            +:+ String NAMESPACE_SEPARATOR_CHAR EmptyString
            +:+ GetName pMD +:+ "'.").
Proof.
  intros Hrun Hem Hfail. apply drain_run in Hrun as (evs' & Hem' & Hcases).
  rewrite (emitted_inj _ _ _ _ Hem Hem') in *.
  destruct Hcases as [(_ & Hv & _)
                     |(-> & _ & k & ea & eb & Hk & Hva & Hra & Hvb & Hrb & Hf0 & -> &
                       _ & Hhead & _ & Hlast)];
    [congruence|].
  split; [reflexivity|].
  split; [unfold count_events; rewrite app_assoc, List.filter_app, Hf0; reflexivity|].
  exists k, ea, eb. eexists. split; [exact Hk|]. split; [reflexivity|].
  repeat (split; [assumption|]). cbn zeta.
  set (md := pMD (qa_data (s_ByrefValidationEntries w) (Z.of_nat k))).
  destruct (FormatValidationMessage_closed md w) as [Hfmt|[Hfmt (a & b & Hno)]];
    rewrite Hfmt; cbn [fst].
  - split; [now left|]. split; [reflexivity|]. split; [reflexivity|].
    split.
    + intros E. destruct (Z.eqb_spec md NULL); [reflexivity|contradiction].
    + intros E. destruct (Z.eqb_spec md NULL); [contradiction|reflexivity].
  - split; [right; split; [reflexivity|]; eauto|].
    split; [intros Hall; rewrite (Hall a b) in Hno; discriminate|].
    split; [reflexivity|].
    split.
    + intros E. destruct (Z.eqb_spec md NULL); [reflexivity|contradiction].
    + intros E. destruct (Z.eqb_spec md NULL); [contradiction|reflexivity].
Qed.

End DrainProperties.

Section ComInteropProperties.
Context `{ComServices}.

Lemma set_trace_nil (w : World) : set_trace (trace w ++ []) w = w.
Proof. destruct w; unfold set_trace; cbn. now rewrite app_nil_r. Qed.

Lemma set_trace_app (w : World) (a b : list Event) :
  set_trace (trace (set_trace (trace w ++ a) w) ++ b) (set_trace (trace w ++ a) w)
  = set_trace (trace w ++ (a ++ b)) w.
Proof. unfold set_trace; cbn. now rewrite app_assoc. Qed.

(** *** The cache scan *)

(** The loop reads slots [i], [i+1], ... of the wrapper's cache and stops at
    the first whose interface type matches, returning what that slot holds;
    without a match among the [n] slots it returns NULL.  Nothing but the
    trace changes. *)
Lemma cache_loop_run (pRCW pItfMT : Z) (n : nat) :
  forall (i : nat) (w : World),
  exists (evs : list Event) (r : Z),
    GetIUnknownFromRCWCache_loop pRCW pItfMT n i w = (Ret r, set_trace (trace w ++ evs) w) /\
    Forall (fun e => exists j, e = EvCacheRead pRCW j) evs /\
    ((0 < n)%nat -> In (EvCacheRead pRCW i) evs) /\
    ((exists k : nat,
        (k < n)%nat /\
        (forall j : nat, (j < k)%nat -> m_pMT (m_aInterfaceEntries w pRCW (i + j)) <> pItfMT) /\
        m_pMT (m_aInterfaceEntries w pRCW (i + k)) = pItfMT /\
        r = m_pUnknown (m_aInterfaceEntries w pRCW (i + k))) \/
     (r = NULL /\
      forall j : nat, (j < n)%nat -> m_pMT (m_aInterfaceEntries w pRCW (i + j)) <> pItfMT)).
Proof.
  induction n as [|n IH]; intros i w.
  - exists [], NULL. cbn. unfold ret. rewrite set_trace_nil.
    repeat split; [constructor|lia|]. right. split; [reflexivity|]. intros j Hj; lia.
  - cbn [GetIUnknownFromRCWCache_loop]. unfold read_InterfaceEntry.
    unfold_monad. cbn.
    destruct (Z.eqb_spec (m_pMT (m_aInterfaceEntries w pRCW i)) pItfMT) as [E|E].
    + exists [EvCacheRead pRCW i], (m_pUnknown (m_aInterfaceEntries w pRCW i)).
      split; [reflexivity|]. split; [repeat constructor; eauto|].
      split; [intros _; now left|].
      left. exists 0%nat. rewrite Nat.add_0_r. repeat split; try assumption; lia.
    + destruct (IH (S i) (set_trace (trace w ++ [EvCacheRead pRCW i]) w))
        as (evs & r & Hrun & Hall & _ & Hcases).
      exists (EvCacheRead pRCW i :: evs), r.
      split; [rewrite Hrun; apply (f_equal (pair (Ret r))), (set_trace_app w [_] evs)|].
      split; [constructor; eauto|].
      split; [intros _; now left|].
      cbn in Hcases.
      destruct Hcases as [(k & Hk & Hbefore & Hat & ->)|(-> & Hnone)].
      * left. exists (S k). split; [lia|].
        replace (i + S k)%nat with (S i + k)%nat by lia.
        repeat split; try assumption.
        intros [|j] Hj; [now rewrite Nat.add_0_r|].
        replace (i + S j)%nat with (S i + j)%nat by lia. apply Hbefore. lia.
      * right. split; [reflexivity|].
        intros [|j] Hj; [now rewrite Nat.add_0_r|].
        replace (i + S j)%nat with (S i + j)%nat by lia. apply Hnone. lia.
Qed.

(** The whole fast-path lookup, in terms of the wrapper's cache. *)
Lemma rcw_cache_run (pRCW pItfMT : Z) (w : World) :
  exists (evs : list Event) (r : Z),
    GetCOMIPFromRCW_GetIUnknownFromRCWCache pRCW pItfMT w
      = (Ret r, set_trace (trace (with_ole_tls w) ++ evs) (with_ole_tls w)) /\
    Forall (fun e => exists j, e = EvCacheRead pRCW j) evs /\
    (IsFreeThreaded pRCW = true \/ current_context w = GetWrapperCtxCookie pRCW ->
       ((0 < INTERFACE_ENTRY_CACHE_SIZE)%nat -> In (EvCacheRead pRCW 0%nat) evs) /\
       (cache_entry_for w pRCW pItfMT r \/
        (r = NULL /\ forall pUnk, ~ cache_entry_for w pRCW pItfMT pUnk))) /\
    (IsFreeThreaded pRCW = false -> current_context w <> GetWrapperCtxCookie pRCW ->
       evs = [] /\ r = NULL).
Proof.
  unfold GetCOMIPFromRCW_GetIUnknownFromRCWCache, GetOrCreateOleTlsData, bind.
  assert (Hctx : forall d, ReservedForOle w = d ->
            pCurrentCtx (match d with Some x => x | None => SetupOleContext end)
            = current_context w).
  { intros d <-. unfold current_context. now destruct (ReservedForOle w). }
  assert (Hcache : m_aInterfaceEntries (with_ole_tls w) = m_aInterfaceEntries w).
  { unfold with_ole_tls. now destruct (ReservedForOle w). }
  assert (Hstep : exists evs r,
    (if (current_context w =? GetWrapperCtxCookie pRCW) || IsFreeThreaded pRCW
     then GetIUnknownFromRCWCache_loop pRCW pItfMT INTERFACE_ENTRY_CACHE_SIZE 0
     else ret NULL) (with_ole_tls w)
    = (Ret r, set_trace (trace (with_ole_tls w) ++ evs) (with_ole_tls w)) /\
    Forall (fun e => exists j, e = EvCacheRead pRCW j) evs /\
    (IsFreeThreaded pRCW = true \/ current_context w = GetWrapperCtxCookie pRCW ->
       ((0 < INTERFACE_ENTRY_CACHE_SIZE)%nat -> In (EvCacheRead pRCW 0%nat) evs) /\
       (cache_entry_for w pRCW pItfMT r \/
        (r = NULL /\ forall pUnk, ~ cache_entry_for w pRCW pItfMT pUnk))) /\
    (IsFreeThreaded pRCW = false -> current_context w <> GetWrapperCtxCookie pRCW ->
       evs = [] /\ r = NULL)).
  { destruct (Z.eqb_spec (current_context w) (GetWrapperCtxCookie pRCW)) as [Ec|Ec];
      destruct (IsFreeThreaded pRCW) eqn:Eft; cbn [orb].
    4:{ exists [], NULL. unfold ret. rewrite set_trace_nil.
        split; [reflexivity|]. split; [apply Forall_nil_2|].
        split; [intros [?|?]; congruence|]. intros; split; reflexivity. }
    all: destruct (cache_loop_run pRCW pItfMT INTERFACE_ENTRY_CACHE_SIZE 0 (with_ole_tls w))
           as (evs & r & Hrun & Hall & Hfirst & Hcases);
         exists evs, r; (split; [exact Hrun|]); (split; [exact Hall|]);
         (split; [|intros; congruence]); intros _; (split; [exact Hfirst|]);
         rewrite Hcache in Hcases; cbn [Nat.add] in Hcases;
         destruct Hcases as [(k & Hk & Hbefore & Hat & ->)|(-> & Hnone)];
         [ left; exists k; repeat split; assumption
         | right; split; [reflexivity|];
           intros pUnk (k & Hk & _ & Hat & _); exact (Hnone k Hk Hat) ]. }
  destruct Hstep as (evs & r & Hrun & Hrest). exists evs, r. split; [|exact Hrest].
  rewrite <- Hrun. unfold with_ole_tls.
  destruct (ReservedForOle w) as [d|] eqn:Eole.
  - now rewrite (Hctx (Some d) eq_refl).
  - now rewrite (Hctx None eq_refl).
Qed.


(** *** GetCOMIPFromRCW *)

Lemma cache_entry_for_unique (w : World) (pRCW pItfMT a b : Z) :
  cache_entry_for w pRCW pItfMT a -> cache_entry_for w pRCW pItfMT b -> a = b.
Proof.
  intros (i & _ & Hbi & Hati & <-) (j & _ & Hbj & Hatj & <-).
  destruct (Nat.lt_trichotomy i j) as [Hlt|[->|Hlt]]; [|reflexivity|].
  - exfalso. exact (Hbj i Hlt Hati).
  - exfalso. exact (Hbi j Hlt Hatj).
Qed.

Lemma cache_reads_quiet (pRCW : Z) (evs : list Event) :
  Forall (fun e => exists j, e = EvCacheRead pRCW j) evs ->
  existsb flag_or_resolver evs = false.
Proof.
  induction 1 as [|e evs [j ->] _ IH]; [reflexivity|]. cbn. exact IH.
Qed.

(** The fast path: it answers [Some pUnk] exactly on a fast-path hit for
    [pUnk]; it neither calls the resolver nor writes the ownership flag nor
    the cache; on a hit the call target has been stored. *)
Lemma fast_run (pSrc pMD : Z) (w : World) :
  exists (evs : list Event) (wf : World) (hit : option Z),
    GetCOMIPFromRCW_fast pSrc pMD w = (Ret hit, wf) /\
    emitted w wf evs /\
    existsb flag_or_resolver evs = false /\
    out_pfNeedsRelease wf = out_pfNeedsRelease w /\
    m_aInterfaceEntries wf = m_aInterfaceEntries w /\
    (forall pUnk, hit = Some pUnk <-> fast_path_hit w pSrc pMD pUnk) /\
    (forall pUnk, hit = Some pUnk -> out_ppTarget wf = GetCOMIPFromRCW_GetTarget pUnk pMD).
Proof.
  unfold GetCOMIPFromRCW_fast, fast_path_hit.
  destruct (Z.eqb_spec (GetRawRCW pSrc) NULL) as [Enull|Ennull]; cbn [negb].
  { exists [], w, None. split; [reflexivity|]. split; [apply emitted_refl|].
    repeat split; try discriminate. intros (Hn & _). contradiction. }
  set (pRCW := GetRawRCW pSrc) in *. set (itf := m_pInterfaceMT pMD).
  destruct (rcw_cache_run pRCW itf w) as (evs & r & Hrun & Hall & Hopen & Hclosed).
  apply cache_reads_quiet in Hall.
  assert (Hem1 : emitted w (set_trace (trace (with_ole_tls w) ++ evs) (with_ole_tls w)) evs).
  { unfold emitted, with_ole_tls. destruct (ReservedForOle w); reflexivity. }
  assert (Hfr : forall w1, w1 = set_trace (trace (with_ole_tls w) ++ evs) (with_ole_tls w) ->
            out_pfNeedsRelease w1 = out_pfNeedsRelease w /\
            m_aInterfaceEntries w1 = m_aInterfaceEntries w).
  { intros w1 ->. unfold with_ole_tls. destruct (ReservedForOle w); split; reflexivity. }
  assert (Hmiss : (forall pUnk, ~ (cache_entry_for w pRCW itf pUnk /\ pUnk <> NULL /\
                                   GetCOMIPFromRCW_GetTarget pUnk pMD <> NULL /\
                                   (IsFreeThreaded pRCW = true \/
                                    current_context w = GetWrapperCtxCookie pRCW))) ->
                  forall pUnk : Z,
                    (@None Z = Some pUnk) <->
                    pRCW <> NULL /\
                    (IsFreeThreaded pRCW = true \/
                     current_context w = GetWrapperCtxCookie pRCW) /\
                    cache_entry_for w pRCW itf pUnk /\ pUnk <> NULL /\
                    GetCOMIPFromRCW_GetTarget pUnk pMD <> NULL).
  { intros Hno pUnk. split; [discriminate|]. intros (_ & Hg & Hc & Hp & Ht).
    exfalso. apply (Hno pUnk). tauto. }
  unfold bind at 1. rewrite Hrun.
  destruct (Z.eqb_spec r NULL) as [Er|Er]; cbn [negb].
  { eexists evs, _, None. split; [reflexivity|]. split; [exact Hem1|].
    split; [exact Hall|]. destruct (Hfr _ eq_refl) as [Hf1 Hf2].
    split; [exact Hf1|]. split; [exact Hf2|]. split; [|discriminate].
    apply Hmiss. intros pUnk (Hc & Hp & _ & Hg).
    destruct (Hopen Hg) as [_ [Hc'|[_ Hnone]]].
    - apply Hp. rewrite (cache_entry_for_unique _ _ _ _ _ Hc Hc'). exact Er.
    - exact (Hnone pUnk Hc). }
  assert (Hgate : IsFreeThreaded pRCW = true \/ current_context w = GetWrapperCtxCookie pRCW).
  { destruct (IsFreeThreaded pRCW) eqn:Eft; [now left|right].
    destruct (Z.eq_dec (current_context w) (GetWrapperCtxCookie pRCW)) as [E|E]; [exact E|].
    destruct (Hclosed eq_refl E) as [_ ->]. contradiction. }
  assert (Hc : cache_entry_for w pRCW itf r).
  { destruct (Hopen Hgate) as [_ [Hc|[-> _]]]; [exact Hc|contradiction]. }
  unfold store_ppTarget, GetCOMIPFromRCW_ClearFP. unfold_monad. cbn.
  destruct (Z.eqb_spec (GetCOMIPFromRCW_GetTarget r pMD) NULL) as [Et|Et]; cbn [negb].
  { eexists (evs ++ [EvStoreTarget _]), _, None. split; [reflexivity|].
    split; [eapply emitted_trans; [exact Hem1|reflexivity]|].
    split; [rewrite existsb_app, Hall; reflexivity|].
    destruct (Hfr _ eq_refl) as [Hf1 Hf2]. split; [exact Hf1|]. split; [exact Hf2|].
    split; [|discriminate].
    apply Hmiss. intros pUnk (Hc' & _ & Ht & _).
    apply Ht. rewrite (cache_entry_for_unique _ _ _ _ _ Hc' Hc). exact Et. }
  assert (Hhit : forall pUnk : Z,
            Some r = Some pUnk <->
            pRCW <> NULL /\
            (IsFreeThreaded pRCW = true \/ current_context w = GetWrapperCtxCookie pRCW) /\
            cache_entry_for w pRCW itf pUnk /\ pUnk <> NULL /\
            GetCOMIPFromRCW_GetTarget pUnk pMD <> NULL).
  { intros pUnk. split.
    - intros [= <-]. repeat split; assumption.
    - intros (_ & _ & Hc' & _). f_equal. exact (cache_entry_for_unique _ _ _ _ _ Hc Hc'). }
  destruct TARGET_X86; cbn.
  - eexists (evs ++ [EvStoreTarget _; EvClearFP]), _, (Some r). split; [reflexivity|].
    split; [eapply emitted_trans; [exact Hem1|]; unfold emitted; cbn;
            rewrite <- app_assoc; reflexivity|].
    split; [rewrite existsb_app, Hall; reflexivity|].
    destruct (Hfr _ eq_refl) as [Hf1 Hf2]. split; [exact Hf1|]. split; [exact Hf2|].
    split; [exact Hhit|]. intros pUnk [= <-]. reflexivity.
  - eexists (evs ++ [EvStoreTarget _]), _, (Some r). split; [reflexivity|].
    split; [eapply emitted_trans; [exact Hem1|reflexivity]|].
    split; [rewrite existsb_app, Hall; reflexivity|].
    destruct (Hfr _ eq_refl) as [Hf1 Hf2]. split; [exact Hf1|]. split; [exact Hf2|].
    split; [exact Hhit|]. intros pUnk [= <-]. reflexivity.
Qed.

Ltac slow_emitted Hem0 :=
  match goal with
  | |- emitted ?w ?w' (?a :: ?b ++ ?rest) =>
      eapply (emitted_trans w _ w' (a :: b) rest);
      [ exact Hem0 | unfold emitted; cbn; rewrite <- ?app_assoc; reflexivity ]
  end.

(** A whole call: the flag is cleared first; then either the fast path hits
    and the call returns the cached pointer, or the flag is set, the resolver
    is called, and the call ends as the resolver does. *)
Lemma GetCOMIPFromRCW_run (pSrcUNSAFE pMD : Z) (w w' : World) (o : Outcome Z) :
  GetCOMIPFromRCW pSrcUNSAFE pMD w = (o, w') ->
  exists evs_fast : list Event,
    existsb flag_or_resolver evs_fast = false /\
    ((exists pUnk,
        fast_path_hit w pSrcUNSAFE pMD pUnk /\
        o = Ret pUnk /\
        emitted w w' (EvStoreNeedsRelease false :: evs_fast) /\
        out_pfNeedsRelease w' = false /\
        out_ppTarget w' = GetCOMIPFromRCW_GetTarget pUnk pMD) \/
     ((forall pUnk, ~ fast_path_hit w pSrcUNSAFE pMD pUnk) /\
      exists evs_slow : list Event,
        existsb flag_or_resolver evs_slow = false /\
        emitted w w'
          (EvStoreNeedsRelease false :: evs_fast ++
           EvStoreNeedsRelease true ::
           EvGetComIPFromRCWThrowing pSrcUNSAFE (m_pInterfaceMT pMD) :: evs_slow) /\
        out_pfNeedsRelease w' = true /\
        match resolveInterface pSrcUNSAFE (m_pInterfaceMT pMD) with
        | inl p =>
            o = Ret p /\
            out_ppTarget w' = GetCOMIPFromRCW_GetTarget p pMD /\
            (GetRawRCW pSrcUNSAFE <> NULL ->
             m_aInterfaceEntries w' (GetRawRCW pSrcUNSAFE)
               (cacheSlotFor (GetRawRCW pSrcUNSAFE) (m_pInterfaceMT pMD))
             = mkInterfaceEntry (m_pInterfaceMT pMD) p)
        | inr hr => o = Throw (HRException hr)
        end)).
Proof.
  unfold GetCOMIPFromRCW, store_pfNeedsRelease. unfold_monad. cbn.
  set (w0 := set_pfNeedsRelease false (set_trace (trace w ++ [EvStoreNeedsRelease false]) w)).
  destruct (fast_run pSrcUNSAFE pMD w0)
    as (evs & wf & hit & Hrun & Hem & Hq & Hflag & Hcache & Hhit & Htarget).
  rewrite Hrun. intros Hcall. exists evs. split; [exact Hq|].
  assert (Hem0 : emitted w wf (EvStoreNeedsRelease false :: evs)).
  { apply (emitted_trans w w0 wf [_] evs); [reflexivity|exact Hem]. }
  destruct hit as [pUnk|].
  - injection Hcall as <- <-. left. exists pUnk.
    split; [apply (Hhit pUnk); reflexivity|]. split; [reflexivity|].
    split; [exact Hem0|]. split; [rewrite Hflag; reflexivity|]. now apply Htarget.
  - right. split.
    { intros pUnk Hh. apply (Hhit pUnk) in Hh. discriminate. }
    revert Hcall. unfold GetCOMIPFromRCWHelper, GetComIPFromRCWThrowing, store_ppTarget,
      GetCOMIPFromRCW_ClearFP. unfold_monad. cbn.
    destruct (resolveInterface pSrcUNSAFE (m_pInterfaceMT pMD)) as [p|hr]; cbn.
    2:{ intros [= <- <-]. exists []. split; [reflexivity|].
        split; [slow_emitted Hem0|split; reflexivity]. }
    destruct (Z.eqb_spec (GetRawRCW pSrcUNSAFE) NULL) as [En|En]; cbn;
      destruct TARGET_X86; cbn; intros [= <- <-]; cbn.
    1,3: exists [EvStoreTarget (GetCOMIPFromRCW_GetTarget p pMD); EvClearFP].
    3,4: exists [EvStoreTarget (GetCOMIPFromRCW_GetTarget p pMD)].
    all: (split; [reflexivity|]); (split; [slow_emitted Hem0|]); (split; [reflexivity|]).
    all: repeat split; try reflexivity; intros; try contradiction.
    all: rewrite !fn_lookup_insert; reflexivity.
Qed.

Lemma quiet_no_resolver (evs : list Event) :
  existsb flag_or_resolver evs = false ->
  List.filter is_resolver_call evs = [] /\ existsb is_resolver_call evs = false /\
  existsb is_flag_store evs = false.
Proof.
  induction evs as [|e evs IH]; [now repeat split|].
  cbn. unfold flag_or_resolver at 1. intros Hq.
  apply orb_false_iff in Hq as [Hq1 Hq2]. apply orb_false_iff in Hq1 as [Hf Hr].
  destruct (IH Hq2) as (IH1 & IH2 & IH3). rewrite Hr, Hf. now repeat split.
Qed.

Lemma quiet_not_in (evs : list Event) (e : Event) :
  existsb flag_or_resolver evs = false -> In e evs -> flag_or_resolver e = false.
Proof.
  intros Hq Hin. destruct (flag_or_resolver e) eqn:E; [|reflexivity].
  rewrite <- Hq. symmetry. apply existsb_exists. eauto.
Qed.

(** C3.  On a fast-path hit (the wrapper's cache answers for the call site's
    interface with a non-null pointer whose dispatch slot is non-null)
    GetCOMIPFromRCW returns the cached pointer with the ownership flag false
    and never calls the resolver.  In every other case, and only then, it
    calls the resolver exactly once with the flag set to true; when the
    resolver succeeds its pointer is returned, the call target stored, and
    the wrapper's cache holds the fresh entry. *)
Theorem GetCOMIPFromRCW_fast_or_slow (pSrcUNSAFE pMD : Z) (w w' : World)
    (o : Outcome Z) (evs : list Event) :
  GetCOMIPFromRCW pSrcUNSAFE pMD w = (o, w') ->
  emitted w w' evs ->
  (forall pUnk, fast_path_hit w pSrcUNSAFE pMD pUnk ->
     o = Ret pUnk /\
     out_pfNeedsRelease w' = false /\
     out_ppTarget w' = GetCOMIPFromRCW_GetTarget pUnk pMD /\
     count_events is_resolver_call evs = 0%nat) /\
  ((forall pUnk, ~ fast_path_hit w pSrcUNSAFE pMD pUnk) ->
     count_events is_resolver_call evs = 1%nat /\
     out_pfNeedsRelease w' = true /\
     match resolveInterface pSrcUNSAFE (m_pInterfaceMT pMD) with
     | inl p =>
         o = Ret p /\
         out_ppTarget w' = GetCOMIPFromRCW_GetTarget p pMD /\
         (GetRawRCW pSrcUNSAFE <> NULL ->
          m_aInterfaceEntries w' (GetRawRCW pSrcUNSAFE)
            (cacheSlotFor (GetRawRCW pSrcUNSAFE) (m_pInterfaceMT pMD))
          = mkInterfaceEntry (m_pInterfaceMT pMD) p)
     | inr hr => o = Throw (HRException hr)
     end) /\
  (count_events is_resolver_call evs <> 0%nat ->
     forall pUnk, ~ fast_path_hit w pSrcUNSAFE pMD pUnk).
Proof.
  intros Hrun Hem.
  apply GetCOMIPFromRCW_run in Hrun
    as (evs_fast & Hq & [(p & Hhit & -> & Hem' & Hflag & Ht)
                        |(Hmiss & evs_slow & Hqs & Hem' & Hflag & Hres)]);
    rewrite (emitted_inj _ _ _ _ Hem Hem');
    destruct (quiet_no_resolver _ Hq) as (Hnf & _ & _).
  - assert (Hcount : count_events is_resolver_call (EvStoreNeedsRelease false :: evs_fast) = 0%nat).
    { unfold count_events. cbn. now rewrite Hnf. }
    split; [|split].
    + intros pUnk Hhit'.
      destruct Hhit as (_ & _ & Hc & _), Hhit' as (_ & _ & Hc' & _).
      rewrite (cache_entry_for_unique _ _ _ _ _ Hc' Hc). repeat split; assumption.
    + intros Hmiss. exfalso. exact (Hmiss p Hhit).
    + intros Hne. contradiction.
  - destruct (quiet_no_resolver _ Hqs) as (Hns & _ & _).
    split; [|split].
    + intros pUnk Hhit. exfalso. exact (Hmiss pUnk Hhit).
    + intros _. split; [|split; assumption].
      unfold count_events. cbn. rewrite List.filter_app, Hnf. cbn. now rewrite Hns.
    + intros _. exact Hmiss.
Qed.

(** C10.  Every call first stores false through pfNeedsRelease.  If the
    resolver is called at all, a store of true comes immediately before the
    call and no later store follows, so the flag ends up true exactly when
    the resolver was called.  In particular, when the fast path misses and
    the interface query fails with HRESULT [hr], the call throws [hr],
    returning no pointer, and the flag reads true. *)
Theorem GetCOMIPFromRCW_ownership_flag (pSrcUNSAFE pMD : Z) (w w' : World)
    (o : Outcome Z) (evs : list Event) :
  GetCOMIPFromRCW pSrcUNSAFE pMD w = (o, w') ->
  emitted w w' evs ->
  head evs = Some (EvStoreNeedsRelease false) /\
  out_pfNeedsRelease w' = existsb is_resolver_call evs /\
  (forall itf, In (EvGetComIPFromRCWThrowing pSrcUNSAFE itf) evs ->
     exists pre post,
       evs = pre ++ EvStoreNeedsRelease true ::
                    EvGetComIPFromRCWThrowing pSrcUNSAFE itf :: post /\
       existsb is_flag_store post = false) /\
  ((forall pUnk, ~ fast_path_hit w pSrcUNSAFE pMD pUnk) ->
   forall hr, resolveInterface pSrcUNSAFE (m_pInterfaceMT pMD) = inr hr ->
     o = Throw (HRException hr) /\
     out_pfNeedsRelease w' = true /\
     In (EvGetComIPFromRCWThrowing pSrcUNSAFE (m_pInterfaceMT pMD)) evs).
Proof.
  intros Hrun Hem.
  apply GetCOMIPFromRCW_run in Hrun
    as (evs_fast & Hq & [(p & Hhit & -> & Hem' & Hflag & Ht)
                        |(Hmiss & evs_slow & Hqs & Hem' & Hflag & Hres)]);
    rewrite (emitted_inj _ _ _ _ Hem Hem');
    destruct (quiet_no_resolver _ Hq) as (_ & Hnr & Hnf).
  - split; [reflexivity|]. split; [cbn; rewrite Hnr; exact Hflag|]. split.
    + intros itf [Hin|Hin]; [discriminate|].
      apply (quiet_not_in _ _ Hq) in Hin. discriminate.
    + intros Hmiss. exfalso. exact (Hmiss p Hhit).
  - destruct (quiet_no_resolver _ Hqs) as (_ & Hnrs & Hnfs).
    split; [reflexivity|].
    split; [cbn; rewrite existsb_app, Hnr; cbn; exact Hflag|]. split.
    + intros itf [Hin|Hin]; [discriminate|].
      apply in_app_or in Hin as [Hin|[Hin|[Hin|Hin]]].
      * apply (quiet_not_in _ _ Hq) in Hin. discriminate.
      * discriminate.
      * injection Hin as <-. exists (EvStoreNeedsRelease false :: evs_fast), evs_slow.
        split; [reflexivity|exact Hnfs].
      * apply (quiet_not_in _ _ Hqs) in Hin. discriminate.
    + intros _ hr Hfail. rewrite Hfail in Hres. split; [exact Hres|].
      split; [exact Hflag|]. right. apply in_or_app. right. right. now left.
Qed.

End ComInteropProperties.

(** * Further properties of the code *)

Section QueueProperties.
Context `{HeapServices}.

(** An in-heap enqueue either appends (storing the entry at the old
    live-count, resizing first when the queue is full) or throws and leaves
    the world as it was. *)
Lemma enqueue_run (pByref pMD pThisUNSAFE : Z) (w w' : World) (o : Outcome unit) :
  isPointerInManagedHeap pByref = true ->
  ValidateByref pByref pMD pThisUNSAFE w = (o, w') ->
  let idx := s_ByrefValidationIndex w in
  let cap := qa_size (s_ByrefValidationEntries w) in
  (o = Ret tt /\
   s_ByrefValidationIndex w' = (idx + 1) mod (SIZE_T_MAX + 1) /\
   qa_data (s_ByrefValidationEntries w')
     = <[idx := mkEntry pByref (ResolveInteropMethod pThisUNSAFE pMD)]>
         (qa_data (s_ByrefValidationEntries w)) /\
   ((idx < cap /\ qa_size (s_ByrefValidationEntries w') = cap) \/
    (cap <= idx /\ 2 * idx + 1 <= SIZE_T_MAX /\ allocSucceeds (2 * idx + 1) = true /\
     qa_size (s_ByrefValidationEntries w') = 2 * idx + 1))) \/
  (w' = w /\ cap <= idx /\
   ((o = Throw (HRException COR_E_OVERFLOW) /\ SIZE_T_MAX < 2 * idx + 1) \/
    (o = Throw (HRException E_OUTOFMEMORY) /\ 2 * idx + 1 <= SIZE_T_MAX /\
     allocSucceeds (2 * idx + 1) = false))).
Proof.
  intros Hheap. unfold ValidateByref, CQuickArray_ReSizeThrows, GarbageCollect.
  rewrite Hheap; cbn [negb]. unfold_monad. cbn zeta.
  set (idx := s_ByrefValidationIndex w). set (cap := qa_size (s_ByrefValidationEntries w)).
  unfold ClrSafeInt_multiply, ClrSafeInt_addition.
  destruct (Z.geb_spec idx cap) as [Hfull|Hroom].
  - destruct (Z.leb_spec (idx * 2) SIZE_T_MAX) as [Hm|Hm].
    2:{ intros [= <- <-]. right. split; [reflexivity|]. split; [lia|]. left. split; [reflexivity|lia]. }
    destruct (Z.leb_spec (idx * 2 + 1) SIZE_T_MAX) as [Ha|Ha].
    2:{ intros [= <- <-]. right. split; [reflexivity|]. split; [lia|]. left. split; [reflexivity|lia]. }
    replace (idx * 2 + 1) with (2 * idx + 1) by lia.
    destruct (allocSucceeds (2 * idx + 1)) eqn:Halloc; cbn.
    2:{ intros [= <- <-]. right. split; [reflexivity|]. split; [lia|]. right.
        split; [reflexivity|]. split; [lia|reflexivity]. }
    match goal with |- context [ ?a >? ?b ] => destruct (a >? b) end.
    all: cbn; intros [= <- <-]; cbn; left; fold idx.
    all: split; [reflexivity|]. all: split; [reflexivity|]. all: split; [reflexivity|].
    all: right; repeat split; try assumption; lia.
  - cbn.
    match goal with |- context [ ?a >? ?b ] => destruct (a >? b) end.
    all: cbn; intros [= <- <-]; cbn; left; fold idx cap.
    all: split; [reflexivity|]. all: split; [reflexivity|]. all: split; [reflexivity|].
    all: left; split; [lia|reflexivity].
Qed.

(** The live-count of a well-formed queue can be incremented without
    wrapping whenever an enqueue gets as far as the increment. *)
Lemma enqueue_no_wrap (w : World) :
  queue_wf w ->
  (s_ByrefValidationIndex w < qa_size (s_ByrefValidationEntries w) \/
   2 * s_ByrefValidationIndex w + 1 <= SIZE_T_MAX) ->
  (s_ByrefValidationIndex w + 1) mod (SIZE_T_MAX + 1) = s_ByrefValidationIndex w + 1.
Proof. intros (H0 & H1 & H2) Hc. apply Z.mod_small. lia. Qed.

Lemma enqueue_keeps_wf (pByref pMD pThisUNSAFE : Z) (w w' : World) (o : Outcome unit) :
  queue_wf w ->
  ValidateByref pByref pMD pThisUNSAFE w = (o, w') ->
  queue_wf w'.
Proof.
  intros Hwf Hrun.
  destruct (isPointerInManagedHeap pByref) eqn:Hheap.
  2:{ unfold ValidateByref in Hrun. rewrite Hheap in Hrun.
      injection Hrun as <- <-. exact Hwf. }
  destruct (enqueue_run _ _ _ _ _ _ Hheap Hrun)
    as [(_ & Hidx & _ & Hcap)|(-> & _)]; [|exact Hwf].
  unfold queue_wf in *. destruct Hwf as (H0 & H1 & H2). rewrite Hidx.
  destruct Hcap as [(Hlt & ->)|(Hge & Hfit & _ & ->)];
    rewrite Z.mod_small by lia; lia.
Qed.

(** An enqueue whose incremented live-count stays at or below
    BYREF_VALIDATION_LIST_MAX_SIZE does not call into the collector: it
    leaves the trace as it was. *)
Lemma enqueue_below_mark (pByref pMD pThisUNSAFE : Z) (w w' : World) (o : Outcome unit) :
  queue_wf w ->
  s_ByrefValidationIndex w + 1 <= BYREF_VALIDATION_LIST_MAX_SIZE ->
  ValidateByref pByref pMD pThisUNSAFE w = (o, w') ->
  emitted w w' [].
Proof.
  intros (H0 & H1 & H2) Hmark.
  pose proof (Z.mod_le (s_ByrefValidationIndex w + 1) (SIZE_T_MAX + 1)) as Hmod.
  unfold ValidateByref, CQuickArray_ReSizeThrows, GarbageCollect.
  destruct (isPointerInManagedHeap pByref) eqn:Hheap; cbn [negb].
  2:{ intros [= <- <-]. apply emitted_refl. }
  unfold_monad.
  destruct (s_ByrefValidationIndex w >=? qa_size (s_ByrefValidationEntries w));
    [ destruct (ClrSafeInt_multiply _ _) as [n|];
      [ destruct (ClrSafeInt_addition _ _) as [n'|];
        [ destruct (allocSucceeds n') | ] | ] | ];
    cbn;
    try (intros [= <- <-]; apply emitted_refl).
  all: match goal with
       | |- context [ ?a >? ?b ] => destruct (Z.gtb_spec a b)
       end; cbn; intros [= <- <-]; cbn; first [lia | solve_emitted].
Qed.

(** X1.  ValidateByref keeps the queue well formed, however it ends: the
    live-count stays within the capacity and both stay SIZE_T values. *)
Theorem ValidateByref_keeps_queue_wf (pByref pMD pThisUNSAFE : Z) (w w' : World)
    (o : Outcome unit) :
  queue_wf w ->
  ValidateByref pByref pMD pThisUNSAFE w = (o, w') ->
  queue_wf w'.
Proof.
  intros Hwf Hrun.
  destruct (isPointerInManagedHeap pByref) eqn:Hheap.
  2:{ unfold ValidateByref in Hrun. rewrite Hheap in Hrun.
      injection Hrun as <- <-. exact Hwf. }
  destruct (enqueue_run _ _ _ _ _ _ Hheap Hrun)
    as [(_ & Hidx & _ & Hcap)|(-> & _)]; [|exact Hwf].
  unfold queue_wf in *. destruct Hwf as (H0 & H1 & H2). rewrite Hidx.
  destruct Hcap as [(Hlt & ->)|(Hge & Hfit & _ & ->)];
    rewrite Z.mod_small by lia; lia.
Qed.

(** X18.  The buffer grows geometrically: on a well-formed queue whose
    capacity is one less than a power of two (0, 1, 3, 7, ...; the initial
    capacity is 0) every enqueue leaves a capacity of that form. *)
Theorem ValidateByref_capacity_shape (pByref pMD pThisUNSAFE : Z) (w w' : World)
    (o : Outcome unit) :
  queue_wf w ->
  (exists k, 0 <= k /\ qa_size (s_ByrefValidationEntries w) = 2 ^ k - 1) ->
  ValidateByref pByref pMD pThisUNSAFE w = (o, w') ->
  exists k', 0 <= k' /\ qa_size (s_ByrefValidationEntries w') = 2 ^ k' - 1.
Proof.
  intros (H0 & H1 & H2) (k & Hk & Hcap) Hrun.
  destruct (isPointerInManagedHeap pByref) eqn:Hheap.
  2:{ unfold ValidateByref in Hrun. rewrite Hheap in Hrun.
      injection Hrun as <- <-. eauto. }
  destruct (enqueue_run _ _ _ _ _ _ Hheap Hrun)
    as [(_ & _ & _ & [(_ & ->)|(Hge & _ & _ & ->)])|(-> & _)]; eauto.
  exists (k + 1). split; [lia|].
  assert (s_ByrefValidationIndex w = 2 ^ k - 1) as -> by lia.
  rewrite Z.pow_add_r by lia. lia.
Qed.

(** X2.  ValidateByref never shrinks the buffer and never writes a slot
    other than the one at the live-count; when it does not return normally
    it has changed nothing at all. *)
Theorem ValidateByref_never_shrinks_or_overwrites (pByref pMD pThisUNSAFE : Z)
    (w w' : World) (o : Outcome unit) :
  0 <= s_ByrefValidationIndex w ->
  ValidateByref pByref pMD pThisUNSAFE w = (o, w') ->
  qa_size (s_ByrefValidationEntries w) <= qa_size (s_ByrefValidationEntries w') /\
  (forall i, i <> s_ByrefValidationIndex w ->
     qa_data (s_ByrefValidationEntries w') i = qa_data (s_ByrefValidationEntries w) i) /\
  (o <> Ret tt -> w' = w).
Proof.
  intros Hidx Hrun.
  destruct (isPointerInManagedHeap pByref) eqn:Hheap.
  2:{ unfold ValidateByref in Hrun. rewrite Hheap in Hrun.
      injection Hrun as <- <-. split; [lia|]. split; intros; reflexivity. }
  destruct (enqueue_run _ _ _ _ _ _ Hheap Hrun)
    as [(-> & _ & Hdata & Hcap)|(-> & _)].
  - split; [destruct Hcap as [(_ & ->)|(Hge & _ & _ & ->)]; lia|].
    split; [|intros Hne; now contradiction Hne].
    intros i Hi. rewrite Hdata. now apply fn_lookup_insert_ne.
  - split; [lia|]. split; intros; reflexivity.
Qed.

(** What a successful enqueue does to the live entries. *)
Lemma enqueue_live_entries (pByref pMD pThisUNSAFE : Z) (w w' : World) :
  queue_wf w ->
  isPointerInManagedHeap pByref = true ->
  ValidateByref pByref pMD pThisUNSAFE w = (Ret tt, w') ->
  s_ByrefValidationIndex w' = s_ByrefValidationIndex w + 1 /\
  live_entries w' =
    live_entries w ++ [mkEntry pByref (ResolveInteropMethod pThisUNSAFE pMD)].
Proof.
  intros Hwf Hheap Hrun.
  destruct (enqueue_run _ _ _ _ _ _ Hheap Hrun)
    as [(_ & Hidx & Hdata & Hcap)|(_ & _ & [(Ho & _)|(Ho & _)])]; try discriminate.
  assert (Hidx' : s_ByrefValidationIndex w' = s_ByrefValidationIndex w + 1).
  { rewrite Hidx. apply enqueue_no_wrap; [exact Hwf|].
    destruct Hcap as [(Hlt & _)|(_ & Hfit & _)]; [now left|now right]. }
  split; [exact Hidx'|].
  destruct Hwf as (H0 & _). unfold live_entries. rewrite Hidx'.
  replace (Z.to_nat (s_ByrefValidationIndex w + 1))
    with (S (Z.to_nat (s_ByrefValidationIndex w))) by lia.
  rewrite entries_from_snoc. f_equal.
  - unfold entries_from. apply map_ext_in. intros j Hj. apply in_seq in Hj.
    rewrite Hdata. apply fn_lookup_insert_ne. lia.
  - f_equal. rewrite Hdata.
    replace (0 + Z.of_nat (Z.to_nat (s_ByrefValidationIndex w)))
      with (s_ByrefValidationIndex w) by lia.
    apply fn_lookup_insert.
Qed.

(** X3.  An enqueue that returns without calling into the collector appends
    exactly one entry.  On a well-formed queue whose live-count is below
    BYREF_VALIDATION_LIST_MAX_SIZE, a successful in-heap enqueue requests no
    collection (the trace is as it was), the live-count grows by one (no
    wrap-around), the entries that were live stay as they were, in order,
    and the new last entry holds the pointer and the method
    ResolveInteropMethod picks for the call. *)
Theorem ValidateByref_appends_one_entry (pByref pMD pThisUNSAFE : Z) (w w' : World) :
  queue_wf w ->
  s_ByrefValidationIndex w + 1 <= BYREF_VALIDATION_LIST_MAX_SIZE ->
  isPointerInManagedHeap pByref = true ->
  ValidateByref pByref pMD pThisUNSAFE w = (Ret tt, w') ->
  emitted w w' [] /\
  s_ByrefValidationIndex w' = s_ByrefValidationIndex w + 1 /\
  live_entries w' =
    live_entries w ++ [mkEntry pByref (ResolveInteropMethod pThisUNSAFE pMD)].
Proof.
  intros Hwf Hmark Hheap Hrun.
  split; [exact (enqueue_below_mark _ _ _ _ _ _ Hwf Hmark Hrun)|].
  destruct (enqueue_run _ _ _ _ _ _ Hheap Hrun)
    as [(_ & Hidx & Hdata & Hcap)|(_ & _ & [(Ho & _)|(Ho & _)])]; try discriminate.
  assert (Hidx' : s_ByrefValidationIndex w' = s_ByrefValidationIndex w + 1).
  { rewrite Hidx. apply enqueue_no_wrap; [exact Hwf|].
    destruct Hcap as [(Hlt & _)|(_ & Hfit & _)]; [now left|now right]. }
  split; [exact Hidx'|].
  destruct Hwf as (H0 & _). unfold live_entries. rewrite Hidx'.
  replace (Z.to_nat (s_ByrefValidationIndex w + 1))
    with (S (Z.to_nat (s_ByrefValidationIndex w))) by lia.
  rewrite entries_from_snoc. f_equal.
  - unfold entries_from. apply map_ext_in. intros j Hj. apply in_seq in Hj.
    rewrite Hdata. apply fn_lookup_insert_ne. lia.
  - f_equal. rewrite Hdata.
    replace (0 + Z.of_nat (Z.to_nat (s_ByrefValidationIndex w)))
      with (s_ByrefValidationIndex w) by lia.
    apply fn_lookup_insert.
Qed.

(** X4.  On a well-formed queue with a free slot and a live-count below
    BYREF_VALIDATION_LIST_MAX_SIZE an in-heap enqueue cannot fail: it
    returns, whatever the allocator would have answered, without calling
    into the collector, and the capacity is unchanged. *)
Theorem ValidateByref_with_room_succeeds (pByref pMD pThisUNSAFE : Z) (w : World) :
  queue_wf w ->
  isPointerInManagedHeap pByref = true ->
  s_ByrefValidationIndex w < qa_size (s_ByrefValidationEntries w) ->
  s_ByrefValidationIndex w + 1 <= BYREF_VALIDATION_LIST_MAX_SIZE ->
  fst (ValidateByref pByref pMD pThisUNSAFE w) = Ret tt /\
  emitted w (snd (ValidateByref pByref pMD pThisUNSAFE w)) [] /\
  qa_size (s_ByrefValidationEntries (snd (ValidateByref pByref pMD pThisUNSAFE w)))
    = qa_size (s_ByrefValidationEntries w).
Proof.
  intros Hwf Hheap Hroom Hmark.
  destruct (ValidateByref pByref pMD pThisUNSAFE w) as [o w'] eqn:Hrun. cbn [fst snd].
  pose proof (enqueue_below_mark _ _ _ _ _ _ Hwf Hmark Hrun) as Hquiet.
  destruct (enqueue_run _ _ _ _ _ _ Hheap Hrun)
    as [(-> & _ & _ & [(_ & ->)|(Hge & _)])|(_ & Hge & _)]; try lia.
  split; [reflexivity|]. split; [exact Hquiet|reflexivity].
Qed.

(** *** Draining *)

(** X5.  ProcessByrefValidationList leaves the buffer alone, however it
    ends: capacity and stored entries are unchanged, and the live-count is
    either reset to 0 (normal return) or untouched (fatal error).  A
    well-formed queue stays well formed. *)
Theorem ProcessByrefValidationList_keeps_buffer (w w' : World) (o : Outcome unit) :
  ProcessByrefValidationList w = (o, w') ->
  s_ByrefValidationEntries w' = s_ByrefValidationEntries w /\
  ((o = Ret tt /\ s_ByrefValidationIndex w' = 0) \/
   (o = Fatal /\ s_ByrefValidationIndex w' = s_ByrefValidationIndex w)) /\
  (queue_wf w -> queue_wf w').
Proof.
  unfold ProcessByrefValidationList, try_catch_unreachable_with, try_catch_unreachable.
  unfold bind at 1.
  destruct (ProcessByrefValidationList_loop _ 0 _ w) as [[o1 e1] w1] eqn:Hloop.
  apply drain_loop_run in Hloop
    as (Hq & Hi & evs & _ & _ & [(-> & _)|(ex & k & ea & eb & -> & _)]).
  - unfold modify. intros [= <- <-]. cbn.
    split; [exact Hq|]. split; [now left|].
    unfold queue_wf; cbn. rewrite Hq. lia.
  - destruct (FormatValidationMessage_run (pMD e1) EmptyString) as [[msg Hfmt]|Hfmt];
      unfold bind; rewrite !Hfmt; cbn;
      unfold EEPOLICY_HANDLE_FATAL_ERROR_WITH_MESSAGE, EEPOLICY_HANDLE_FATAL_ERROR;
      intros [= <- <-]; cbn.
    all: split; [exact Hq|]; split; [now right|].
    all: unfold queue_wf; cbn; now rewrite Hq, Hi.
Qed.

(** X6.  A drain that returned has nothing left to do: running it again
    returns at once and changes nothing, not even the trace. *)
Theorem ProcessByrefValidationList_twice (w w1 : World) :
  ProcessByrefValidationList w = (Ret tt, w1) ->
  ProcessByrefValidationList w1 = (Ret tt, w1).
Proof.
  unfold ProcessByrefValidationList at 1.
  unfold try_catch_unreachable_with, try_catch_unreachable. unfold bind at 1.
  destruct (ProcessByrefValidationList_loop _ 0 _ w) as [[o1 e1] wl].
  destruct o1 as [[]|ex|].
  - unfold modify. intros [= <-]. reflexivity.
  - destruct (FormatValidationMessage_run (pMD e1) EmptyString) as [[msg Hfmt]|Hfmt];
      unfold bind; rewrite !Hfmt; cbn;
      unfold EEPOLICY_HANDLE_FATAL_ERROR_WITH_MESSAGE, EEPOLICY_HANDLE_FATAL_ERROR;
      discriminate.
  - discriminate.
Qed.

(** X7.  Enqueue, then drain, with no collection in between: on a
    well-formed queue whose live-count is below
    BYREF_VALIDATION_LIST_MAX_SIZE a successful enqueue requests no
    collection, and the drain that follows resolves the pointers that were
    live before and then the one just enqueued; if every validation passes
    it returns with the live-count back at 0. *)
Theorem ValidateByref_then_drain_visits_new_entry (ptr pMD pThisUNSAFE : Z)
    (w w1 w2 : World) (o : Outcome unit) (evs : list Event) :
  queue_wf w ->
  s_ByrefValidationIndex w + 1 <= BYREF_VALIDATION_LIST_MAX_SIZE ->
  isPointerInManagedHeap ptr = true ->
  ValidateByref ptr pMD pThisUNSAFE w = (Ret tt, w1) ->
  ProcessByrefValidationList w1 = (o, w2) ->
  emitted w1 w2 evs ->
  existsb failed_validation evs = false ->
  emitted w w1 [] /\
  o = Ret tt /\
  s_ByrefValidationIndex w2 = 0 /\
  resolved_pointers evs = map pByref (live_entries w) ++ [ptr].
Proof.
  intros Hwf Hmark Hheap Henq Hdrain Hem Hpass.
  split; [exact (enqueue_below_mark _ _ _ _ _ _ Hwf Hmark Henq)|].
  destruct (enqueue_live_entries _ _ _ _ _ Hwf Hheap Henq) as [_ Hlive].
  apply drain_run in Hdrain as (evs' & Hem' & Hcases).
  rewrite (emitted_inj _ _ _ _ Hem Hem') in *.
  destruct Hcases as [(-> & _ & Hi & _ & Hr & _)
                     |(_ & _ & k & ea & eb & _ & _ & _ & Hvb & _ & _ & -> & _)].
  - split; [reflexivity|]. split; [exact Hi|].
    rewrite Hr, Hlive, map_app. reflexivity.
  - rewrite !existsb_app, Hvb, orb_true_r in Hpass. cbn in Hpass. discriminate.
Qed.

(** X8.  The call site recorded by an enqueue is the one the next drain
    blames: after a successful enqueue on an empty well-formed queue, a drain
    that meets a failing validation ends in a fatal error whose message is
    the diagnostic formatted for ResolveInteropMethod(pThis, pMD) of the
    enqueue (no message if formatting throws). *)
Theorem ValidateByref_then_drain_blames_call_site (pByref pMD pThisUNSAFE : Z)
    (w w1 w2 : World) (o : Outcome unit) (evs : list Event) :
  queue_wf w ->
  s_ByrefValidationIndex w = 0 ->
  isPointerInManagedHeap pByref = true ->
  ValidateByref pByref pMD pThisUNSAFE w = (Ret tt, w1) ->
  ProcessByrefValidationList w1 = (o, w2) ->
  emitted w1 w2 evs ->
  existsb failed_validation evs = true ->
  o = Fatal /\
  last evs = Some (EvFatalError COR_E_EXECUTIONENGINE
                     match fst (FormatValidationMessage
                                  (ResolveInteropMethod pThisUNSAFE pMD) EmptyString w1) with
                     | Ret text => Some text
                     | _ => None
                     end).
Proof.
  intros Hwf Hempty Hheap Henq Hdrain Hem Hfail.
  destruct (enqueue_live_entries _ _ _ _ _ Hwf Hheap Henq) as [Hidx _].
  destruct (enqueue_run _ _ _ _ _ _ Hheap Henq)
    as [(_ & _ & Hdata & _)|(_ & _ & [(Ho & _)|(Ho & _)])]; try discriminate.
  apply drain_run in Hdrain as (evs' & Hem' & Hcases).
  rewrite (emitted_inj _ _ _ _ Hem Hem') in *.
  destruct Hcases as [(_ & Hv & _)
                     |(-> & _ & k & ea & eb & Hk & _ & _ & _ & _ & _ & -> & _)];
    [congruence|].
  split; [reflexivity|].
  rewrite Hidx, Hempty in Hk. assert (k = 0%nat) as -> by lia.
  rewrite Hdata, Hempty. cbn [Z.of_nat]. rewrite fn_lookup_insert.
  rewrite app_assoc. apply last_snoc.
Qed.

(** A run of enqueues that all return, and that keeps the live-count at or
    below BYREF_VALIDATION_LIST_MAX_SIZE, appends the entries in call order
    and never calls into the collector. *)
Lemma enqueue_calls_live_entries (calls : list (Z * Z * Z)) :
  forall (w w' : World),
  queue_wf w ->
  s_ByrefValidationIndex w + Z.of_nat (length calls) <= BYREF_VALIDATION_LIST_MAX_SIZE ->
  Forall (fun c => isPointerInManagedHeap (fst (fst c)) = true) calls ->
  ValidateByref_calls calls w = (Ret tt, w') ->
  queue_wf w' /\
  emitted w w' [] /\
  s_ByrefValidationIndex w' = s_ByrefValidationIndex w + Z.of_nat (length calls) /\
  live_entries w' = live_entries w ++ map recorded_entry calls.
Proof.
  induction calls as [|[[p md] this] calls IH]; intros w w' Hwf Hmark Hall.
  - cbn. unfold ret. intros [= <-]. split; [exact Hwf|].
    split; [apply emitted_refl|]. split; [lia|]. now rewrite app_nil_r.
  - cbn [ValidateByref_calls]. unfold bind.
    destruct (ValidateByref p md this w) as [o1 w1] eqn:Hone.
    apply Forall_cons in Hall as [Hheap Hall]. cbn in Hheap.
    destruct o1 as [[]|ex|]; try discriminate.
    intros Hrest. cbn [length] in Hmark.
    destruct (enqueue_live_entries _ _ _ _ _ Hwf Hheap Hone) as [Hidx1 Hlive1].
    assert (Hquiet1 : emitted w w1 [])
      by (apply (enqueue_below_mark p md this w w1 (Ret tt) Hwf); [lia|exact Hone]).
    assert (Hmark1 : s_ByrefValidationIndex w1 + Z.of_nat (length calls)
                     <= BYREF_VALIDATION_LIST_MAX_SIZE) by lia.
    destruct (IH w1 w' (enqueue_keeps_wf _ _ _ _ _ _ Hwf Hone) Hmark1 Hall Hrest)
      as (Hwf' & Hquiet & Hidx & Hlive).
    split; [exact Hwf'|].
    split; [unfold emitted in Hquiet, Hquiet1 |- *;
            rewrite Hquiet, Hquiet1, !app_nil_r; reflexivity|].
    split; [cbn [length]; lia|].
    rewrite Hlive, Hlive1, <- app_assoc. reflexivity.
Qed.

(** X19.  N enqueues, then one drain, with no collection in between: after
    a sequence of in-heap enqueues that all returned, on a well-formed queue
    that the sequence fills no further than BYREF_VALIDATION_LIST_MAX_SIZE,
    no collection has been requested and all N entries are live; a drain in
    which no validation fails then resolves first the pointers that were
    live before and then the enqueued pointers, each once and in call order,
    and returns with the live-count at 0. *)
Theorem ValidateByref_calls_then_drain (calls : list (Z * Z * Z))
    (w w1 w2 : World) (o : Outcome unit) (evs : list Event) :
  queue_wf w ->
  s_ByrefValidationIndex w + Z.of_nat (length calls) <= BYREF_VALIDATION_LIST_MAX_SIZE ->
  Forall (fun c => isPointerInManagedHeap (fst (fst c)) = true) calls ->
  ValidateByref_calls calls w = (Ret tt, w1) ->
  ProcessByrefValidationList w1 = (o, w2) ->
  emitted w1 w2 evs ->
  existsb failed_validation evs = false ->
  emitted w w1 [] /\
  s_ByrefValidationIndex w1 = s_ByrefValidationIndex w + Z.of_nat (length calls) /\
  o = Ret tt /\
  s_ByrefValidationIndex w2 = 0 /\
  resolved_pointers evs = map pByref (live_entries w) ++ map (fun c => fst (fst c)) calls.
Proof.
  intros Hwf Hmark Hall Henq Hdrain Hem Hpass.
  destruct (enqueue_calls_live_entries _ _ _ Hwf Hmark Hall Henq)
    as (_ & Hquiet & Hcount & Hlive).
  split; [exact Hquiet|]. split; [exact Hcount|].
  apply drain_run in Hdrain as (evs' & Hem' & Hcases).
  rewrite (emitted_inj _ _ _ _ Hem Hem') in *.
  destruct Hcases as [(-> & _ & Hi & _ & Hr & _)
                     |(_ & _ & k & ea & eb & _ & _ & _ & Hvb & _ & _ & -> & _)].
  - split; [reflexivity|]. split; [exact Hi|].
    rewrite Hr, Hlive, map_app, map_map. f_equal.
    apply map_ext. now intros [[p md] this].
  - rewrite !existsb_app, Hvb, orb_true_r in Hpass. cbn in Hpass. discriminate.
Qed.

End QueueProperties.

Section ValidationProperties.
Context `{HeapServices}.

Ltac split_in :=
  repeat match goal with
         | Hin : False |- _ => destruct Hin
         | Hin : _ \/ _ |- _ => destruct Hin as [Hin|Hin]
         | Heq : _ = EvValidate _ _ _ _ |- _ =>
             first [discriminate Heq | injection Heq as <- <- <- <-]
         end.

(** X9.  ValidateObjectInternal validates at most the object and its
    neighbour, always deeply and never with bVerifyNextHeader; the sync
    block is verified for the object itself and never for the neighbour.
    It does not touch the queue and raises no fatal error of its own: it
    returns when every validation passed, and otherwise throws at the failing
    validation, which is then the last thing it did. *)
Theorem ValidateObjectInternal_outcome (pObjUNSAFE : Z) (fValidateNextObj : bool)
    (w w' : World) (o : Outcome unit) :
  ValidateObjectInternal pObjUNSAFE fValidateNextObj w = (o, w') ->
  s_ByrefValidationEntries w' = s_ByrefValidationEntries w /\
  s_ByrefValidationIndex w' = s_ByrefValidationIndex w /\
  exists evs,
    emitted w w' evs /\
    count_events is_fatal_error evs = 0%nat /\
    (forall x d h s, In (EvValidate x d h s) evs ->
       d = true /\ h = false /\
       ((s = true /\ x = pObjUNSAFE /\ pObjUNSAFE <> NULL) \/
        (s = false /\ fValidateNextObj = true /\ x = nextObjectAfter pObjUNSAFE /\
         x <> NULL))) /\
    ((o = Ret tt /\ existsb failed_validation evs = false) \/
     (exists x d h s,
        o = Throw (ValidationFault x) /\
        last evs = Some (EvValidate x d h s) /\
        validates x d h s = false)).
Proof.
  unfold ValidateObjectInternal, Object_Validate, NextObj, VolatileLoad_MethodTablePtr.
  unfold_monad.
  destruct (Z.eqb_spec pObjUNSAFE NULL) as [E|E]; cbn.
  2: destruct (validates pObjUNSAFE true false true) eqn:V1; cbn.
  all: destruct fValidateNextObj; cbn.
  all: try (destruct (Z.eqb_spec (nextObjectAfter pObjUNSAFE) NULL) as [En|En]; cbn).
  all: try (match goal with
            | |- context [ negb (?a =? NULL) && negb (?a =? ?b) ] =>
                destruct (negb (a =? NULL) && negb (a =? b)); cbn
            end).
  all: try (match goal with
            | |- context [ if validates ?a true false false then _ else _ ] =>
                destruct (validates a true false false) eqn:V2; cbn
            end).
  all: intros [= <- <-]; cbn; (split; [reflexivity|]); (split; [reflexivity|]).
  all: eexists; (split; [find_emitted|]); cbn; rewrite ?V1, ?V2; cbn.
  all: (split; [reflexivity|]).
  all: split;
    [ intros x d h s Hin; split_in; (split; [reflexivity|]); (split; [reflexivity|]);
      first [ left; repeat split; solve [auto] | right; repeat split; solve [auto] ] |].
  all: first [ left; split; reflexivity
             | right; do 4 eexists; split; [reflexivity|]; split; [reflexivity|]; assumption ].
Qed.

(** X10.  FormatValidationMessage appends to the text it is given: on
    success the result is that text followed by the diagnostic ("CALLI." for
    a NULL pMD, class, separator and method name otherwise).  It changes no
    process state, its only failure is the out-of-memory exception of an
    append, and it succeeds whenever no append is refused. *)
Theorem FormatValidationMessage_appends (pMD : Z) (ssErrorString : string)
    (w w' : World) (o : Outcome string) :
  FormatValidationMessage pMD ssErrorString w = (o, w') ->
  w' = w /\
  (o = Ret (ssErrorString +:+
            "Detected managed heap corruption, likely culprit is interop call through " +:+
            (if pMD =? NULL then "CALLI."
             else "method '" +:+ GetFullyQualifiedNameForClass pMD
                  +:+ String NAMESPACE_SEPARATOR_CHAR EmptyString
                  +:+ GetName pMD +:+ "'.")) \/
   o = Throw (HRException E_OUTOFMEMORY)) /\
  ((forall a b, appendSucceeds a b = true) -> exists msg, o = Ret msg).
Proof.
  unfold FormatValidationMessage, bind.
  destruct (Z.eqb_spec pMD NULL) as [E|E].
  all: repeat (rewrite SString_Append_run;
               match goal with
               | |- context [ if appendSucceeds ?a ?b then _ else _ ] =>
                   destruct (appendSucceeds a b) eqn:?
               end).
  all: intros [= <- <-]; (split; [reflexivity|]).
  all: split;
    [ first [ right; reflexivity
            | left; f_equal; rewrite ?string_app_assoc; reflexivity ]
    | intros Hall; first [ eexists; reflexivity
                         | exfalso;
                           match goal with
                           | Hno : appendSucceeds ?a ?b = false |- _ =>
                               rewrite (Hall a b) in Hno; discriminate Hno
                           end ] ].
Qed.

(** The part of the above the callers' handlers rely on. *)
Lemma ValidateObjectInternal_outcome_aux (pObjUNSAFE : Z) (fValidateNextObj : bool)
    (w w' : World) (o : Outcome unit) :
  ValidateObjectInternal pObjUNSAFE fValidateNextObj w = (o, w') ->
  exists evs,
    emitted w w' evs /\
    count_events is_fatal_error evs = 0%nat /\
    ((o = Ret tt /\ existsb failed_validation evs = false) \/
     (exists x, o = Throw (ValidationFault x) /\ existsb failed_validation evs = true)).
Proof.
  unfold ValidateObjectInternal, Object_Validate, NextObj, VolatileLoad_MethodTablePtr.
  unfold_monad.
  destruct (Z.eqb_spec pObjUNSAFE NULL) as [E|E]; cbn.
  2: destruct (validates pObjUNSAFE true false true) eqn:V1; cbn.
  all: destruct fValidateNextObj; cbn.
  all: try (destruct (Z.eqb_spec (nextObjectAfter pObjUNSAFE) NULL) as [En|En]; cbn).
  all: try (match goal with
            | |- context [ negb (?a =? NULL) && negb (?a =? ?b) ] =>
                destruct (negb (a =? NULL) && negb (a =? b)); cbn
            end).
  all: try (match goal with
            | |- context [ if validates ?a true false false then _ else _ ] =>
                destruct (validates a true false false) eqn:V2; cbn
            end).
  all: intros [= <- <-]; cbn.
  all: eexists; (split; [find_emitted|]); cbn; rewrite ?V1, ?V2; cbn.
  all: (split; [reflexivity|]).
  all: first [ left; split; reflexivity
             | right; eexists; split; reflexivity ].
Qed.

(** X11.  ValidateObject and a failing validation: when the diagnostic can
    be formatted the call ends in one fatal error, raised last, carrying the
    diagnostic for ResolveInteropMethod(pThis, pMD).  When formatting throws
    there is no inner handler as in the drain: the formatting exception
    leaves ValidateObject and no fatal error is raised.  Without a failing
    validation the call returns and nothing fatal happens. *)
Theorem ValidateObject_failure (pObjUNSAFE pMD pThisUNSAFE : Z) (w w' : World)
    (o : Outcome unit) (evs : list Event) :
  ValidateObject pObjUNSAFE pMD pThisUNSAFE w = (o, w') ->
  emitted w w' evs ->
  (existsb failed_validation evs = false ->
     o = Ret tt /\ count_events is_fatal_error evs = 0%nat) /\
  (existsb failed_validation evs = true ->
     match fst (FormatValidationMessage (ResolveInteropMethod pThisUNSAFE pMD)
                  EmptyString w) with
     | Ret text =>
         o = Fatal /\
         count_events is_fatal_error evs = 1%nat /\
         last evs = Some (EvFatalError COR_E_EXECUTIONENGINE (Some text))
     | _ =>
         o = Throw (HRException E_OUTOFMEMORY) /\
         count_events is_fatal_error evs = 0%nat
     end).
Proof.
  unfold ValidateObject, try_catch_unreachable. unfold bind at 1. unfold get_world.
  destruct (ValidateObjectInternal pObjUNSAFE (negb (concurrentGC w)) w) as [o1 w1] eqn:Hin.
  apply ValidateObjectInternal_outcome_aux in Hin
    as (evs1 & Hem1 & Hf1 & [(-> & Hv1)|(x & -> & Hv1)]).
  - intros [= <- <-] Hem. rewrite (emitted_inj _ _ _ _ Hem Hem1).
    split; [intros _; now split|]. rewrite Hv1. discriminate.
  - destruct (FormatValidationMessage_run (ResolveInteropMethod pThisUNSAFE pMD) EmptyString)
      as [[msg Hfmt]|Hfmt]; unfold bind; rewrite !Hfmt; cbn;
      unfold EEPOLICY_HANDLE_FATAL_ERROR_WITH_MESSAGE; intros [= <- <-] Hem.
    + assert (evs = evs1 ++ [EvFatalError COR_E_EXECUTIONENGINE (Some msg)]) as ->.
      { eapply emitted_inj; [exact Hem|].
        eapply emitted_trans; [exact Hem1|apply emitted_one]. }
      split; [rewrite existsb_app, Hv1; discriminate|]. intros _.
      split; [reflexivity|].
      split; [unfold count_events in *; rewrite List.filter_app; cbn;
              rewrite length_app, Hf1; reflexivity|].
      apply last_snoc.
    + rewrite (emitted_inj _ _ _ _ Hem Hem1).
      split; [rewrite Hv1; discriminate|]. intros _. now split.
Qed.

End ValidationProperties.

Section ComProperties.
Context `{ComServices}.

(** *** The cache scan, read by read *)

Lemma cache_loop_reads (pRCW pItfMT : Z) (n : nat) :
  forall (i : nat) (w : World),
    (exists k : nat,
       (k < n)%nat /\
       (forall j : nat, (j < k)%nat -> m_pMT (m_aInterfaceEntries w pRCW (i + j)) <> pItfMT) /\
       m_pMT (m_aInterfaceEntries w pRCW (i + k)) = pItfMT /\
       GetIUnknownFromRCWCache_loop pRCW pItfMT n i w
       = (Ret (m_pUnknown (m_aInterfaceEntries w pRCW (i + k))),
          set_trace (trace w ++ map (EvCacheRead pRCW) (seq i (S k))) w)) \/
    ((forall j : nat, (j < n)%nat -> m_pMT (m_aInterfaceEntries w pRCW (i + j)) <> pItfMT) /\
     GetIUnknownFromRCWCache_loop pRCW pItfMT n i w
     = (Ret NULL, set_trace (trace w ++ map (EvCacheRead pRCW) (seq i n)) w)).
Proof.
  induction n as [|n IH]; intros i w.
  - right. split; [intros j Hj; lia|]. cbn. unfold ret. now rewrite set_trace_nil.
  - cbn [GetIUnknownFromRCWCache_loop]. unfold read_InterfaceEntry. unfold_monad. cbn.
    destruct (Z.eqb_spec (m_pMT (m_aInterfaceEntries w pRCW i)) pItfMT) as [E|E].
    + left. exists 0%nat. rewrite Nat.add_0_r. repeat split; try assumption; lia.
    + destruct (IH (S i) (set_trace (trace w ++ [EvCacheRead pRCW i]) w))
        as [(k & Hk & Hbefore & Hat & Hrun)|(Hnone & Hrun)]; cbn in *.
      * left. exists (S k). split; [lia|].
        replace (i + S k)%nat with (S (i + k))%nat by lia.
        split; [|split; [exact Hat|]].
        { intros [|j] Hj; [now rewrite Nat.add_0_r|].
          replace (i + S j)%nat with (S (i + j))%nat by lia. apply Hbefore. lia. }
        rewrite Hrun. f_equal.
        exact (set_trace_app w [EvCacheRead pRCW i] (map (EvCacheRead pRCW) (seq (S i) (S k)))).
      * right. split.
        { intros [|j] Hj; [now rewrite Nat.add_0_r|].
          replace (i + S j)%nat with (S (i + j))%nat by lia. apply Hnone. lia. }
        rewrite Hrun. f_equal.
        exact (set_trace_app w [EvCacheRead pRCW i] (map (EvCacheRead pRCW) (seq (S i) n))).
Qed.

(** The lookup is the scan of the world with OLE TLS data, behind the
    context test. *)
Lemma rcw_cache_unfold (pRCW pItfMT : Z) (w : World) :
  GetCOMIPFromRCW_GetIUnknownFromRCWCache pRCW pItfMT w
  = (if (current_context w =? GetWrapperCtxCookie pRCW) || IsFreeThreaded pRCW
     then GetIUnknownFromRCWCache_loop pRCW pItfMT INTERFACE_ENTRY_CACHE_SIZE 0
     else ret NULL) (with_ole_tls w).
Proof.
  unfold GetCOMIPFromRCW_GetIUnknownFromRCWCache, GetOrCreateOleTlsData, bind,
    with_ole_tls, current_context.
  destruct (ReservedForOle w); reflexivity.
Qed.

Lemma with_ole_tls_cache (w : World) :
  m_aInterfaceEntries (with_ole_tls w) = m_aInterfaceEntries w.
Proof. unfold with_ole_tls. now destruct (ReservedForOle w). Qed.

Lemma with_ole_tls_trace (w : World) : trace (with_ole_tls w) = trace w.
Proof. unfold with_ole_tls. now destruct (ReservedForOle w). Qed.

Lemma with_ole_tls_context (w : World) :
  current_context (with_ole_tls w) = current_context w.
Proof.
  unfold with_ole_tls, current_context.
  destruct (ReservedForOle w) eqn:E; cbn; rewrite ?E; reflexivity.
Qed.

(** X12.  With the wrapper usable from the caller's context, the lookup reads
    the cache slots in order from slot 0 and stops at the first slot whose
    interface type matches: it returns what that slot holds (NULL included,
    later slots are not consulted) after exactly k+1 reads when the match is
    at slot k, and NULL after reading all INTERFACE_ENTRY_CACHE_SIZE slots
    when none matches. *)
Theorem RCWCache_first_match_wins (pRCW pItfMT : Z) (w w' : World) (o : Outcome Z)
    (evs : list Event) :
  IsFreeThreaded pRCW = true \/ current_context w = GetWrapperCtxCookie pRCW ->
  GetCOMIPFromRCW_GetIUnknownFromRCWCache pRCW pItfMT w = (o, w') ->
  emitted w w' evs ->
  (forall k : nat,
     (k < INTERFACE_ENTRY_CACHE_SIZE)%nat ->
     (forall j : nat, (j < k)%nat -> m_pMT (m_aInterfaceEntries w pRCW j) <> pItfMT) ->
     m_pMT (m_aInterfaceEntries w pRCW k) = pItfMT ->
     o = Ret (m_pUnknown (m_aInterfaceEntries w pRCW k)) /\
     evs = map (EvCacheRead pRCW) (seq 0 (S k))) /\
  ((forall j : nat, (j < INTERFACE_ENTRY_CACHE_SIZE)%nat ->
      m_pMT (m_aInterfaceEntries w pRCW j) <> pItfMT) ->
   o = Ret NULL /\
   evs = map (EvCacheRead pRCW) (seq 0 INTERFACE_ENTRY_CACHE_SIZE)).
Proof.
  intros Hgate Hrun Hem. rewrite rcw_cache_unfold in Hrun.
  assert (Hopen : (current_context w =? GetWrapperCtxCookie pRCW) || IsFreeThreaded pRCW = true).
  { destruct Hgate as [->| ->]; [apply orb_true_r|]. now rewrite Z.eqb_refl. }
  rewrite Hopen in Hrun.
  destruct (cache_loop_reads pRCW pItfMT INTERFACE_ENTRY_CACHE_SIZE 0 (with_ole_tls w))
    as [(k & Hk & Hbefore & Hat & Hloop)|(Hnone & Hloop)];
    rewrite Hloop in Hrun; injection Hrun as <- <-;
    rewrite with_ole_tls_cache in *; cbn [Nat.add] in *.
  all: match type of Hem with
       | emitted _ _ _ =>
           unfold emitted in Hem; cbn in Hem; rewrite with_ole_tls_trace in Hem;
           apply app_inv_head in Hem; subst evs
       end.
  - split.
    + intros k' Hk' Hbefore' Hat'.
      assert (k' = k) as ->.
      { destruct (Nat.lt_trichotomy k' k) as [Hlt|[Heq|Hlt]]; [|exact Heq|].
        - exfalso. exact (Hbefore k' Hlt Hat').
        - exfalso. exact (Hbefore' k Hlt Hat). }
      split; reflexivity.
    + intros Hnone. exfalso. exact (Hnone k Hk Hat).
  - split.
    + intros k Hk _ Hat. exfalso. exact (Hnone k Hk Hat).
    + intros _. split; reflexivity.
Qed.

(** *** Whole calls *)

Lemma current_context_ext (w1 w2 : World) :
  ReservedForOle w1 = ReservedForOle w2 -> current_context w1 = current_context w2.
Proof. unfold current_context. now intros ->. Qed.

Lemma with_ole_tls_frame (w : World) :
  s_ByrefValidationEntries (with_ole_tls w) = s_ByrefValidationEntries w /\
  s_ByrefValidationIndex (with_ole_tls w) = s_ByrefValidationIndex w /\
  out_pfNeedsRelease (with_ole_tls w) = out_pfNeedsRelease w.
Proof. unfold with_ole_tls. now destruct (ReservedForOle w). Qed.

Lemma count_clear_fp_reads (pRCW : Z) (l : list nat) :
  count_events is_clear_fp (map (EvCacheRead pRCW) l) = 0%nat.
Proof. unfold count_events. induction l as [|i l IH]; [reflexivity|exact IH]. Qed.

(** What the fast path leaves alone, and when it clears the FP state. *)
Lemma fast_frame (pSrc pMD : Z) (w wf : World) (hit : option Z) :
  GetCOMIPFromRCW_fast pSrc pMD w = (Ret hit, wf) ->
  s_ByrefValidationEntries wf = s_ByrefValidationEntries w /\
  s_ByrefValidationIndex wf = s_ByrefValidationIndex w /\
  out_pfNeedsRelease wf = out_pfNeedsRelease w /\
  m_aInterfaceEntries wf = m_aInterfaceEntries w /\
  current_context wf = current_context w /\
  (GetRawRCW pSrc = NULL -> wf = w) /\
  exists evs,
    emitted w wf evs /\
    count_events is_clear_fp evs
    = (if TARGET_X86 then match hit with Some _ => 1 | None => 0 end else 0)%nat.
Proof.
  unfold GetCOMIPFromRCW_fast.
  destruct (Z.eqb_spec (GetRawRCW pSrc) NULL) as [Enull|Ennull]; cbn [negb].
  { intros [= <- <-]. repeat split. exists []. split; [apply emitted_refl|].
    now destruct TARGET_X86. }
  set (pRCW := GetRawRCW pSrc) in *. set (itf := m_pInterfaceMT pMD).
  destruct (with_ole_tls_frame w) as (Fq & Fi & Ff).
  pose proof (with_ole_tls_cache w) as Fc.
  pose proof (with_ole_tls_context w) as Fx.
  pose proof (with_ole_tls_trace w) as Ft.
  unfold bind at 1. rewrite rcw_cache_unfold.
  assert (Hscan : exists (r : Z) (l : list nat),
            (if (current_context w =? GetWrapperCtxCookie pRCW) || IsFreeThreaded pRCW
             then GetIUnknownFromRCWCache_loop pRCW itf INTERFACE_ENTRY_CACHE_SIZE 0
             else ret NULL) (with_ole_tls w)
            = (Ret r, set_trace (trace (with_ole_tls w) ++ map (EvCacheRead pRCW) l)
                        (with_ole_tls w))).
  { destruct ((current_context w =? GetWrapperCtxCookie pRCW) || IsFreeThreaded pRCW).
    - destruct (cache_loop_reads pRCW itf INTERFACE_ENTRY_CACHE_SIZE 0 (with_ole_tls w))
        as [(k & _ & _ & _ & Hloop)|(_ & Hloop)]; rewrite Hloop; eauto.
    - exists NULL, []. unfold ret. cbn. now rewrite set_trace_nil. }
  destruct Hscan as (r & l & ->).
  unfold store_ppTarget, GetCOMIPFromRCW_ClearFP. unfold_monad.
  destruct (Z.eqb_spec r NULL) as [Er|Er]; cbn [negb].
  2: cbn; destruct (Z.eqb_spec (GetCOMIPFromRCW_GetTarget r pMD) NULL) as [Et|Et];
     cbn [negb]; [|destruct TARGET_X86 eqn:Ex86; cbn].
  all: intros [= <- <-]; cbn.
  all: split; [exact Fq|]; split; [exact Fi|]; split; [exact Ff|]; split; [exact Fc|].
  all: split; [etransitivity; [|exact Fx]; apply current_context_ext; reflexivity|].
  all: split; [intros Hn; contradiction|].
  all: eexists; split;
    [unfold emitted; cbn; rewrite Ft, <- ?app_assoc; cbn; reflexivity|].
  all: unfold count_events; rewrite ?List.filter_app, ?length_app;
    fold (count_events is_clear_fp (map (EvCacheRead pRCW) l));
    rewrite count_clear_fp_reads; cbn; rewrite ?Ex86; try reflexivity.
  all: now destruct TARGET_X86.
Qed.

(** What a whole call leaves alone, and when it clears the FP state. *)
Lemma call_frame (pSrcUNSAFE pMD : Z) (w w' : World) (o : Outcome Z) :
  GetCOMIPFromRCW pSrcUNSAFE pMD w = (o, w') ->
  o <> Fatal /\
  s_ByrefValidationEntries w' = s_ByrefValidationEntries w /\
  s_ByrefValidationIndex w' = s_ByrefValidationIndex w /\
  current_context w' = current_context w /\
  (out_pfNeedsRelease w' = false -> m_aInterfaceEntries w' = m_aInterfaceEntries w) /\
  exists evs,
    emitted w w' evs /\
    count_events is_clear_fp evs = (if TARGET_X86 && is_ret o then 1 else 0)%nat.
Proof.
  unfold GetCOMIPFromRCW, store_pfNeedsRelease. unfold_monad. cbn.
  set (w0 := set_pfNeedsRelease false (set_trace (trace w ++ [EvStoreNeedsRelease false]) w)).
  destruct (fast_run pSrcUNSAFE pMD w0) as (evs0 & wf & hit & Hrun & _).
  rewrite Hrun.
  destruct (fast_frame _ _ _ _ _ Hrun) as (Fq & Fi & Ff & Fc & Fx & _ & evs & Hem & Hfp).
  assert (Hem0 : emitted w wf (EvStoreNeedsRelease false :: evs)).
  { apply (emitted_trans w w0 wf [_] evs); [reflexivity|exact Hem]. }
  destruct hit as [pUnk|].
  - intros [= <- <-]. split; [discriminate|].
    split; [exact Fq|]. split; [exact Fi|]. split; [exact Fx|]. split; [intros _; exact Fc|].
    exists (EvStoreNeedsRelease false :: evs). split; [exact Hem0|].
    unfold count_events in *. cbn. rewrite Hfp. now destruct TARGET_X86.
  - unfold GetCOMIPFromRCWHelper, GetComIPFromRCWThrowing, store_ppTarget,
      GetCOMIPFromRCW_ClearFP. unfold_monad. cbn.
    assert (Hfp0 : count_events is_clear_fp (EvStoreNeedsRelease false :: evs) = 0%nat).
    { unfold count_events in *. cbn. rewrite Hfp. now destruct TARGET_X86. }
    destruct (resolveInterface pSrcUNSAFE (m_pInterfaceMT pMD)) as [p|hr]; cbn.
    2:{ intros [= <- <-]; cbn. split; [discriminate|].
        split; [exact Fq|]. split; [exact Fi|].
        split; [etransitivity; [|exact Fx]; apply current_context_ext; reflexivity|].
        split; [discriminate|].
        eexists. split; [eapply emitted_trans; [exact Hem0|]; unfold emitted; cbn;
                         rewrite <- ?app_assoc; reflexivity|].
        unfold count_events in *. rewrite List.filter_app, length_app, Hfp0.
        cbn. now rewrite andb_false_r. }
    destruct (Z.eqb_spec (GetRawRCW pSrcUNSAFE) NULL) as [En|En]; cbn;
      destruct TARGET_X86; cbn; intros [= <- <-]; cbn.
    all: split; [discriminate|].
    all: split; [exact Fq|]; split; [exact Fi|].
    all: split; [etransitivity; [|exact Fx]; apply current_context_ext; reflexivity|].
    all: split; [discriminate|].
    all: eexists; split;
      [eapply emitted_trans; [exact Hem0|]; unfold emitted; cbn;
       rewrite <- ?app_assoc; reflexivity|].
    all: unfold count_events in *; rewrite List.filter_app, length_app, Hfp0; reflexivity.
Qed.


(** X14.  The FP state is cleared exactly once on every path that returns a
    pointer when the target is x86, and never otherwise: not on other
    targets, and not when the call throws. *)
Theorem GetCOMIPFromRCW_clears_fp_once (pSrcUNSAFE pMD : Z) (w w' : World)
    (o : Outcome Z) (evs : list Event) :
  GetCOMIPFromRCW pSrcUNSAFE pMD w = (o, w') ->
  emitted w w' evs ->
  count_events is_clear_fp evs = (if TARGET_X86 && is_ret o then 1 else 0)%nat.
Proof.
  intros Hrun Hem. destruct (call_frame _ _ _ _ _ Hrun) as (_ & _ & _ & _ & _ & evs' & Hem' & Hfp).
  now rewrite (emitted_inj _ _ _ _ Hem Hem').
Qed.

(** X15.  Whenever GetCOMIPFromRCW returns a pointer, the call target it
    stored through ppTarget is the dispatch slot of that very pointer at the
    call site's cached slot index, on the fast path and on the slow path
    alike; a borrowed pointer (flag false) is non-null and so is its target. *)
Theorem GetCOMIPFromRCW_target_of_returned_pointer (pSrcUNSAFE pMD : Z) (w w' : World)
    (p : Z) :
  GetCOMIPFromRCW pSrcUNSAFE pMD w = (Ret p, w') ->
  out_ppTarget w' = GetCOMIPFromRCW_GetTarget p pMD /\
  (out_pfNeedsRelease w' = false -> p <> NULL /\ out_ppTarget w' <> NULL).
Proof.
  intros Hrun.
  apply GetCOMIPFromRCW_run in Hrun
    as (evs_fast & _ & [(q & Hhit & Hq & _ & Hflag & Ht)
                       |(_ & evs_slow & _ & _ & Hflag & Hres)]).
  - injection Hq as ->. split; [exact Ht|]. intros _.
    destruct Hhit as (_ & _ & _ & Hp & Htn). rewrite Ht. now split.
  - destruct (resolveInterface pSrcUNSAFE (m_pInterfaceMT pMD)) as [q|hr].
    + destruct Hres as (Hq & Ht & _). injection Hq as ->.
      split; [exact Ht|]. rewrite Hflag. discriminate.
    + discriminate.
Qed.

(** X16.  A hit is repeatable: the fast path changes neither the wrapper's
    cache nor the caller's context, so after a call that hit for [pUnk] the
    next call for the same object and call site hits for [pUnk] again,
    returning it borrowed without a resolver call. *)
Theorem GetCOMIPFromRCW_hit_twice (pSrcUNSAFE pMD pUnk : Z) (w w1 w2 : World)
    (o1 o2 : Outcome Z) (evs2 : list Event) :
  fast_path_hit w pSrcUNSAFE pMD pUnk ->
  GetCOMIPFromRCW pSrcUNSAFE pMD w = (o1, w1) ->
  GetCOMIPFromRCW pSrcUNSAFE pMD w1 = (o2, w2) ->
  emitted w1 w2 evs2 ->
  o1 = Ret pUnk /\ o2 = Ret pUnk /\
  out_pfNeedsRelease w2 = false /\
  existsb is_resolver_call evs2 = false.
Proof.
  intros Hhit Hrun1 Hrun2 Hem2.
  destruct (call_frame _ _ _ _ _ Hrun1) as (_ & _ & _ & Fx & Fc & _).
  apply GetCOMIPFromRCW_run in Hrun1
    as (ef1 & _ & [(q & Hhit1 & -> & _ & Hflag1 & _)|(Hmiss & _)]);
    [|exfalso; exact (Hmiss pUnk Hhit)].
  assert (q = pUnk) as ->.
  { destruct Hhit as (_ & _ & Hc & _), Hhit1 as (_ & _ & Hc1 & _).
    exact (cache_entry_for_unique _ _ _ _ _ Hc1 Hc). }
  assert (Hhit2 : fast_path_hit w1 pSrcUNSAFE pMD pUnk).
  { destruct Hhit as (Hn & Hg & (i & Hi & Hb & Hat & Hu) & Hp & Ht).
    unfold fast_path_hit, cache_entry_for. rewrite Fx, (Fc Hflag1).
    split; [exact Hn|]. split; [exact Hg|]. split; [|split; assumption].
    exists i. repeat split; assumption. }
  apply GetCOMIPFromRCW_run in Hrun2
    as (ef2 & Hq2 & [(q & Hhit2' & -> & Hem2' & Hflag2 & _)|(Hmiss & _)]);
    [|exfalso; exact (Hmiss pUnk Hhit2)].
  assert (q = pUnk) as ->.
  { destruct Hhit2 as (_ & _ & Hc & _), Hhit2' as (_ & _ & Hc1 & _).
    exact (cache_entry_for_unique _ _ _ _ _ Hc1 Hc). }
  split; [reflexivity|]. split; [reflexivity|]. split; [exact Hflag2|].
  rewrite (emitted_inj _ _ _ _ Hem2 Hem2'). cbn.
  now destruct (quiet_no_resolver _ Hq2) as (_ & Hnr & _).
Qed.

(** X17.  An object without an RCW never reaches the cache: the call sets
    the flag to false, then to true, and calls the resolver, without reading
    any cache slot or the thread's OLE TLS data. *)
Theorem GetCOMIPFromRCW_without_rcw (pSrcUNSAFE pMD : Z) (w w' : World)
    (o : Outcome Z) (evs : list Event) :
  GetRawRCW pSrcUNSAFE = NULL ->
  GetCOMIPFromRCW pSrcUNSAFE pMD w = (o, w') ->
  emitted w w' evs ->
  ReservedForOle w' = ReservedForOle w /\
  out_pfNeedsRelease w' = true /\
  (forall pRCW i, ~ In (EvCacheRead pRCW i) evs) /\
  exists rest,
    evs = EvStoreNeedsRelease false :: EvStoreNeedsRelease true ::
          EvGetComIPFromRCWThrowing pSrcUNSAFE (m_pInterfaceMT pMD) :: rest.
Proof.
  intros Hnull. unfold GetCOMIPFromRCW, GetCOMIPFromRCW_fast, store_pfNeedsRelease,
    GetCOMIPFromRCWHelper, GetComIPFromRCWThrowing, store_ppTarget, GetCOMIPFromRCW_ClearFP.
  rewrite Hnull. unfold_monad. cbn.
  destruct (resolveInterface pSrcUNSAFE (m_pInterfaceMT pMD)) as [p|hr]; cbn;
    [destruct TARGET_X86; cbn|].
  all: intros [= <- <-] Hem; unfold emitted in Hem; cbn in Hem;
    rewrite <- ?app_assoc in Hem; cbn in Hem; apply app_inv_head in Hem; subst evs; cbn.
  all: split; [reflexivity|]; split; [reflexivity|].
  all: split; [intros pRCW i Hin; repeat (destruct Hin as [Hin|Hin]; [discriminate|]);
               exact Hin|].
  all: eexists; reflexivity.
Qed.

End ComProperties.

Section VariantProperties.

Lemma land_VT_BYREF (vt : Z) :
  Z.land vt VT_BYREF = 0 <-> Z.testbit vt 14 = false.
Proof.
  change VT_BYREF with (2 ^ 14). split.
  - intros Hz. apply (f_equal (fun x => Z.testbit x 14)) in Hz.
    rewrite Z.land_spec, Z.pow2_bits_true, andb_true_r in Hz by lia.
    rewrite Hz. apply Z.bits_0.
  - intros Hbit. apply Z.bits_inj'. intros n Hn.
    rewrite Z.land_spec, Z.bits_0, Z.pow2_bits_eqb by lia.
    destruct (Z.eqb_spec 14 n) as [<-|Hne]; [now rewrite Hbit|apply andb_false_r].
Qed.

(** X20.  ObjectMarshaler_ConvertToNative marshals by reference exactly when
    bit 14 (VT_BYREF) of vt is set, whatever the other bits say: setting
    VT_BYREF on any VARTYPE selects MarshalOleRefVariantForObject, and a
    VARTYPE below 0x4000 selects MarshalOleVariantForObject. *)
Theorem ObjectMarshaler_ConvertToNative_by_ref_bit (vt : Z) :
  0 <= vt ->
  (ObjectMarshaler_ConvertToNative vt = MarshalOleRefVariantForObject
     <-> Z.testbit vt 14 = true) /\
  ObjectMarshaler_ConvertToNative (Z.lor vt VT_BYREF) = MarshalOleRefVariantForObject /\
  (vt < VT_BYREF -> ObjectMarshaler_ConvertToNative vt = MarshalOleVariantForObject).
Proof.
  intros Hvt. unfold ObjectMarshaler_ConvertToNative.
  split; [|split].
  - destruct (Z.eqb_spec (Z.land vt VT_BYREF) 0) as [E|E]; cbn [negb].
    + apply land_VT_BYREF in E. rewrite E. split; discriminate.
    + split; [intros _|reflexivity].
      destruct (Z.testbit vt 14) eqn:Hbit; [reflexivity|].
      exfalso. apply E. now apply land_VT_BYREF.
  - destruct (Z.eqb_spec (Z.land (Z.lor vt VT_BYREF) VT_BYREF) 0) as [E|E]; [|reflexivity].
    apply land_VT_BYREF in E. rewrite Z.lor_spec in E.
    change VT_BYREF with (2 ^ 14) in E. rewrite Z.pow2_bits_true, orb_true_r in E by lia.
    discriminate.
  - intros Hlt.
    destruct (Z.eqb_spec (Z.land vt VT_BYREF) 0) as [E|E]; [reflexivity|].
    exfalso. apply E, land_VT_BYREF.
    apply Z.bits_above_log2; [exact Hvt|].
    destruct (Z.eq_dec vt 0) as [->|Hnz]; [reflexivity|].
    apply Z.log2_lt_pow2; [lia|]. exact Hlt.
Qed.

End VariantProperties.

(** * The properties at the sample inputs *)

(** Closes a closed equation by evaluating both sides. *)
Ltac by_evaluation := vm_compute; reflexivity.

Lemma ValidateByref_outside_heap_noop_witness :
  isPointerInManagedHeap (HeapServices := demoH) 0x5000 = false /\
  ValidateByref (H := demoH) 0x5000 0x9000 NULL fullQueue = (Ret tt, fullQueue).
Proof.
  assert (Hout : isPointerInManagedHeap (HeapServices := demoH) 0x5000 = false)
    by by_evaluation.
  split; [exact Hout|].
  exact (ValidateByref_outside_heap_noop (H := demoH) 0x5000 0x9000 NULL fullQueue Hout).
Defined.

Lemma ValidateByref_high_water_mark_witness :
  ValidateByref (H := demoH) 0x1810 0x9000 NULL fullQueue
    = (Ret tt, snd enqueueOnFull) /\
  s_ByrefValidationIndex (snd enqueueOnFull) = 3 /\
  emitted fullQueue (snd enqueueOnFull) [EvGarbageCollect 0].
Proof.
  assert (Hrun : ValidateByref (H := demoH) 0x1810 0x9000 NULL fullQueue
    = (Ret tt, snd enqueueOnFull)) by by_evaluation.
  assert (Hheap : isPointerInManagedHeap (HeapServices := demoH) 0x1810 = true)
    by by_evaluation.
  assert (Hcount : s_ByrefValidationIndex (snd enqueueOnFull) = 3) by by_evaluation.
  split; [exact Hrun|]. split; [exact Hcount|].
  destruct (ValidateByref_high_water_mark (H := demoH) 0x1810 0x9000 NULL
              fullQueue (snd enqueueOnFull) (Ret tt) Hrun) as [Happ _].
  destruct (Happ Hheap eq_refl) as [_ Hgc]. apply Hgc.
  rewrite Hcount. by_evaluation.
Defined.

Lemma ValidateByref_full_queue_grows_witness :
  isPointerInManagedHeap (HeapServices := demoH) 0x1810 = true /\
  s_ByrefValidationIndex fullQueue = qa_size (s_ByrefValidationEntries fullQueue) /\
  ValidateByref (H := demoH) 0x1810 0x9000 NULL fullQueue
    = (Ret tt, snd enqueueOnFull) /\
  qa_size (s_ByrefValidationEntries (snd enqueueOnFull)) = 5 /\
  qa_data (s_ByrefValidationEntries (snd enqueueOnFull)) 1
    = qa_data (s_ByrefValidationEntries fullQueue) 1 /\
  qa_data (s_ByrefValidationEntries (snd enqueueOnFull)) 2 = mkEntry 0x1810 0x9000.
Proof.
  assert (Hheap : isPointerInManagedHeap (HeapServices := demoH) 0x1810 = true)
    by by_evaluation.
  assert (Hfull : s_ByrefValidationIndex fullQueue
                  = qa_size (s_ByrefValidationEntries fullQueue)) by by_evaluation.
  assert (Hrun : ValidateByref (H := demoH) 0x1810 0x9000 NULL fullQueue
    = (Ret tt, snd enqueueOnFull)) by by_evaluation.
  split; [exact Hheap|]. split; [exact Hfull|]. split; [exact Hrun|].
  destruct (ValidateByref_full_queue_grows (H := demoH) 0x1810 0x9000 NULL
              fullQueue (snd enqueueOnFull) (Ret tt) Hheap Hfull Hrun)
    as (Hkeep & _ & Hgrow & _).
  assert (Hfits : 2 * qa_size (s_ByrefValidationEntries fullQueue) + 1
                  <= SIZE_T_MAX (HeapServices := demoH)) by (vm_compute; discriminate).
  assert (Halloc : allocSucceeds (HeapServices := demoH)
                     (2 * qa_size (s_ByrefValidationEntries fullQueue) + 1) = true)
    by by_evaluation.
  destruct (Hgrow Hfits Halloc) as (_ & Hsize & Hnew).
  split; [exact Hsize|]. split; [|exact Hnew].
  apply Hkeep. split; [vm_compute; discriminate|by_evaluation].
Defined.

Lemma ValidateObjectInternal_next_object_read_once_witness :
  validates (HeapServices := demoH) 0x1600 true false true = true /\
  nextObjectAfter (HeapServices := demoH) 0x1600 <> NULL /\
  ValidateObjectInternal (H := demoH) 0x1600 true emptyWorld
    = (Ret tt, snd validateSound) /\
  exists evs,
    emitted emptyWorld (snd validateSound) evs /\
    List.filter is_method_table_load evs = [EvLoadMethodTable 0x1700 0x8700] /\
    In (EvValidate 0x1700 true false false) evs.
Proof.
  assert (Hobj : validates (HeapServices := demoH) 0x1600 true false true = true)
    by by_evaluation.
  assert (Hnext : nextObjectAfter (HeapServices := demoH) 0x1600 <> NULL)
    by (vm_compute; discriminate).
  assert (Hrun : ValidateObjectInternal (H := demoH) 0x1600 true emptyWorld
    = (Ret tt, snd validateSound)) by by_evaluation.
  split; [exact Hobj|]. split; [exact Hnext|]. split; [exact Hrun|].
  destruct (ValidateObjectInternal_next_object_read_once (H := demoH) 0x1600
              emptyWorld (snd validateSound) (Ret tt) (or_intror Hobj) Hnext Hrun)
    as (evs & Hem & Hload & _ & Hval).
  exists evs. split; [exact Hem|]. split; [exact Hload|].
  apply Hval. split; vm_compute; discriminate.
Defined.

Lemma ValidateObject_neighbor_iff_no_concurrent_gc_witness :
  validates (HeapServices := demoH) 0x1600 true false true = true /\
  ValidateObject (H := demoH) 0x1600 0x9000 NULL emptyWorld
    = (Ret tt, snd validateNow) /\
  concurrentGC emptyWorld = false /\
  exists evs, emitted emptyWorld (snd validateNow) evs /\ In (EvNextObj 0x1600) evs.
Proof.
  assert (Hobj : validates (HeapServices := demoH) 0x1600 true false true = true)
    by by_evaluation.
  assert (Hrun : ValidateObject (H := demoH) 0x1600 0x9000 NULL emptyWorld
    = (Ret tt, snd validateNow)) by by_evaluation.
  split; [exact Hobj|]. split; [exact Hrun|]. split; [reflexivity|].
  destruct (ValidateObject_neighbor_iff_no_concurrent_gc (H := demoH) 0x1600 0x9000 NULL
              emptyWorld (snd validateNow) (Ret tt) (or_intror Hobj) Hrun)
    as (evs & Hem & Hiff & _).
  exists evs. split; [exact Hem|]. apply Hiff. reflexivity.
Defined.

Lemma ProcessByrefValidationList_visits_all_or_terminates_witness :
  ProcessByrefValidationList (H := demoH) (queueWorld 4 soundEntries)
    = (Ret tt, snd drainSound) /\
  emitted (queueWorld 4 soundEntries) (snd drainSound) (trace (snd drainSound)) /\
  existsb (failed_validation (H := demoH)) (trace (snd drainSound)) = false /\
  s_ByrefValidationIndex (snd drainSound) = 0 /\
  resolved_pointers (trace (snd drainSound)) = [0x1420; 0x1610] /\
  ProcessByrefValidationList (H := demoH) (queueWorld 4 corruptEntries)
    = (Fatal, snd drainCorrupt) /\
  emitted (queueWorld 4 corruptEntries) (snd drainCorrupt) (trace (snd drainCorrupt)) /\
  existsb (failed_validation (H := demoH)) (trace (snd drainCorrupt)) = true /\
  s_ByrefValidationIndex (snd drainCorrupt)
    = s_ByrefValidationIndex (queueWorld 4 corruptEntries) /\
  exists (evs_before evs_entry : list Event) (msg : option string),
    trace (snd drainCorrupt)
      = evs_before ++ evs_entry ++ [EvFatalError COR_E_EXECUTIONENGINE msg] /\
    existsb (failed_validation (H := demoH)) evs_before = false /\
    length (resolved_pointers evs_entry) = 1%nat /\
    exists x d h s,
      last evs_entry = Some (EvValidate x d h s) /\
      validates (HeapServices := demoH) x d h s = false.
Proof.
  assert (Hrun : ProcessByrefValidationList (H := demoH) (queueWorld 4 soundEntries)
    = (Ret tt, snd drainSound)) by by_evaluation.
  assert (Hem : emitted (queueWorld 4 soundEntries) (snd drainSound) (trace (snd drainSound)))
    by by_evaluation.
  assert (Hpassed : existsb (failed_validation (H := demoH)) (trace (snd drainSound)) = false)
    by by_evaluation.
  assert (Hrun' : ProcessByrefValidationList (H := demoH) (queueWorld 4 corruptEntries)
    = (Fatal, snd drainCorrupt)) by by_evaluation.
  assert (Hem' : emitted (queueWorld 4 corruptEntries) (snd drainCorrupt)
                   (trace (snd drainCorrupt))) by by_evaluation.
  assert (Hfailed : existsb (failed_validation (H := demoH)) (trace (snd drainCorrupt)) = true)
    by by_evaluation.
  split; [exact Hrun|]. split; [exact Hem|]. split; [exact Hpassed|].
  destruct (ProcessByrefValidationList_visits_all_or_terminates (H := demoH)
              (queueWorld 4 soundEntries) (snd drainSound) (Ret tt)
              (trace (snd drainSound)) Hrun Hem) as [Hpass _].
  destruct (Hpass Hpassed) as (_ & Hcount & Hres & _).
  split; [exact Hcount|]. split; [rewrite Hres; by_evaluation|].
  split; [exact Hrun'|]. split; [exact Hem'|]. split; [exact Hfailed|].
  destruct (ProcessByrefValidationList_visits_all_or_terminates (H := demoH)
              (queueWorld 4 corruptEntries) (snd drainCorrupt) Fatal
              (trace (snd drainCorrupt)) Hrun' Hem') as [_ Hfail].
  destruct (Hfail Hfailed)
    as (_ & Hkept & k & ea & eb & msg & _ & Heq & _ & _ & Hclean & _ & Hone & _ & Hlast & _).
  split; [exact Hkept|].
  exists ea, eb, msg. split; [exact Heq|]. split; [exact Hclean|].
  split; [rewrite Hone; reflexivity|].
  destruct Hlast as (x & d & h & s & Hlast & Hbad & _).
  exists x, d, h, s. split; [exact Hlast|exact Hbad].
Defined.

Lemma ProcessByrefValidationList_failure_is_fatal_witness :
  ProcessByrefValidationList (H := demoH) (queueWorld 4 corruptCalliEntries)
    = (Fatal, snd drainCorruptCalli) /\
  emitted (queueWorld 4 corruptCalliEntries) (snd drainCorruptCalli)
    (trace (snd drainCorruptCalli)) /\
  existsb (failed_validation (H := demoH)) (trace (snd drainCorruptCalli)) = true /\
  count_events is_fatal_error (trace (snd drainCorruptCalli)) = 1%nat /\
  last (trace (snd drainCorruptCalli))
    = Some (EvFatalError COR_E_EXECUTIONENGINE
              (Some "Detected managed heap corruption, likely culprit is interop call through CALLI.")).
Proof.
  assert (Hrun : ProcessByrefValidationList (H := demoH) (queueWorld 4 corruptCalliEntries)
    = (Fatal, snd drainCorruptCalli)) by by_evaluation.
  assert (Hem : emitted (queueWorld 4 corruptCalliEntries) (snd drainCorruptCalli)
                  (trace (snd drainCorruptCalli))) by by_evaluation.
  assert (Hfailed : existsb (failed_validation (H := demoH))
                      (trace (snd drainCorruptCalli)) = true) by by_evaluation.
  assert (Hseen : resolved_pointers (trace (snd drainCorruptCalli)) = [0x1420; 0x1310])
    by by_evaluation.
  split; [exact Hrun|]. split; [exact Hem|]. split; [exact Hfailed|].
  destruct (ProcessByrefValidationList_failure_is_fatal (H := demoH)
              (queueWorld 4 corruptCalliEntries) (snd drainCorruptCalli) Fatal
              (trace (snd drainCorruptCalli)) Hrun Hem Hfailed)
    as (_ & Hone & k & ea & eb & msg & Hk & Heq & _ & Hra & _ & Hrb & _ & _ & Hmsg).
  split; [exact Hone|].
  destruct Hmsg as (_ & Hall & _).
  assert (Hk2 : (k < 2)%nat) by exact Hk.
  rewrite Heq, !resolved_pointers_app, Hra, Hrb in Hseen.
  rewrite Heq, app_assoc, last_snoc, (Hall (fun a b => eq_refl)).
  destruct k as [|[|k]].
  - vm_compute in Hseen. discriminate Hseen.
  - by_evaluation.
  - exfalso. lia.
Defined.


Lemma GetCOMIPFromRCW_fast_or_slow_witness :
  GetCOMIPFromRCW (H := demoCom) 0x3100 0x9200 cachedWorld
    = (Ret 0x5000, snd callCached) /\
  emitted cachedWorld (snd callCached) (trace (snd callCached)) /\
  out_pfNeedsRelease (snd callCached) = false /\
  count_events is_resolver_call (trace (snd callCached)) = 0%nat.
Proof.
  assert (Hrun : GetCOMIPFromRCW (H := demoCom) 0x3100 0x9200 cachedWorld
    = (Ret 0x5000, snd callCached)) by by_evaluation.
  assert (Hem : emitted cachedWorld (snd callCached) (trace (snd callCached)))
    by by_evaluation.
  split; [exact Hrun|]. split; [exact Hem|].
  destruct (GetCOMIPFromRCW_fast_or_slow (H := demoCom) 0x3100 0x9200 cachedWorld
              (snd callCached) (Ret 0x5000) (trace (snd callCached)) Hrun Hem)
    as (Hfast & _).
  assert (Hhit : fast_path_hit (H := demoCom) cachedWorld 0x3100 0x9200 0x5000).
  { split; [vm_compute; discriminate|]. split; [right; by_evaluation|].
    split; [|split; vm_compute; discriminate].
    exists 2%nat. split; [repeat constructor|]. split; [|split; by_evaluation].
    intros [|[|j]] Hj; [vm_compute; discriminate|vm_compute; discriminate|].
    exfalso. apply Nat.succ_lt_mono, Nat.succ_lt_mono in Hj. exact (Nat.nlt_0_r j Hj). }
  destruct (Hfast _ Hhit) as (_ & Hflag & _ & Hcount). split; assumption.
Defined.

Lemma GetCOMIPFromRCW_ownership_flag_witness :
  GetCOMIPFromRCW (H := demoCom) 0x3100 0x9100 cachedWorld
    = (Throw (HRException 0x80004002), snd callFailing) /\
  emitted cachedWorld (snd callFailing) (trace (snd callFailing)) /\
  head (trace (snd callFailing)) = Some (EvStoreNeedsRelease false) /\
  out_pfNeedsRelease (snd callFailing) = true.
Proof.
  assert (Hrun : GetCOMIPFromRCW (H := demoCom) 0x3100 0x9100 cachedWorld
    = (Throw (HRException 0x80004002), snd callFailing))
    by by_evaluation.
  assert (Hem : emitted cachedWorld (snd callFailing) (trace (snd callFailing)))
    by by_evaluation.
  split; [exact Hrun|]. split; [exact Hem|].
  destruct (GetCOMIPFromRCW_ownership_flag (H := demoCom) 0x3100 0x9100 cachedWorld
              (snd callFailing) (Throw (HRException 0x80004002)) (trace (snd callFailing))
              Hrun Hem) as (Hhead & Hflag & _).
  split; [exact Hhead|]. rewrite Hflag. by_evaluation.
Defined.

(** ** Where the specification's reading of the drain fails

    C1 as stated ("every live entry is resolved and validated, and the
    live-count is 0 afterwards whether or not validation failed") does not
    hold for a queue whose first entry points into a corrupt object: the run
    ends in the fatal error raised for that entry, the second entry is never
    resolved, and the live-count is still 2. *)
Lemma ProcessByrefValidationList_failure_keeps_count :
  fst drainCorrupt = Fatal /\
  s_ByrefValidationIndex (snd drainCorrupt) = 2 /\
  resolved_pointers (trace (snd drainCorrupt)) = [0x1310] /\
  ~ (s_ByrefValidationIndex (snd drainCorrupt) = 0 /\
     resolved_pointers (trace (snd drainCorrupt))
       = map pByref (live_entries (queueWorld 4 corruptEntries))).
Proof.
  split; [vm_compute; reflexivity|]. split; [vm_compute; reflexivity|]. split; [vm_compute; reflexivity|].
  intros [Hzero _]. discriminate Hzero.
Qed.

(** ** Further runs on the sample host *)

(** A capacity of 2^63 cannot be doubled within a 64-bit SIZE_T: the enqueue
    throws COR_E_OVERFLOW and the queue is as before. *)
Example ValidateByref_overflow_run :
  ValidateByref (H := demoH) 0x1810 0x9000 NULL hugeQueue
  = (Throw (HRException COR_E_OVERFLOW), hugeQueue).
Proof. vm_compute. reflexivity. Qed.

(** Below the high-water mark no collection is requested. *)
Example ValidateByref_below_mark_run :
  trace (snd (ValidateByref (H := demoH) 0x1810 0x9000 NULL (queueWorld 2 []))) = [] /\
  s_ByrefValidationIndex (snd (ValidateByref (H := demoH) 0x1810 0x9000 NULL (queueWorld 2 [])))
  = 1.
Proof. split; vm_compute; reflexivity. Qed.

(** The diagnostic for a known call site names class and method. *)
Example drainCorrupt_message :
  last (trace (snd drainCorrupt))
  = Some (EvFatalError COR_E_EXECUTIONENGINE
            (Some "Detected managed heap corruption, likely culprit is interop call through method 'Interop.Native.Fill'.")).
Proof. vm_compute. reflexivity. Qed.

(** For an entry recorded without a MethodDesc it says CALLI. *)
Example drainCorruptCalli_message :
  last (trace (snd drainCorruptCalli))
  = Some (EvFatalError COR_E_EXECUTIONENGINE
            (Some "Detected managed heap corruption, likely culprit is interop call through CALLI.")).
Proof. vm_compute. reflexivity. Qed.

(** When the message cannot be built the fatal error is raised without one. *)
Example drain_format_failure_run :
  ProcessByrefValidationList (H := demoHeap neverAppend) (queueWorld 4 corruptEntries)
  = (Fatal,
     set_trace [EvGetContainingObject 0x1310; EvValidate 0x1300 true false true;
                EvFatalError COR_E_EXECUTIONENGINE None]
               (queueWorld 4 corruptEntries)).
Proof. vm_compute. reflexivity. Qed.

(** A second drain right after a first one does nothing. *)
Example drain_twice_run :
  ProcessByrefValidationList (H := demoH) (snd drainSound) = (Ret tt, snd drainSound).
Proof. vm_compute. reflexivity. Qed.

(** The word at offset 0 of the object at 0x1500 reads as the free-object
    marker on the first load and as NULL on the next: either way the
    neighbour is left alone, after one load. *)
Example ValidateObjectInternal_transient_neighbour_run :
  trace (snd (ValidateObjectInternal (H := demoH) 0x1400 true emptyWorld))
  = [EvValidate 0x1400 true false true; EvNextObj 0x1400; EvLoadMethodTable 0x1500 0x7F00] /\
  trace (snd (ValidateObjectInternal (H := demoH) 0x1400 true (set_loads 1 emptyWorld)))
  = [EvValidate 0x1400 true false true; EvNextObj 0x1400; EvLoadMethodTable 0x1500 NULL].
Proof. split; vm_compute; reflexivity. Qed.

(** During a concurrent collection ValidateObject looks at the object only. *)
Example ValidateObject_concurrent_gc_run :
  ValidateObject (H := demoH) 0x1600 0x9000 NULL
    (mkWorld (s_ByrefValidationEntries emptyWorld) 0 true 0%nat
             (ReservedForOle emptyWorld) (m_aInterfaceEntries emptyWorld)
             0xDEAD true [])
  = (Ret tt,
     mkWorld (s_ByrefValidationEntries emptyWorld) 0 true 0%nat
             (ReservedForOle emptyWorld) (m_aInterfaceEntries emptyWorld)
             0xDEAD true [EvValidate 0x1600 true false true]).
Proof. vm_compute. reflexivity. Qed.

(** From another context the cache of an apartment-bound wrapper is not
    read, and the call goes to the resolver, which refreshes the cache. *)
Example GetCOMIPFromRCW_other_context_run :
  fst (GetCOMIPFromRCW (H := demoCom) 0x3100 0x9200 otherContextWorld) = Ret 0xC301 /\
  trace (snd (GetCOMIPFromRCW (H := demoCom) 0x3100 0x9200 otherContextWorld))
  = [EvStoreNeedsRelease false; EvStoreNeedsRelease true;
     EvGetComIPFromRCWThrowing 0x3100 0x9201; EvStoreTarget 0xC319] /\
  out_pfNeedsRelease (snd (GetCOMIPFromRCW (H := demoCom) 0x3100 0x9200 otherContextWorld))
  = true /\
  m_aInterfaceEntries (snd (GetCOMIPFromRCW (H := demoCom) 0x3100 0x9200 otherContextWorld))
    0x13100 0%nat = mkInterfaceEntry 0x9201 0xC301.
Proof. repeat split; vm_compute; reflexivity. Qed.

(** * The further properties at the sample inputs *)

Ltac by_comparison := vm_compute; discriminate.

Lemma demo_fullQueue_wf : queue_wf (H := demoH) fullQueue.
Proof. repeat split; by_comparison. Defined.

Lemma demo_emptyWorld_wf : queue_wf (H := demoH) emptyWorld.
Proof. repeat split; by_comparison. Defined.

Lemma demo_singleQueue_wf : queue_wf (H := demoH) singleQueue.
Proof. repeat split; by_comparison. Defined.

Lemma demo_spareQueue_wf : queue_wf (H := demoH) spareQueue.
Proof. repeat split; by_comparison. Defined.

Lemma ValidateByref_keeps_queue_wf_witness :
  queue_wf (H := demoH) fullQueue /\
  ValidateByref (H := demoH) 0x1810 0x9000 NULL fullQueue = (Ret tt, snd enqueueOnFull) /\
  queue_wf (H := demoH) (snd enqueueOnFull).
Proof.
  assert (Hrun : ValidateByref (H := demoH) 0x1810 0x9000 NULL fullQueue
                 = (Ret tt, snd enqueueOnFull)) by by_evaluation.
  split; [exact demo_fullQueue_wf|]. split; [exact Hrun|].
  exact (ValidateByref_keeps_queue_wf (H := demoH) 0x1810 0x9000 NULL fullQueue
           (snd enqueueOnFull) (Ret tt) demo_fullQueue_wf Hrun).
Defined.

Lemma ValidateByref_never_shrinks_or_overwrites_witness :
  0 <= s_ByrefValidationIndex fullQueue /\
  ValidateByref (H := demoH) 0x1810 0x9000 NULL fullQueue = (Ret tt, snd enqueueOnFull) /\
  qa_size (s_ByrefValidationEntries fullQueue)
    <= qa_size (s_ByrefValidationEntries (snd enqueueOnFull)) /\
  qa_data (s_ByrefValidationEntries (snd enqueueOnFull)) 0
    = qa_data (s_ByrefValidationEntries fullQueue) 0.
Proof.
  assert (Hidx : 0 <= s_ByrefValidationIndex fullQueue) by by_comparison.
  assert (Hrun : ValidateByref (H := demoH) 0x1810 0x9000 NULL fullQueue
                 = (Ret tt, snd enqueueOnFull)) by by_evaluation.
  split; [exact Hidx|]. split; [exact Hrun|].
  destruct (ValidateByref_never_shrinks_or_overwrites (H := demoH) 0x1810 0x9000 NULL
              fullQueue (snd enqueueOnFull) (Ret tt) Hidx Hrun) as (Hsize & Hkeep & _).
  split; [exact Hsize|]. apply Hkeep. by_comparison.
Defined.

Lemma ValidateByref_appends_one_entry_witness :
  queue_wf (H := demoH) singleQueue /\
  s_ByrefValidationIndex singleQueue + 1
    <= BYREF_VALIDATION_LIST_MAX_SIZE (HeapServices := demoH) /\
  isPointerInManagedHeap (HeapServices := demoH) 0x1610 = true /\
  ValidateByref (H := demoH) 0x1610 NULL NULL singleQueue = (Ret tt, snd enqueueOnSingle) /\
  emitted singleQueue (snd enqueueOnSingle) [] /\
  s_ByrefValidationIndex (snd enqueueOnSingle) = s_ByrefValidationIndex singleQueue + 1 /\
  live_entries (snd enqueueOnSingle)
    = live_entries singleQueue
      ++ [mkEntry 0x1610 (ResolveInteropMethod (H := demoH) NULL NULL)].
Proof.
  assert (Hmark : s_ByrefValidationIndex singleQueue + 1
                  <= BYREF_VALIDATION_LIST_MAX_SIZE (HeapServices := demoH))
    by by_comparison.
  assert (Hheap : isPointerInManagedHeap (HeapServices := demoH) 0x1610 = true)
    by by_evaluation.
  assert (Hrun : ValidateByref (H := demoH) 0x1610 NULL NULL singleQueue
                 = (Ret tt, snd enqueueOnSingle)) by by_evaluation.
  split; [exact demo_singleQueue_wf|]. split; [exact Hmark|]. split; [exact Hheap|].
  split; [exact Hrun|].
  exact (ValidateByref_appends_one_entry (H := demoH) 0x1610 NULL NULL singleQueue
           (snd enqueueOnSingle) demo_singleQueue_wf Hmark Hheap Hrun).
Defined.

Lemma ValidateByref_with_room_succeeds_witness :
  queue_wf (H := demoH) spareQueue /\
  isPointerInManagedHeap (HeapServices := demoH) 0x1810 = true /\
  s_ByrefValidationIndex spareQueue < qa_size (s_ByrefValidationEntries spareQueue) /\
  s_ByrefValidationIndex spareQueue + 1
    <= BYREF_VALIDATION_LIST_MAX_SIZE (HeapServices := demoH) /\
  fst (ValidateByref (H := demoH) 0x1810 0x9000 NULL spareQueue) = Ret tt /\
  emitted spareQueue (snd (ValidateByref (H := demoH) 0x1810 0x9000 NULL spareQueue)) [] /\
  qa_size (s_ByrefValidationEntries
             (snd (ValidateByref (H := demoH) 0x1810 0x9000 NULL spareQueue)))
  = qa_size (s_ByrefValidationEntries spareQueue).
Proof.
  assert (Hheap : isPointerInManagedHeap (HeapServices := demoH) 0x1810 = true)
    by by_evaluation.
  assert (Hroom : s_ByrefValidationIndex spareQueue
                  < qa_size (s_ByrefValidationEntries spareQueue)) by by_evaluation.
  assert (Hmark : s_ByrefValidationIndex spareQueue + 1
                  <= BYREF_VALIDATION_LIST_MAX_SIZE (HeapServices := demoH))
    by by_comparison.
  split; [exact demo_spareQueue_wf|]. split; [exact Hheap|]. split; [exact Hroom|].
  split; [exact Hmark|].
  exact (ValidateByref_with_room_succeeds (H := demoH) 0x1810 0x9000 NULL
           spareQueue demo_spareQueue_wf Hheap Hroom Hmark).
Defined.

Lemma ProcessByrefValidationList_keeps_buffer_witness :
  ProcessByrefValidationList (H := demoH) (queueWorld 4 corruptEntries)
    = (Fatal, snd drainCorrupt) /\
  s_ByrefValidationEntries (snd drainCorrupt)
    = s_ByrefValidationEntries (queueWorld 4 corruptEntries) /\
  s_ByrefValidationIndex (snd drainCorrupt)
    = s_ByrefValidationIndex (queueWorld 4 corruptEntries).
Proof.
  assert (Hrun : ProcessByrefValidationList (H := demoH) (queueWorld 4 corruptEntries)
                 = (Fatal, snd drainCorrupt)) by by_evaluation.
  split; [exact Hrun|].
  destruct (ProcessByrefValidationList_keeps_buffer (H := demoH)
              (queueWorld 4 corruptEntries) (snd drainCorrupt) Fatal Hrun)
    as (Hbuf & [(Hret & _)|(_ & Hidx)] & _); [discriminate Hret|].
  split; assumption.
Defined.

Lemma ProcessByrefValidationList_twice_witness :
  ProcessByrefValidationList (H := demoH) (queueWorld 4 soundEntries)
    = (Ret tt, snd drainSound) /\
  ProcessByrefValidationList (H := demoH) (snd drainSound) = (Ret tt, snd drainSound).
Proof.
  assert (Hrun : ProcessByrefValidationList (H := demoH) (queueWorld 4 soundEntries)
                 = (Ret tt, snd drainSound)) by by_evaluation.
  split; [exact Hrun|].
  exact (ProcessByrefValidationList_twice (H := demoH) (queueWorld 4 soundEntries)
           (snd drainSound) Hrun).
Defined.

Lemma ValidateByref_then_drain_visits_new_entry_witness :
  queue_wf (H := demoH) emptyWorld /\
  s_ByrefValidationIndex emptyWorld + 1
    <= BYREF_VALIDATION_LIST_MAX_SIZE (HeapServices := demoH) /\
  isPointerInManagedHeap (HeapServices := demoH) 0x1610 = true /\
  ValidateByref (H := demoH) 0x1610 0x9000 NULL emptyWorld = (Ret tt, snd enqueueOnEmpty) /\
  ProcessByrefValidationList (H := demoH) (snd enqueueOnEmpty)
    = (Ret tt, snd drainAfterEnqueue) /\
  emitted (snd enqueueOnEmpty) (snd drainAfterEnqueue) (trace (snd drainAfterEnqueue)) /\
  existsb (failed_validation (H := demoH)) (trace (snd drainAfterEnqueue)) = false /\
  emitted emptyWorld (snd enqueueOnEmpty) [] /\
  s_ByrefValidationIndex (snd drainAfterEnqueue) = 0 /\
  resolved_pointers (trace (snd drainAfterEnqueue))
    = map pByref (live_entries emptyWorld) ++ [0x1610].
Proof.
  assert (Hmark : s_ByrefValidationIndex emptyWorld + 1
                  <= BYREF_VALIDATION_LIST_MAX_SIZE (HeapServices := demoH))
    by by_comparison.
  assert (Hheap : isPointerInManagedHeap (HeapServices := demoH) 0x1610 = true)
    by by_evaluation.
  assert (Henq : ValidateByref (H := demoH) 0x1610 0x9000 NULL emptyWorld
                 = (Ret tt, snd enqueueOnEmpty)) by by_evaluation.
  assert (Hdrain : ProcessByrefValidationList (H := demoH) (snd enqueueOnEmpty)
                   = (Ret tt, snd drainAfterEnqueue)) by by_evaluation.
  assert (Hem : emitted (snd enqueueOnEmpty) (snd drainAfterEnqueue)
                  (trace (snd drainAfterEnqueue))) by by_evaluation.
  assert (Hpass : existsb (failed_validation (H := demoH))
                    (trace (snd drainAfterEnqueue)) = false) by by_evaluation.
  split; [exact demo_emptyWorld_wf|]. split; [exact Hmark|]. split; [exact Hheap|].
  split; [exact Henq|]. split; [exact Hdrain|]. split; [exact Hem|]. split; [exact Hpass|].
  destruct (ValidateByref_then_drain_visits_new_entry (H := demoH) 0x1610 0x9000 NULL
              emptyWorld (snd enqueueOnEmpty) (snd drainAfterEnqueue) (Ret tt)
              (trace (snd drainAfterEnqueue))
              demo_emptyWorld_wf Hmark Hheap Henq Hdrain Hem Hpass)
    as (Hquiet & _ & Hcount & Hres).
  split; [exact Hquiet|]. split; [exact Hcount|exact Hres].
Defined.

Lemma ValidateByref_then_drain_blames_call_site_witness :
  queue_wf (H := demoH) emptyWorld /\
  s_ByrefValidationIndex emptyWorld = 0 /\
  isPointerInManagedHeap (HeapServices := demoH) 0x1310 = true /\
  ValidateByref (H := demoH) 0x1310 NULL 0x20 emptyWorld = (Ret tt, snd enqueueCorrupt) /\
  ProcessByrefValidationList (H := demoH) (snd enqueueCorrupt)
    = (Fatal, snd drainAfterCorrupt) /\
  emitted (snd enqueueCorrupt) (snd drainAfterCorrupt) (trace (snd drainAfterCorrupt)) /\
  existsb (failed_validation (H := demoH)) (trace (snd drainAfterCorrupt)) = true /\
  last (trace (snd drainAfterCorrupt))
  = Some (EvFatalError COR_E_EXECUTIONENGINE
            match fst (FormatValidationMessage (H := demoH)
                         (ResolveInteropMethod (H := demoH) 0x20 NULL) EmptyString
                         (snd enqueueCorrupt)) with
            | Ret text => Some text
            | _ => None
            end).
Proof.
  assert (Hempty : s_ByrefValidationIndex emptyWorld = 0) by by_evaluation.
  assert (Hheap : isPointerInManagedHeap (HeapServices := demoH) 0x1310 = true)
    by by_evaluation.
  assert (Henq : ValidateByref (H := demoH) 0x1310 NULL 0x20 emptyWorld
                 = (Ret tt, snd enqueueCorrupt)) by by_evaluation.
  assert (Hdrain : ProcessByrefValidationList (H := demoH) (snd enqueueCorrupt)
                   = (Fatal, snd drainAfterCorrupt)) by by_evaluation.
  assert (Hem : emitted (snd enqueueCorrupt) (snd drainAfterCorrupt)
                  (trace (snd drainAfterCorrupt))) by by_evaluation.
  assert (Hfail : existsb (failed_validation (H := demoH))
                    (trace (snd drainAfterCorrupt)) = true) by by_evaluation.
  split; [exact demo_emptyWorld_wf|]. split; [exact Hempty|]. split; [exact Hheap|].
  split; [exact Henq|]. split; [exact Hdrain|]. split; [exact Hem|]. split; [exact Hfail|].
  exact (proj2 (ValidateByref_then_drain_blames_call_site (H := demoH) 0x1310 NULL 0x20
                  emptyWorld (snd enqueueCorrupt) (snd drainAfterCorrupt) Fatal
                  (trace (snd drainAfterCorrupt))
                  demo_emptyWorld_wf Hempty Hheap Henq Hdrain Hem Hfail)).
Defined.

Lemma ValidateObjectInternal_outcome_witness :
  ValidateObjectInternal (H := demoH) 0x1600 true emptyWorld = (Ret tt, snd validateSound) /\
  s_ByrefValidationEntries (snd validateSound) = s_ByrefValidationEntries emptyWorld /\
  s_ByrefValidationIndex (snd validateSound) = s_ByrefValidationIndex emptyWorld.
Proof.
  assert (Hrun : ValidateObjectInternal (H := demoH) 0x1600 true emptyWorld
                 = (Ret tt, snd validateSound)) by by_evaluation.
  split; [exact Hrun|].
  destruct (ValidateObjectInternal_outcome (H := demoH) 0x1600 true emptyWorld
              (snd validateSound) (Ret tt) Hrun) as (Hbuf & Hidx & _).
  split; assumption.
Defined.

Lemma FormatValidationMessage_appends_witness :
  FormatValidationMessage (H := demoH) 0x9000 "heap: " emptyWorld
    = (Ret "heap: Detected managed heap corruption, likely culprit is interop call through method 'Interop.Native.Fill'.",
       emptyWorld) /\
  emptyWorld = emptyWorld.
Proof.
  assert (Hrun : FormatValidationMessage (H := demoH) 0x9000 "heap: " emptyWorld
                 = (Ret "heap: Detected managed heap corruption, likely culprit is interop call through method 'Interop.Native.Fill'.",
                    emptyWorld)) by by_evaluation.
  split; [exact Hrun|].
  exact (proj1 (FormatValidationMessage_appends (H := demoH) 0x9000 "heap: " emptyWorld
                  emptyWorld _ Hrun)).
Defined.

Lemma ValidateObject_failure_witness :
  ValidateObject (H := demoH) 0x1300 0x9000 NULL emptyWorld
    = (Fatal, snd validateCorruptNow) /\
  emitted emptyWorld (snd validateCorruptNow) (trace (snd validateCorruptNow)) /\
  existsb (failed_validation (H := demoH)) (trace (snd validateCorruptNow)) = true /\
  match fst (FormatValidationMessage (H := demoH)
               (ResolveInteropMethod (H := demoH) NULL 0x9000) EmptyString emptyWorld) with
  | Ret text =>
      @Fatal unit = Fatal /\
      count_events is_fatal_error (trace (snd validateCorruptNow)) = 1%nat /\
      last (trace (snd validateCorruptNow))
      = Some (EvFatalError COR_E_EXECUTIONENGINE (Some text))
  | _ =>
      @Fatal unit = Throw (HRException E_OUTOFMEMORY) /\
      count_events is_fatal_error (trace (snd validateCorruptNow)) = 0%nat
  end.
Proof.
  assert (Hrun : ValidateObject (H := demoH) 0x1300 0x9000 NULL emptyWorld
                 = (Fatal, snd validateCorruptNow)) by by_evaluation.
  assert (Hem : emitted emptyWorld (snd validateCorruptNow) (trace (snd validateCorruptNow)))
    by by_evaluation.
  assert (Hfail : existsb (failed_validation (H := demoH))
                    (trace (snd validateCorruptNow)) = true) by by_evaluation.
  split; [exact Hrun|]. split; [exact Hem|]. split; [exact Hfail|].
  exact (proj2 (ValidateObject_failure (H := demoH) 0x1300 0x9000 NULL emptyWorld
                  (snd validateCorruptNow) Fatal (trace (snd validateCorruptNow))
                  Hrun Hem) Hfail).
Defined.

Lemma RCWCache_first_match_wins_witness :
  current_context (H := demoCom) cachedWorld
    = GetWrapperCtxCookie (ComServices := demoCom) 0x13100 /\
  GetCOMIPFromRCW_GetIUnknownFromRCWCache (H := demoCom) 0x13100 0x9201 cachedWorld
    = (Ret 0x5000, snd scanCached) /\
  emitted cachedWorld (snd scanCached) (trace (snd scanCached)) /\
  trace (snd scanCached) = map (EvCacheRead 0x13100) (seq 0 3).
Proof.
  assert (Hctx : current_context (H := demoCom) cachedWorld
                 = GetWrapperCtxCookie (ComServices := demoCom) 0x13100) by by_evaluation.
  assert (Hrun : GetCOMIPFromRCW_GetIUnknownFromRCWCache (H := demoCom) 0x13100 0x9201
                   cachedWorld = (Ret 0x5000, snd scanCached)) by by_evaluation.
  assert (Hem : emitted cachedWorld (snd scanCached) (trace (snd scanCached)))
    by by_evaluation.
  split; [exact Hctx|]. split; [exact Hrun|]. split; [exact Hem|].
  destruct (RCWCache_first_match_wins (H := demoCom) 0x13100 0x9201 cachedWorld
              (snd scanCached) (Ret 0x5000) (trace (snd scanCached))
              (or_intror Hctx) Hrun Hem) as [Hmatch _].
  refine (proj2 (Hmatch 2%nat _ _ _)).
  - repeat constructor.
  - intros [|[|j]] Hj; [by_comparison|by_comparison|].
    exfalso. apply Nat.succ_lt_mono, Nat.succ_lt_mono in Hj. exact (Nat.nlt_0_r j Hj).
  - by_evaluation.
Defined.

Lemma demo_cached_hit : fast_path_hit (H := demoCom) cachedWorld 0x3100 0x9200 0x5000.
Proof.
  split; [by_comparison|]. split; [right; by_evaluation|].
  split; [|split; by_comparison].
  exists 2%nat. split; [repeat constructor|]. split; [|split; by_evaluation].
  intros [|[|j]] Hj; [by_comparison|by_comparison|].
  exfalso. apply Nat.succ_lt_mono, Nat.succ_lt_mono in Hj. exact (Nat.nlt_0_r j Hj).
Defined.


Lemma GetCOMIPFromRCW_clears_fp_once_witness :
  GetCOMIPFromRCW (H := demoCom) 0x3100 0x9200 cachedWorld = (Ret 0x5000, snd callCached) /\
  emitted cachedWorld (snd callCached) (trace (snd callCached)) /\
  count_events is_clear_fp (trace (snd callCached))
  = if TARGET_X86 (ComServices := demoCom) && is_ret (Ret 0x5000) then 1%nat else 0%nat.
Proof.
  assert (Hrun : GetCOMIPFromRCW (H := demoCom) 0x3100 0x9200 cachedWorld
                 = (Ret 0x5000, snd callCached)) by by_evaluation.
  assert (Hem : emitted cachedWorld (snd callCached) (trace (snd callCached)))
    by by_evaluation.
  split; [exact Hrun|]. split; [exact Hem|].
  exact (GetCOMIPFromRCW_clears_fp_once (H := demoCom) 0x3100 0x9200 cachedWorld
           (snd callCached) (Ret 0x5000) (trace (snd callCached)) Hrun Hem).
Defined.

Lemma GetCOMIPFromRCW_target_of_returned_pointer_witness :
  GetCOMIPFromRCW (H := demoCom) 0x3000 0x9200 emptyWorld
    = (Ret 0xC201, snd callWithoutRCW) /\
  out_ppTarget (snd callWithoutRCW)
    = GetCOMIPFromRCW_GetTarget (H := demoCom) 0xC201 0x9200.
Proof.
  assert (Hrun : GetCOMIPFromRCW (H := demoCom) 0x3000 0x9200 emptyWorld
                 = (Ret 0xC201, snd callWithoutRCW)) by by_evaluation.
  split; [exact Hrun|].
  exact (proj1 (GetCOMIPFromRCW_target_of_returned_pointer (H := demoCom) 0x3000 0x9200
                  emptyWorld (snd callWithoutRCW) 0xC201 Hrun)).
Defined.

Lemma GetCOMIPFromRCW_hit_twice_witness :
  fast_path_hit (H := demoCom) cachedWorld 0x3100 0x9200 0x5000 /\
  GetCOMIPFromRCW (H := demoCom) 0x3100 0x9200 cachedWorld = (Ret 0x5000, snd callCached) /\
  GetCOMIPFromRCW (H := demoCom) 0x3100 0x9200 (snd callCached)
    = (Ret 0x5000, snd callCachedAgain) /\
  emitted (snd callCached) (snd callCachedAgain)
    [EvStoreNeedsRelease false; EvCacheRead 0x13100 0; EvCacheRead 0x13100 1;
     EvCacheRead 0x13100 2; EvStoreTarget 0x5018] /\
  out_pfNeedsRelease (snd callCachedAgain) = false.
Proof.
  assert (Hrun1 : GetCOMIPFromRCW (H := demoCom) 0x3100 0x9200 cachedWorld
                  = (Ret 0x5000, snd callCached)) by by_evaluation.
  assert (Hrun2 : GetCOMIPFromRCW (H := demoCom) 0x3100 0x9200 (snd callCached)
                  = (Ret 0x5000, snd callCachedAgain)) by by_evaluation.
  assert (Hem2 : emitted (snd callCached) (snd callCachedAgain)
                   [EvStoreNeedsRelease false; EvCacheRead 0x13100 0; EvCacheRead 0x13100 1;
                    EvCacheRead 0x13100 2; EvStoreTarget 0x5018]) by by_evaluation.
  split; [exact demo_cached_hit|]. split; [exact Hrun1|]. split; [exact Hrun2|].
  split; [exact Hem2|].
  destruct (GetCOMIPFromRCW_hit_twice (H := demoCom) 0x3100 0x9200 0x5000 cachedWorld
              (snd callCached) (snd callCachedAgain) (Ret 0x5000) (Ret 0x5000) _
              demo_cached_hit Hrun1 Hrun2 Hem2) as (_ & _ & Hflag & _).
  exact Hflag.
Defined.

Lemma GetCOMIPFromRCW_without_rcw_witness :
  GetRawRCW (ComServices := demoCom) 0x3000 = NULL /\
  GetCOMIPFromRCW (H := demoCom) 0x3000 0x9200 emptyWorld
    = (Ret 0xC201, snd callWithoutRCW) /\
  emitted emptyWorld (snd callWithoutRCW) (trace (snd callWithoutRCW)) /\
  ReservedForOle (snd callWithoutRCW) = ReservedForOle emptyWorld /\
  out_pfNeedsRelease (snd callWithoutRCW) = true.
Proof.
  assert (Hnull : GetRawRCW (ComServices := demoCom) 0x3000 = NULL) by by_evaluation.
  assert (Hrun : GetCOMIPFromRCW (H := demoCom) 0x3000 0x9200 emptyWorld
                 = (Ret 0xC201, snd callWithoutRCW)) by by_evaluation.
  assert (Hem : emitted emptyWorld (snd callWithoutRCW) (trace (snd callWithoutRCW)))
    by by_evaluation.
  split; [exact Hnull|]. split; [exact Hrun|]. split; [exact Hem|].
  destruct (GetCOMIPFromRCW_without_rcw (H := demoCom) 0x3000 0x9200 emptyWorld
              (snd callWithoutRCW) (Ret 0xC201) (trace (snd callWithoutRCW))
              Hnull Hrun Hem) as (Hole & Hflag & _).
  split; assumption.
Defined.

Lemma ValidateByref_capacity_shape_witness :
  queue_wf (H := demoH) singleQueue /\
  (exists k, 0 <= k /\ qa_size (s_ByrefValidationEntries singleQueue) = 2 ^ k - 1) /\
  ValidateByref (H := demoH) 0x1610 NULL NULL singleQueue = (Ret tt, snd enqueueOnSingle) /\
  exists k', 0 <= k' /\ qa_size (s_ByrefValidationEntries (snd enqueueOnSingle)) = 2 ^ k' - 1.
Proof.
  assert (Hshape : exists k, 0 <= k /\
                     qa_size (s_ByrefValidationEntries singleQueue) = 2 ^ k - 1).
  { exists 1. split; [by_comparison|by_evaluation]. }
  assert (Hrun : ValidateByref (H := demoH) 0x1610 NULL NULL singleQueue
                 = (Ret tt, snd enqueueOnSingle)) by by_evaluation.
  split; [exact demo_singleQueue_wf|]. split; [exact Hshape|]. split; [exact Hrun|].
  exact (ValidateByref_capacity_shape (H := demoH) 0x1610 NULL NULL singleQueue
           (snd enqueueOnSingle) (Ret tt) demo_singleQueue_wf Hshape Hrun).
Defined.

Lemma ValidateByref_calls_then_drain_witness :
  queue_wf (H := demoH) emptyWorld /\
  s_ByrefValidationIndex emptyWorld + Z.of_nat (length twoCalls)
    <= BYREF_VALIDATION_LIST_MAX_SIZE (HeapServices := demoH) /\
  Forall (fun c => isPointerInManagedHeap (HeapServices := demoH) (fst (fst c)) = true)
    twoCalls /\
  ValidateByref_calls (H := demoH) twoCalls emptyWorld = (Ret tt, snd enqueueTwo) /\
  ProcessByrefValidationList (H := demoH) (snd enqueueTwo) = (Ret tt, snd drainAfterTwo) /\
  emitted (snd enqueueTwo) (snd drainAfterTwo) (trace (snd drainAfterTwo)) /\
  existsb (failed_validation (H := demoH)) (trace (snd drainAfterTwo)) = false /\
  emitted emptyWorld (snd enqueueTwo) [] /\
  s_ByrefValidationIndex (snd enqueueTwo)
    = s_ByrefValidationIndex emptyWorld + Z.of_nat (length twoCalls) /\
  s_ByrefValidationIndex (snd drainAfterTwo) = 0 /\
  resolved_pointers (trace (snd drainAfterTwo))
    = map pByref (live_entries emptyWorld) ++ map (fun c => fst (fst c)) twoCalls.
Proof.
  assert (Hmark : s_ByrefValidationIndex emptyWorld + Z.of_nat (length twoCalls)
                  <= BYREF_VALIDATION_LIST_MAX_SIZE (HeapServices := demoH))
    by by_comparison.
  assert (Hall : Forall (fun c => isPointerInManagedHeap (HeapServices := demoH)
                                    (fst (fst c)) = true) twoCalls).
  { unfold twoCalls. repeat (apply Forall_cons; split; [by_evaluation|]). apply Forall_nil_2. }
  assert (Henq : ValidateByref_calls (H := demoH) twoCalls emptyWorld
                 = (Ret tt, snd enqueueTwo)) by by_evaluation.
  assert (Hdrain : ProcessByrefValidationList (H := demoH) (snd enqueueTwo)
                   = (Ret tt, snd drainAfterTwo)) by by_evaluation.
  assert (Hem : emitted (snd enqueueTwo) (snd drainAfterTwo) (trace (snd drainAfterTwo)))
    by by_evaluation.
  assert (Hpass : existsb (failed_validation (H := demoH)) (trace (snd drainAfterTwo)) = false)
    by by_evaluation.
  split; [exact demo_emptyWorld_wf|]. split; [exact Hmark|]. split; [exact Hall|].
  split; [exact Henq|]. split; [exact Hdrain|]. split; [exact Hem|]. split; [exact Hpass|].
  destruct (ValidateByref_calls_then_drain (H := demoH) twoCalls emptyWorld
              (snd enqueueTwo) (snd drainAfterTwo) (Ret tt) (trace (snd drainAfterTwo))
              demo_emptyWorld_wf Hmark Hall Henq Hdrain Hem Hpass)
    as (Hquiet & Hlive & _ & Hcount & Hres).
  split; [exact Hquiet|]. split; [exact Hlive|]. split; [exact Hcount|exact Hres].
Defined.

Lemma ObjectMarshaler_ConvertToNative_by_ref_bit_witness :
  0 <= 0x400C /\
  (ObjectMarshaler_ConvertToNative 0x400C = MarshalOleRefVariantForObject
     <-> Z.testbit 0x400C 14 = true) /\
  ObjectMarshaler_ConvertToNative (Z.lor 0x400C VT_BYREF) = MarshalOleRefVariantForObject /\
  (0x400C < VT_BYREF -> ObjectMarshaler_ConvertToNative 0x400C = MarshalOleVariantForObject).
Proof.
  assert (Hvt : 0 <= 0x400C) by by_comparison.
  split; [exact Hvt|].
  exact (ObjectMarshaler_ConvertToNative_by_ref_bit 0x400C Hvt).
Defined.
